(** * The ffmpeg helper plugins: thumbnail, audio, subtitle and metadata

    A shallow embedding of [plugins.v2/ffmpegthumb2/ffmpeg_helper.py]
    (class [FfmpegHelper2]) and [plugins.v2/ffmpegthumbfree/ffmpeg_helper.py]
    (class [FfmpegHelper]).

    - Python [float] is IEEE binary64: the kernel's primitive floats
      ([PrimFloat]), specified by [SpecFloat] through [FloatAxioms].
    - Python [str] is [string]; the model reads a [str] byte by byte and so
      covers ASCII text (a byte above 127 is never a digit nor a blank).
    - The outside world (the search path, the environment, child processes,
      the shell, the JSON decoder) is a record of oracles, [world]; what a
      call does to it is recorded in a trace of [event]s that every
      operation threads through, together with a result that is either a
      value or a raised exception. *)

From Stdlib Require Import ZArith List String Ascii Bool Lia Floats DecimalString.
Import ListNotations.
Local Open Scope string_scope.
Local Open Scope list_scope.
Set Warnings "-register-all,-inexact-float".

(** ** Python strings *)

Module PyStr.

(** [s.split(sep)] for a one-character separator: never the empty list. *)
Fixpoint split (sep : ascii) (s : string) : list string :=
  match s with
  | EmptyString => [EmptyString]
  | String c s' =>
      if Ascii.eqb c sep then EmptyString :: split sep s'
      else match split sep s' with
           | h :: t => String c h :: t
           | [] => [String c EmptyString]
           end
  end.

(** C's [Py_ISSPACE] on a byte: tab, line feed, vertical tab, form feed,
    carriage return and space. *)
Definition Py_ISSPACE (c : ascii) : bool :=
  let n := nat_of_ascii c in
  ((9 <=? n) && (n <=? 13) || (n =? 32))%nat.

Definition Py_ISDIGIT (c : ascii) : bool :=
  let n := nat_of_ascii c in ((48 <=? n) && (n <=? 57))%nat.

Definition digit_val (c : ascii) : N := N.of_nat (nat_of_ascii c - 48).

Fixpoint lstrip (s : string) : string :=
  match s with
  | String c s' => if Py_ISSPACE c then lstrip s' else s
  | EmptyString => EmptyString
  end.

Fixpoint rstrip (s : string) : string :=
  match s with
  | EmptyString => EmptyString
  | String c s' =>
      match rstrip s' with
      | EmptyString => if Py_ISSPACE c then EmptyString else String c EmptyString
      | r => String c r
      end
  end.

Definition strip (s : string) : string := rstrip (lstrip s).

Definition lower (c : ascii) : ascii :=
  let n := nat_of_ascii c in
  if ((65 <=? n) && (n <=? 90))%nat then ascii_of_nat (n + 32) else c.

Fixpoint lower_string (s : string) : string :=
  match s with
  | EmptyString => EmptyString
  | String c s' => String (lower c) (lower_string s')
  end.

(** Truth value of a [str]: the empty string is false. *)
Definition truthy (s : string) : bool :=
  match s with EmptyString => false | String _ _ => true end.

(** Truth value of an [Optional[str]]: [None] and the empty string are false. *)
Definition truthy_opt (o : option string) : bool :=
  match o with Some s => truthy s | None => false end.

(** [str(n)] for an [int]. *)
Definition str_of_int (n : Z) : string := NilZero.string_of_int (Z.to_int n).

(** The double quote character, as a one-character string. *)
Definition dquote : string := String (ascii_of_nat 34) EmptyString.

End PyStr.

(** ** Python floats: [float(s)], [max] *)

Module PyFloat.
Import PyStr.

(** CPython's [_Py_string_to_number_with_underscores]: an underscore is
    accepted only between two digits, and is dropped. [prev] is the
    previous character. *)
Fixpoint drop_underscores (prev : option ascii) (s : string) : option string :=
  match s with
  | EmptyString =>
      match prev with
      | Some "_"%char => None
      | _ => Some EmptyString
      end
  | String c s' =>
      if Ascii.eqb c "_" then
        match prev with
        | Some p => if Py_ISDIGIT p then drop_underscores (Some c) s' else None
        | None => None
        end
      else
        match prev with
        | Some "_"%char =>
            if Py_ISDIGIT c
            then option_map (String c) (drop_underscores (Some c) s')
            else None
        | _ => option_map (String c) (drop_underscores (Some c) s')
        end
  end.

(** A run of decimal digits: the number read so far, how many digits were
    read, and what follows them. *)
Fixpoint read_digits (acc : N) (cnt : nat) (s : string) : N * nat * string :=
  match s with
  | String c s' =>
      if Py_ISDIGIT c then read_digits (acc * 10 + digit_val c)%N (S cnt) s'
      else (acc, cnt, s)
  | EmptyString => (acc, cnt, s)
  end.

Definition read_sign (s : string) : bool * string :=
  match s with
  | String "-" s' => (true, s')
  | String "+" s' => (false, s')
  | _ => (false, s)
  end.

(** The binary64 value nearest to [(-1)^neg * M * 10^k], ties to even:
    the rounding of [SpecFloat], applied to the exact integer or to the exact
    quotient. *)
Definition SF_of_decimal (neg : bool) (M : N) (k : Z) : spec_float :=
  match M with
  | N0 => S754_zero neg
  | Npos m =>
      match k with
      | Z0 => binary_round prec emax neg m 0
      | Zpos p => binary_round prec emax neg (m * 10 ^ p) 0
      | Zneg p =>
          SFdiv prec emax (S754_finite neg m 0) (S754_finite false (10 ^ p) 0)
      end
  end.

(** The exponent part: nothing, or [e] or [E], an optional sign and at least
    one digit, up to the end of the string. *)
Definition read_exponent (s : string) : option Z :=
  match s with
  | EmptyString => Some 0%Z
  | String c s' =>
      if Ascii.eqb (lower c) "e" then
        let '(eneg, s1) := read_sign s' in
        let '(e, n, rest) := read_digits 0 0 s1 in
        match n, rest with
        | S _, EmptyString => Some (if eneg then (- Z.of_N e)%Z else Z.of_N e)
        | _, _ => None
        end
      else None
  end.

(** A decimal literal: digits, an optional point and digits, with a digit on
    one side of the point at least, and an optional exponent. *)
Definition parse_decimal (neg : bool) (s : string) : option spec_float :=
  let '(ip, ni, s1) := read_digits 0 0 s in
  let '(m, nf, s2) :=
    match s1 with
    | String "." s1' => read_digits ip 0 s1'
    | _ => (ip, 0%nat, s1)
    end in
  match (ni + nf)%nat with
  | O => None
  | S _ =>
      match read_exponent s2 with
      | Some e => Some (SF_of_decimal neg m (e - Z.of_nat nf))
      | None => None
      end
  end.

(** CPython's [_Py_parse_inf_or_nan], the sign already read. *)
Definition parse_inf_or_nan (neg : bool) (s : string) : option spec_float :=
  let l := lower_string s in
  if String.eqb l "inf" || String.eqb l "infinity" then Some (S754_infinity neg)
  else if String.eqb l "nan" then Some S754_nan
  else None.

(** [float(s)] for a [str]: [None] stands for the [ValueError] it raises. *)
Definition py_float (s : string) : option float :=
  match drop_underscores None (strip s) with
  | None => None
  | Some u =>
      let '(neg, body) := read_sign u in
      match parse_decimal neg body with
      | Some x => Some (SF2Prim x)
      | None => option_map SF2Prim (parse_inf_or_nan neg body)
      end
  end.

(** [max(a, b)] on two floats: [b] replaces [a] only when [b > a]. *)
Definition py_max (a b : float) : float :=
  if PrimFloat.ltb a b then b else a.

End PyFloat.

(** ** The timestamp parser

    [_time_str_to_seconds] is the same function, word for word, in both
    files. The comprehension [[float(p) for p in parts]] raises at the first
    part that [float] refuses; the [except] turns that into [None]. *)

Fixpoint floats_of_parts (parts : list string) : option (list float) :=
  match parts with
  | [] => Some []
  | p :: rest =>
      match PyFloat.py_float p with
      | None => None
      | Some x =>
          match floats_of_parts rest with
          | None => None
          | Some xs => Some (x :: xs)
          end
      end
  end.

Definition _time_str_to_seconds (time_str : string) : option float :=
  match floats_of_parts (PyStr.split ":" time_str) with
  | None => None
  | Some parts =>
      Some (fold_left (fun seconds p => (seconds * 60 + p)%float) parts 0%float)
  end.

(** ** The outside world *)

(** The exceptions the modelled calls raise: all of them subclasses of
    Python's [Exception]. *)
Inductive exn :=
| TimeoutExpired                  (* subprocess.TimeoutExpired *)
| JSONDecodeError                 (* json.JSONDecodeError *)
| OtherError (name : string).     (* any other one: OSError, ValueError, ... *)

(** [subprocess.CompletedProcess]: the exit code and the captured output. *)
Record CompletedProcess := {
  returncode : Z;
  stdout : string;
  stderr : string
}.

(** What [subprocess.run] does: it returns, or it raises. *)
Inductive outcome :=
| Completed (ret : CompletedProcess)
| Raises (e : exn).

(** JSON values as [json.loads] builds them; [JNull] is Python's [None]. *)
Inductive json :=
| JNull
| JBool (b : bool)
| JInt (n : Z)
| JFloat (x : float)
| JString (s : string)
| JArray (items : list json)
| JObject (members : list (string * json)).

Definition py_None : json := JNull.

(** An element of a command list: a [str], or [str(x)] of a float [x]. *)
Inductive arg :=
| Str (s : string)
| FloatStr (x : float).

(** The lines the helpers print, one constructor per [print] statement. *)
Inductive diagnostic :=
| CmdFailed (command : list arg)   (* "ffmpeg/ffprobe failed: <command>" *)
| CmdStderr (text : string)        (* the decoded stderr of the child *)
| CmdTimeout (command : list arg)  (* "ffmpeg/ffprobe timeout: <command>" *)
| RunException (e : exn)           (* "Subprocess run exception:", e *)
| NotFound (exe : string)          (* "<exe> not found in PATH" *)
| ProbeTimeout                     (* "ffprobe timeout" *)
| ProbeException (e : exn).        (* "ffprobe exception:", e *)

(** What a call does to the world, in order. *)
Inductive event :=
| Run (command : list arg) (timeout : option Z) (piped : bool)
                                   (* a call of subprocess.run *)
| Shell (cmd : string)             (* a call of SystemUtils.execute *)
| Print (d : diagnostic).

Definition trace := list event.

(** The oracles. A child process and the shell may answer differently each
    time, so their answer depends on the trace so far. [SystemUtils.execute]
    is code of the host application: it runs a command line through the shell
    and returns a line of its output. *)
Record world := {
  shutil_which : string -> option string;
  os_getenv : string -> option string;
  process : trace -> list arg -> option Z -> outcome;
  shell : trace -> string -> string;
  json_decode : string -> json + exn;
  utf8_ignore : string -> string      (* bytes.decode("utf-8", errors="ignore") *)
}.

(** The commands handed to [subprocess.run] and to the shell, in order. *)
Fixpoint spawned (tr : trace) : list (list arg) :=
  match tr with
  | [] => []
  | Run command _ _ :: tr' => command :: spawned tr'
  | _ :: tr' => spawned tr'
  end.

Fixpoint shelled (tr : trace) : list string :=
  match tr with
  | [] => []
  | Shell cmd :: tr' => cmd :: shelled tr'
  | _ :: tr' => shelled tr'
  end.

Fixpoint printed (tr : trace) : list diagnostic :=
  match tr with
  | [] => []
  | Print d :: tr' => d :: printed tr'
  | _ :: tr' => printed tr'
  end.

(** ** Computations: a trace threaded through, a value or an exception out *)

Inductive result (A : Type) :=
| Ok (a : A)
| Raised (e : exn).
Arguments Ok {A} a.
Arguments Raised {A} e.

Definition M (A : Type) : Type := trace -> result A * trace.

Definition pure {A} (a : A) : M A := fun tr => (Ok a, tr).

Definition bind {A B} (m : M A) (k : A -> M B) : M B :=
  fun tr =>
    match m tr with
    | (Ok a, tr') => k a tr'
    | (Raised e, tr') => (Raised e, tr')
    end.

(** [try: body / except Exception as e: handler e]. *)
Definition try_except {A} (body : M A) (handler : exn -> M A) : M A :=
  fun tr =>
    match body tr with
    | (Ok a, tr') => (Ok a, tr')
    | (Raised e, tr') => handler e tr'
    end.

Definition emit (ev : event) : M unit := fun tr => (Ok tt, tr ++ [ev]).

Definition print (d : diagnostic) : M unit := emit (Print d).

Notation "x <- m ;; k" := (bind m (fun x => k))
  (at level 61, m at next level, right associativity).
Notation "m ;;; k" := (bind m (fun _ => k))
  (at level 61, right associativity).

Section Calls.
Variable w : world.

(** [subprocess.run(command, stdout=PIPE, stderr=PIPE, timeout=timeout)] when
    [piped], [subprocess.run(command)] otherwise. *)
Definition subprocess_run (command : list arg) (timeout : option Z)
    (piped : bool) : M CompletedProcess :=
  fun tr =>
    let tr' := tr ++ [Run command timeout piped] in
    match process w tr command timeout with
    | Completed ret => (Ok ret, tr')
    | Raises e => (Raised e, tr')
    end.

(** [SystemUtils.execute(cmd)]. *)
Definition SystemUtils_execute (cmd : string) : M string :=
  fun tr => (Ok (shell w tr cmd), tr ++ [Shell cmd]).

(** [json.loads(text)]. *)
Definition json_loads (text : string) : M json :=
  fun tr =>
    match json_decode w text with
    | inl v => (Ok v, tr)
    | inr e => (Raised e, tr)
    end.

End Calls.

(** ** [FfmpegHelper2] (plugins.v2/ffmpegthumb2/ffmpeg_helper.py)

    The arguments have the types of their annotations: [threads] and
    [timeout] are [int]s, [preseek_offset] is a [float], so that
    [float(preseek_offset)] is [preseek_offset] itself; an [Optional]
    argument is an [option]. [FloatStr x] in a command stands for [str(x)]. *)

Module FfmpegHelper2.
Import PyStr PyFloat.

Definition DEFAULT_THREADS : Z := 1.
Definition DEFAULT_PRESEEK_OFFSET : float := 2%float.
Definition DEFAULT_TIMEOUT : Z := 30.
Definition ENV_FLAG_NAME : string := "FFMPEG_OPTIMIZATIONS".
Definition DEFAULT_ENV_FLAG : string := "1".

Section Methods.
Variable w : world.

Definition _env_opt_enabled : bool :=
  let val := match os_getenv w ENV_FLAG_NAME with
             | Some v => v
             | None => DEFAULT_ENV_FLAG
             end in
  negb (String.eqb val "0").

Definition _which (exe_name : string) : option string :=
  shutil_which w exe_name.

Definition _run_cmd (command : list arg) (timeout : Z) : M bool :=
  try_except
    (ret <- subprocess_run w command (Some timeout) true ;;
     if (returncode ret =? 0)%Z then pure true
     else
       print (CmdFailed command) ;;;
       try_except
         (print (CmdStderr (utf8_ignore w (stderr ret))))
         (fun _ => pure tt) ;;;
       pure false)
    (fun e =>
       match e with
       | TimeoutExpired => print (CmdTimeout command) ;;; pure false
       | _ => print (RunException e) ;;; pure false
       end).

Definition get_thumb (video_path image_path : string) (frames : option string)
    (threads : Z) (preseek_offset : float) (timeout : Z)
    (enable_optimizations : option bool) : M bool :=
  let frames := if truthy_opt frames
                then match frames with Some f => f | None => "00:03:01" end
                else "00:03:01" in
  if negb (truthy video_path) || negb (truthy image_path) then pure false
  else
    let enable_optimizations :=
      match enable_optimizations with
      | None => _env_opt_enabled
      | Some b => b
      end in
    if negb (truthy_opt (_which "ffmpeg")) then
      print (NotFound "ffmpeg") ;;; pure false
    else if negb enable_optimizations then
      let cmd := ("ffmpeg -i " ++ dquote ++ video_path ++ dquote
                  ++ " -ss " ++ frames
                  ++ " -vframes 1 -f image2 " ++ dquote ++ image_path ++ dquote)%string in
      result <- SystemUtils_execute w cmd ;;
      pure (truthy result)
    else
      let secs := _time_str_to_seconds frames in
      match secs with
      | None =>
          let command :=
            [Str "ffmpeg"; Str "-hide_banner"; Str "-loglevel"; Str "error";
             Str "-nostdin"; Str "-y";
             Str "-i"; Str video_path;
             Str "-ss"; Str frames;
             Str "-vframes"; Str "1";
             Str "-q:v"; Str "2";
             Str "-threads"; Str (str_of_int threads);
             Str image_path] in
          _run_cmd command timeout
      | Some secs =>
          let preseek_secs := py_max 0%float (secs - preseek_offset)%float in
          let delta := (secs - preseek_secs)%float in
          if (preseek_secs <=? 0)%float || (preseek_offset <=? 0)%float then
            let command :=
              [Str "ffmpeg"; Str "-hide_banner"; Str "-loglevel"; Str "error";
               Str "-nostdin"; Str "-y";
               Str "-i"; Str video_path;
               Str "-ss"; FloatStr secs;
               Str "-vframes"; Str "1";
               Str "-q:v"; Str "2";
               Str "-threads"; Str (str_of_int threads);
               Str image_path] in
            _run_cmd command timeout
          else
            let command :=
              [Str "ffmpeg"; Str "-hide_banner"; Str "-loglevel"; Str "error";
               Str "-nostdin"; Str "-y";
               Str "-ss"; FloatStr preseek_secs;
               Str "-i"; Str video_path;
               Str "-ss"; FloatStr delta;
               Str "-vframes"; Str "1";
               Str "-q:v"; Str "2";
               Str "-threads"; Str (str_of_int threads);
               Str image_path] in
            ok <- _run_cmd command timeout ;;
            if negb ok then
              let fallback :=
                [Str "ffmpeg"; Str "-hide_banner"; Str "-loglevel"; Str "error";
                 Str "-nostdin"; Str "-y";
                 Str "-i"; Str video_path;
                 Str "-ss"; FloatStr secs;
                 Str "-vframes"; Str "1";
                 Str "-q:v"; Str "2";
                 Str "-threads"; Str (str_of_int threads);
                 Str image_path] in
              _run_cmd fallback timeout
            else pure true
      end.

Definition extract_wav (video_path audio_path : string)
    (audio_index : option string) (threads : Z) (timeout : Z)
    (enable_optimizations : option bool) : M bool :=
  if negb (truthy video_path) || negb (truthy audio_path) then pure false
  else if negb (truthy_opt (_which "ffmpeg")) then
    print (NotFound "ffmpeg") ;;; pure false
  else
    let enable_optimizations :=
      match enable_optimizations with
      | None => _env_opt_enabled
      | Some b => b
      end in
    if negb enable_optimizations then
      let command :=
        if truthy_opt audio_index then
          [Str "ffmpeg"; Str "-hide_banner"; Str "-loglevel"; Str "warning";
           Str "-y"; Str "-i"; Str video_path;
           Str "-map";
           Str ("0:a:" ++ match audio_index with Some i => i | None => "" end)%string;
           Str "-acodec"; Str "pcm_s16le"; Str "-ac"; Str "1";
           Str "-ar"; Str "16000"; Str audio_path]
        else
          [Str "ffmpeg"; Str "-hide_banner"; Str "-loglevel"; Str "warning";
           Str "-y"; Str "-i"; Str video_path;
           Str "-acodec"; Str "pcm_s16le"; Str "-ac"; Str "1";
           Str "-ar"; Str "16000"; Str audio_path] in
      ret <- subprocess_run w command None false ;;
      pure (returncode ret =? 0)%Z
    else
      let base :=
        [Str "ffmpeg"; Str "-hide_banner"; Str "-loglevel"; Str "error";
         Str "-nostdin"; Str "-y"; Str "-i"; Str video_path; Str "-vn"] in
      let base :=
        match audio_index with
        | Some i => base ++ [Str "-map"; Str ("0:a:" ++ i)%string]
        | None => base
        end in
      let base :=
        base ++ [Str "-acodec"; Str "pcm_s16le"; Str "-ac"; Str "1";
                 Str "-ar"; Str "16000";
                 Str "-threads"; Str (str_of_int threads); Str audio_path] in
      _run_cmd base timeout.

Definition get_metadata (video_path : string) (timeout : Z) : M json :=
  if negb (truthy video_path) then pure py_None
  else if negb (truthy_opt (_which "ffprobe")) then
    print (NotFound "ffprobe") ;;; pure py_None
  else
    r <- try_except
           (let command :=
              [Str "ffprobe"; Str "-v"; Str "quiet"; Str "-print_format";
               Str "json"; Str "-show_format"; Str "-show_streams";
               Str video_path] in
            ret <- subprocess_run w command (Some timeout) true ;;
            if (returncode ret =? 0)%Z then
              v <- json_loads w (utf8_ignore w (stdout ret)) ;;
              pure (Some v)
            else pure None)
           (fun e =>
              match e with
              | TimeoutExpired => print ProbeTimeout ;;; pure None
              | _ => print (ProbeException e) ;;; pure None
              end) ;;
    match r with
    | Some v => pure v
    | None => pure py_None
    end.

Definition extract_subtitle (video_path subtitle_path : string)
    (subtitle_index : option string) (threads : Z) (timeout : Z)
    (enable_optimizations : option bool) : M bool :=
  if negb (truthy video_path) || negb (truthy subtitle_path) then pure false
  else if negb (truthy_opt (_which "ffmpeg")) then
    print (NotFound "ffmpeg") ;;; pure false
  else
    let enable_optimizations :=
      match enable_optimizations with
      | None => _env_opt_enabled
      | Some b => b
      end in
    if negb enable_optimizations then
      let command :=
        if truthy_opt subtitle_index then
          [Str "ffmpeg"; Str "-hide_banner"; Str "-loglevel"; Str "warning";
           Str "-y"; Str "-i"; Str video_path;
           Str "-map";
           Str ("0:s:" ++ match subtitle_index with Some i => i | None => "" end)%string;
           Str subtitle_path]
        else
          [Str "ffmpeg"; Str "-hide_banner"; Str "-loglevel"; Str "warning";
           Str "-y"; Str "-i"; Str video_path; Str subtitle_path] in
      ret <- subprocess_run w command None false ;;
      pure (returncode ret =? 0)%Z
    else
      let command :=
        match subtitle_index with
        | Some i =>
            [Str "ffmpeg"; Str "-hide_banner"; Str "-loglevel"; Str "error";
             Str "-nostdin"; Str "-y";
             Str "-i"; Str video_path;
             Str "-map"; Str ("0:s:" ++ i)%string;
             Str "-c:s"; Str "copy";
             Str "-threads"; Str (str_of_int threads);
             Str subtitle_path]
        | None =>
            [Str "ffmpeg"; Str "-hide_banner"; Str "-loglevel"; Str "error";
             Str "-nostdin"; Str "-y";
             Str "-i"; Str video_path;
             Str "-c:s"; Str "copy";
             Str "-threads"; Str (str_of_int threads);
             Str subtitle_path]
        end in
      _run_cmd command timeout.

End Methods.
End FfmpegHelper2.

(** ** [FfmpegHelper] (plugins.v2/ffmpegthumbfree/ffmpeg_helper.py) *)

Module FfmpegHelper.
Import PyStr PyFloat.

Definition DEFAULT_THREADS : Z := 1.
Definition DEFAULT_PRESEEK_OFFSET : float := 2%float.
Definition DEFAULT_TIMEOUT : Z := 30.

Section Methods.
Variable w : world.

Definition _which (exe_name : string) : option string :=
  shutil_which w exe_name.

Definition _run_cmd (command : list arg) (timeout : Z) : M bool :=
  try_except
    (ret <- subprocess_run w command (Some timeout) true ;;
     if (returncode ret =? 0)%Z then pure true
     else
       print (CmdFailed command) ;;;
       try_except
         (print (CmdStderr (utf8_ignore w (stderr ret))))
         (fun _ => pure tt) ;;;
       pure false)
    (fun e =>
       match e with
       | TimeoutExpired => print (CmdTimeout command) ;;; pure false
       | _ => print (RunException e) ;;; pure false
       end).

Definition get_thumb (video_path image_path : string) (frames : option string)
    (threads : Z) (preseek_offset : float) (timeout : Z) : M bool :=
  let frames := if truthy_opt frames
                then match frames with Some f => f | None => "00:03:01" end
                else "00:03:01" in
  if negb (truthy video_path) || negb (truthy image_path) then pure false
  else if negb (truthy_opt (_which "ffmpeg")) then
    print (NotFound "ffmpeg") ;;; pure false
  else
    let secs := _time_str_to_seconds frames in
    match secs with
    | None =>
        let command :=
          [Str "ffmpeg"; Str "-hide_banner"; Str "-loglevel"; Str "error";
           Str "-nostdin"; Str "-y";
           Str "-i"; Str video_path;
           Str "-ss"; Str frames;
           Str "-vframes"; Str "1";
           Str "-q:v"; Str "2";
           Str "-threads"; Str (str_of_int threads);
           Str image_path] in
        _run_cmd command timeout
    | Some secs =>
        let preseek_secs := py_max 0%float (secs - preseek_offset)%float in
        let delta := (secs - preseek_secs)%float in
        if (preseek_secs <=? 0)%float || (preseek_offset <=? 0)%float then
          let command :=
            [Str "ffmpeg"; Str "-hide_banner"; Str "-loglevel"; Str "error";
             Str "-nostdin"; Str "-y";
             Str "-i"; Str video_path;
             Str "-ss"; FloatStr secs;
             Str "-vframes"; Str "1";
             Str "-q:v"; Str "2";
             Str "-threads"; Str (str_of_int threads);
             Str image_path] in
          _run_cmd command timeout
        else
          let command :=
            [Str "ffmpeg"; Str "-hide_banner"; Str "-loglevel"; Str "error";
             Str "-nostdin"; Str "-y";
             Str "-ss"; FloatStr preseek_secs;
             Str "-i"; Str video_path;
             Str "-ss"; FloatStr delta;
             Str "-vframes"; Str "1";
             Str "-q:v"; Str "2";
             Str "-threads"; Str (str_of_int threads);
             Str image_path] in
          ok <- _run_cmd command timeout ;;
          if negb ok then
            let fallback :=
              [Str "ffmpeg"; Str "-hide_banner"; Str "-loglevel"; Str "error";
               Str "-nostdin"; Str "-y";
               Str "-i"; Str video_path;
               Str "-ss"; FloatStr secs;
               Str "-vframes"; Str "1";
               Str "-q:v"; Str "2";
               Str "-threads"; Str (str_of_int threads);
               Str image_path] in
            _run_cmd fallback timeout
          else pure true
    end.

Definition extract_wav (video_path audio_path : string)
    (audio_index : option string) (threads : Z) (timeout : Z) : M bool :=
  if negb (truthy video_path) || negb (truthy audio_path) then pure false
  else if negb (truthy_opt (_which "ffmpeg")) then
    print (NotFound "ffmpeg") ;;; pure false
  else
    let base :=
      [Str "ffmpeg"; Str "-hide_banner"; Str "-loglevel"; Str "error";
       Str "-nostdin"; Str "-y"; Str "-i"; Str video_path; Str "-vn"] in
    let base :=
      match audio_index with
      | Some i => base ++ [Str "-map"; Str ("0:a:" ++ i)%string]
      | None => base
      end in
    let base :=
      base ++ [Str "-acodec"; Str "pcm_s16le"; Str "-ac"; Str "1";
               Str "-ar"; Str "16000";
               Str "-threads"; Str (str_of_int threads); Str audio_path] in
    _run_cmd base timeout.

Definition get_metadata (video_path : string) (timeout : Z) : M json :=
  if negb (truthy video_path) then pure py_None
  else if negb (truthy_opt (_which "ffprobe")) then
    print (NotFound "ffprobe") ;;; pure py_None
  else
    r <- try_except
           (let command :=
              [Str "ffprobe"; Str "-v"; Str "quiet"; Str "-print_format";
               Str "json"; Str "-show_format"; Str "-show_streams";
               Str video_path] in
            ret <- subprocess_run w command (Some timeout) true ;;
            if (returncode ret =? 0)%Z then
              v <- json_loads w (utf8_ignore w (stdout ret)) ;;
              pure (Some v)
            else pure None)
           (fun e =>
              match e with
              | TimeoutExpired => print ProbeTimeout ;;; pure None
              | _ => print (ProbeException e) ;;; pure None
              end) ;;
    match r with
    | Some v => pure v
    | None => pure py_None
    end.

Definition extract_subtitle (video_path subtitle_path : string)
    (subtitle_index : option string) (threads : Z) (timeout : Z) : M bool :=
  if negb (truthy video_path) || negb (truthy subtitle_path) then pure false
  else if negb (truthy_opt (_which "ffmpeg")) then
    print (NotFound "ffmpeg") ;;; pure false
  else
    let command :=
      match subtitle_index with
      | Some i =>
          [Str "ffmpeg"; Str "-hide_banner"; Str "-loglevel"; Str "error";
           Str "-nostdin"; Str "-y";
           Str "-i"; Str video_path;
           Str "-map"; Str ("0:s:" ++ i)%string;
           Str "-c:s"; Str "copy";
           Str "-threads"; Str (str_of_int threads);
           Str subtitle_path]
      | None =>
          [Str "ffmpeg"; Str "-hide_banner"; Str "-loglevel"; Str "error";
           Str "-nostdin"; Str "-y";
           Str "-i"; Str video_path;
           Str "-c:s"; Str "copy";
           Str "-threads"; Str (str_of_int threads);
           Str subtitle_path]
      end in
    _run_cmd command timeout.

End Methods.
End FfmpegHelper.

(** ** Vocabulary of the properties *)

(** The two command shapes of the thumbnail algorithm, with the thumbnail
    flags of the optimized path: a single seek after the input, or a coarse
    seek before the input followed by a fine seek after it. *)
Inductive plan :=
| PreciseSeek (seek : arg)
| TwoStage (coarse fine : arg).

Definition plan_command (video_path image_path : string) (threads : Z)
    (p : plan) : list arg :=
  match p with
  | PreciseSeek seek =>
      [Str "ffmpeg"; Str "-hide_banner"; Str "-loglevel"; Str "error";
       Str "-nostdin"; Str "-y"]
      ++ [Str "-i"; Str video_path] ++ [Str "-ss"; seek]
      ++ [Str "-vframes"; Str "1"; Str "-q:v"; Str "2";
          Str "-threads"; Str (PyStr.str_of_int threads); Str image_path]
  | TwoStage coarse fine =>
      [Str "ffmpeg"; Str "-hide_banner"; Str "-loglevel"; Str "error";
       Str "-nostdin"; Str "-y"]
      ++ [Str "-ss"; coarse] ++ [Str "-i"; Str video_path] ++ [Str "-ss"; fine]
      ++ [Str "-vframes"; Str "1"; Str "-q:v"; Str "2";
          Str "-threads"; Str (PyStr.str_of_int threads); Str image_path]
  end.

(** The command line of the legacy path: one seek, after the input, given as
    the timestamp text itself. *)
Definition legacy_command (video_path frames image_path : string) : string :=
  ("ffmpeg -i " ++ PyStr.dquote ++ video_path ++ PyStr.dquote
   ++ " -ss " ++ frames ++ " -vframes 1 -f image2 "
   ++ PyStr.dquote ++ image_path ++ PyStr.dquote)%string.

(** The timestamp a call works with: the default when none is given. *)
Definition effective_frames (frames : option string) : string :=
  match frames with
  | Some (String c s) => String c s
  | _ => "00:03:01"
  end.

(** The optimization switch a call of [FfmpegHelper2] works with. *)
Definition effective_switch (w : world) (enable_optimizations : option bool)
    : bool :=
  match enable_optimizations with
  | Some b => b
  | None => FfmpegHelper2._env_opt_enabled w
  end.

(** A child process succeeded: it exited, with code 0, within the timeout. *)
Definition succeeded (o : outcome) : bool :=
  match o with
  | Completed ret => (returncode ret =? 0)%Z
  | Raises _ => false
  end.

(** What the process runner prints for an outcome. *)
Definition diagnosis (w : world) (command : list arg) (o : outcome)
    : list diagnostic :=
  match o with
  | Completed ret =>
      if (returncode ret =? 0)%Z then []
      else [CmdFailed command; CmdStderr (utf8_ignore w (stderr ret))]
  | Raises TimeoutExpired => [CmdTimeout command]
  | Raises e => [RunException e]
  end.

(** The trace after one call of the process runner. *)
Definition after_run (w : world) (tr : trace) (command : list arg)
    (timeout : Z) : trace :=
  tr ++ Run command (Some timeout) true
     :: map Print (diagnosis w command (process w tr command (Some timeout))).

(** A seek argument that is a number, and not below zero. *)
Definition nonneg_seek (a : arg) : Prop :=
  match a with
  | FloatStr x => (0 <=? x)%float = true
  | Str _ => False
  end.

Definition plan_seeks (p : plan) : list arg :=
  match p with
  | PreciseSeek seek => [seek]
  | TwoStage coarse fine => [coarse; fine]
  end.

(** Worlds to run the model in: [ffmpeg] and [ffprobe] are on the search path
    or not, the environment holds one value for every name or none, and every
    child process has the same outcome. *)
Definition fixed_world (found : bool) (env : option string) (o : outcome)
    (decoded : json + exn) : world :=
  {| shutil_which := fun exe =>
       if found then Some ("/usr/bin/" ++ exe)%string else None;
     os_getenv := fun _ => env;
     process := fun _ _ _ => o;
     shell := fun _ _ => "";
     json_decode := fun _ => decoded;
     utf8_ignore := fun s => s |}.

Definition exit_with (rc : Z) : outcome :=
  Completed {| returncode := rc; stdout := "{}"; stderr := "" |}.

(** A world whose first child process fails and whose later ones succeed. *)
Definition flaky_world : world :=
  {| shutil_which := fun exe => Some ("/usr/bin/" ++ exe)%string;
     os_getenv := fun _ => None;
     process := fun tr _ _ =>
       match spawned tr with
       | [] => exit_with 1
       | _ => exit_with 0
       end;
     shell := fun _ _ => "";
     json_decode := fun _ => inl (JObject []);
     utf8_ignore := fun s => s |}.

(** The guard of the two-stage branch, as the code evaluates it:
    [not (preseek_secs <= 0.0 or preseek_offset <= 0.0)]. *)
Definition two_stage_guard (secs preseek_offset : float) : bool :=
  negb ((PyFloat.py_max 0 (secs - preseek_offset) <=? 0)%float
        || (preseek_offset <=? 0)%float).

(** The command of [get_metadata]. *)
Definition probe_command (video_path : string) : list arg :=
  [Str "ffprobe"; Str "-v"; Str "quiet"; Str "-print_format"; Str "json";
   Str "-show_format"; Str "-show_streams"; Str video_path].

(** The stream selection: [-map 0:<kind>:<index>], or nothing. *)
Definition map_tokens (kind : string) (selected : option string) : list arg :=
  match selected with
  | Some i => [Str "-map"; Str ("0:" ++ kind ++ ":" ++ i)%string]
  | None => []
  end.

(** The four commands of [extract_wav] and [extract_subtitle], by what they
    select. *)
Definition wav_legacy_command (vp out : string) (selected : option string)
    : list arg :=
  [Str "ffmpeg"; Str "-hide_banner"; Str "-loglevel"; Str "warning";
   Str "-y"; Str "-i"; Str vp]
  ++ map_tokens "a" selected
  ++ [Str "-acodec"; Str "pcm_s16le"; Str "-ac"; Str "1";
      Str "-ar"; Str "16000"; Str out].

Definition wav_optimized_command (vp out : string) (threads : Z)
    (selected : option string) : list arg :=
  [Str "ffmpeg"; Str "-hide_banner"; Str "-loglevel"; Str "error";
   Str "-nostdin"; Str "-y"; Str "-i"; Str vp; Str "-vn"]
  ++ map_tokens "a" selected
  ++ [Str "-acodec"; Str "pcm_s16le"; Str "-ac"; Str "1";
      Str "-ar"; Str "16000";
      Str "-threads"; Str (PyStr.str_of_int threads); Str out].

Definition subtitle_legacy_command (vp out : string)
    (selected : option string) : list arg :=
  [Str "ffmpeg"; Str "-hide_banner"; Str "-loglevel"; Str "warning";
   Str "-y"; Str "-i"; Str vp]
  ++ map_tokens "s" selected ++ [Str out].

Definition subtitle_optimized_command (vp out : string) (threads : Z)
    (selected : option string) : list arg :=
  [Str "ffmpeg"; Str "-hide_banner"; Str "-loglevel"; Str "error";
   Str "-nostdin"; Str "-y"; Str "-i"; Str vp]
  ++ map_tokens "s" selected
  ++ [Str "-c:s"; Str "copy";
      Str "-threads"; Str (PyStr.str_of_int threads); Str out].

(** An index as the legacy branch reads it, [if index:]: only a truthy one
    selects. *)
Definition if_truthy (index : option string) : option string :=
  if PyStr.truthy_opt index then index else None.

(** [sep.join(parts)]. *)
Fixpoint join (sep : string) (parts : list string) : string :=
  match parts with
  | [] => EmptyString
  | [p] => p
  | p :: rest => (p ++ sep ++ join sep rest)%string
  end.

(** [c in s] for a character [c]. *)
Fixpoint contains (c : ascii) (s : string) : bool :=
  match s with
  | EmptyString => false
  | String c' s' => Ascii.eqb c' c || contains c s'
  end.

(** One step of the loop [seconds = seconds * 60 + p]. *)
Definition fold_step (total segment : float) : float :=
  (total * 60 + segment)%float.

(** ** Binary64 numbers as integers

    A finite binary64 number is [(-1)^s * m * 2^e] with [-1074 <= e]: a whole
    number of units of [2^-1074]. *)

(** The number of binary digits of a mantissa. *)
Definition digits (m : positive) : Z := Zpos (digits2_pos m).

(** Two mantissa and exponent pairs with the same value [m * 2^e]. *)
Definition same_value (n : positive) (e : Z) (m' : positive) (e' : Z) : Prop :=
  (Zpos n * 2 ^ (e - Z.min e e') = Zpos m' * 2 ^ (e' - Z.min e e'))%Z.

(** The value of a finite binary64 number, in units of [2^-1074]. *)
Definition SFval (x : spec_float) : Z :=
  match x with
  | S754_finite s m e => ((if s then -1 else 1) * (Zpos m * 2 ^ (e + 1074)))%Z
  | _ => 0%Z
  end.

Definition SFfinite (x : spec_float) : bool :=
  match x with
  | S754_finite _ _ _ | S754_zero _ => true
  | _ => false
  end.

Definition signed (s : bool) (v : Z) : Z := if s then (- v)%Z else v.

(** ** More vocabulary *)

(** The options of the calls of [subprocess.run], in order: the timeout, and
    whether the output is captured. *)
Fixpoint run_options (tr : trace) : list (option Z * bool) :=
  match tr with
  | [] => []
  | Run _ timeout piped :: tr' => (timeout, piped) :: run_options tr'
  | _ :: tr' => run_options tr'
  end.

(** A call that fails at once: [False], and a trace that has no new process
    and no new shell command. *)
Definition refused (out : result bool * trace) (tr : trace) : Prop :=
  exists tr', out = (Ok false, tr')
              /\ spawned tr' = spawned tr /\ shelled tr' = shelled tr.

(** What a legacy extraction returns for an outcome of its child: the
    exception, when there is one. *)
Definition unguarded (o : outcome) : result bool :=
  match o with
  | Completed ret => Ok (returncode ret =? 0)%Z
  | Raises e => Raised e
  end.

(** The binary64 number nearest to an integer: [float(n)] for an [int]. *)
Definition Z2F (n : Z) : float :=
  SF2Prim (binary_normalize prec emax n 0 false).

(** A string of decimal digits only. *)
Fixpoint only_digits (s : string) : bool :=
  match s with
  | EmptyString => true
  | String c s' => PyStr.Py_ISDIGIT c && only_digits s'
  end.

(** An unsigned integer literal, as in [HH:MM:SS]: one digit at least, and
    digits only. *)
Definition unsigned_integer (s : string) : bool :=
  PyStr.truthy s && only_digits s.

(** The number that a string of digits writes. *)
Definition integer_value (s : string) : Z :=
  Z.of_N (fst (fst (PyFloat.read_digits 0 0 s))).

(** * Properties *)

Import PyStr PyFloat.

(** *** Traces *)

Lemma spawned_app (a b : trace) : spawned (a ++ b) = spawned a ++ spawned b.
Proof.
  induction a as [| ev a IH]; cbn; [reflexivity |].
  destruct ev; cbn; rewrite IH; reflexivity.
Qed.

Lemma shelled_app (a b : trace) : shelled (a ++ b) = shelled a ++ shelled b.
Proof.
  induction a as [| ev a IH]; cbn; [reflexivity |].
  destruct ev; cbn; rewrite IH; reflexivity.
Qed.

Lemma spawned_prints (ds : list diagnostic) : spawned (map Print ds) = [].
Proof. induction ds; cbn; auto. Qed.

Lemma shelled_prints (ds : list diagnostic) : shelled (map Print ds) = [].
Proof. induction ds; cbn; auto. Qed.

Lemma spawned_after_run w tr command timeout :
  spawned (after_run w tr command timeout) = spawned tr ++ [command].
Proof.
  unfold after_run. rewrite spawned_app. cbn. now rewrite spawned_prints.
Qed.

Lemma shelled_after_run w tr command timeout :
  shelled (after_run w tr command timeout) = shelled tr.
Proof.
  unfold after_run. rewrite shelled_app. cbn. rewrite shelled_prints.
  now rewrite app_nil_r.
Qed.

(** *** The process runner *)

Lemma run_cmd_same : FfmpegHelper._run_cmd = FfmpegHelper2._run_cmd.
Proof. reflexivity. Qed.

Lemma run_cmd_eq (w : world) (command : list arg) (timeout : Z) (tr : trace) :
  FfmpegHelper2._run_cmd w command timeout tr
  = (Ok (succeeded (process w tr command (Some timeout))),
     after_run w tr command timeout).
Proof.
  unfold FfmpegHelper2._run_cmd, after_run, try_except, bind, subprocess_run,
    print, emit, pure, succeeded, diagnosis.
  destruct (process w tr command (Some timeout)) as [ret | e].
  - destruct (returncode ret =? 0)%Z; cbn; rewrite <- ?app_assoc; reflexivity.
  - destruct e; cbn; rewrite <- ?app_assoc; reflexivity.
Qed.

Lemma effective_frames_eq (frames : option string) :
  (if truthy_opt frames
   then match frames with Some f => f | None => "00:03:01" end
   else "00:03:01") = effective_frames frames.
Proof. destruct frames as [[| c s] |]; reflexivity. Qed.

(** C8. The process runner never raises. For every command and timeout it
    returns a boolean: [True] exactly when the child exited with code 0 (a
    child that runs out of time raises [TimeoutExpired]), [False] on a
    non-zero exit, on a timeout and on any other exception, and then a
    diagnostic has been printed. Both classes have the same runner. *)
Theorem run_cmd_total :
  forall (w : world) (command : list arg) (timeout : Z) (tr : trace),
    let o := process w tr command (Some timeout) in
    FfmpegHelper2._run_cmd w command timeout tr
      = (Ok (succeeded o), after_run w tr command timeout)
    /\ FfmpegHelper._run_cmd w command timeout tr
      = (Ok (succeeded o), after_run w tr command timeout)
    /\ (succeeded o = true <->
        exists ret, o = Completed ret /\ returncode ret = 0%Z)
    /\ (succeeded o = false ->
        exists d, In d (diagnosis w command o)
                  /\ In (Print d) (after_run w tr command timeout)).
Proof.
  intros w command timeout tr o.
  split; [apply run_cmd_eq |].
  split; [rewrite run_cmd_same; apply run_cmd_eq |].
  split.
  - unfold succeeded. destruct o as [ret | e].
    + rewrite Z.eqb_eq. split.
      * intros H. exists ret. auto.
      * intros [ret' [E H]]. inversion E. subst. exact H.
    + split; [discriminate | intros [ret [E _]]; discriminate].
  - intros Hf.
    assert (Hd : exists d, In d (diagnosis w command o)).
    { unfold succeeded in Hf. unfold diagnosis. destruct o as [ret | e].
      - rewrite Hf. eexists. left. reflexivity.
      - destruct e; eexists; left; reflexivity. }
    destruct Hd as [d Hd]. exists d. split; [exact Hd |].
    unfold after_run. apply in_or_app. right. right.
    apply in_map. exact Hd.
Qed.

(** *** The thumbnail: what each branch does *)

Lemma thumb2_refused w vp ip frames threads o timeout eo tr :
  truthy vp = false \/ truthy ip = false ->
  FfmpegHelper2.get_thumb w vp ip frames threads o timeout eo tr = (Ok false, tr).
Proof.
  intros H. unfold FfmpegHelper2.get_thumb.
  destruct H as [H | H]; rewrite H; cbn; [| rewrite orb_true_r]; reflexivity.
Qed.

Lemma thumb2_not_found w vp ip frames threads o timeout eo tr :
  truthy vp = true -> truthy ip = true ->
  truthy_opt (shutil_which w "ffmpeg") = false ->
  FfmpegHelper2.get_thumb w vp ip frames threads o timeout eo tr
  = (Ok false, tr ++ [Print (NotFound "ffmpeg")]).
Proof.
  intros Hv Hi Hw. unfold FfmpegHelper2.get_thumb, FfmpegHelper2._which.
  rewrite Hv, Hi, Hw. reflexivity.
Qed.

Lemma thumb2_legacy w vp ip frames threads o timeout eo tr :
  truthy vp = true -> truthy ip = true ->
  truthy_opt (shutil_which w "ffmpeg") = true ->
  effective_switch w eo = false ->
  FfmpegHelper2.get_thumb w vp ip frames threads o timeout eo tr
  = (Ok (truthy (shell w tr (legacy_command vp (effective_frames frames) ip))),
     tr ++ [Shell (legacy_command vp (effective_frames frames) ip)]).
Proof.
  intros Hv Hi Hw Hs. unfold FfmpegHelper2.get_thumb, FfmpegHelper2._which.
  rewrite Hv, Hi, Hw, effective_frames_eq. fold (effective_switch w eo).
  rewrite Hs. reflexivity.
Qed.

Lemma thumb2_unparsed w vp ip frames threads o timeout eo tr :
  truthy vp = true -> truthy ip = true ->
  truthy_opt (shutil_which w "ffmpeg") = true ->
  effective_switch w eo = true ->
  _time_str_to_seconds (effective_frames frames) = None ->
  FfmpegHelper2.get_thumb w vp ip frames threads o timeout eo tr
  = FfmpegHelper2._run_cmd w
      (plan_command vp ip threads (PreciseSeek (Str (effective_frames frames))))
      timeout tr.
Proof.
  intros Hv Hi Hw Hs Hp. unfold FfmpegHelper2.get_thumb, FfmpegHelper2._which.
  rewrite Hv, Hi, Hw, effective_frames_eq. fold (effective_switch w eo).
  rewrite Hs, Hp. reflexivity.
Qed.

Lemma thumb2_single w vp ip frames threads o timeout eo tr secs :
  truthy vp = true -> truthy ip = true ->
  truthy_opt (shutil_which w "ffmpeg") = true ->
  effective_switch w eo = true ->
  _time_str_to_seconds (effective_frames frames) = Some secs ->
  two_stage_guard secs o = false ->
  FfmpegHelper2.get_thumb w vp ip frames threads o timeout eo tr
  = FfmpegHelper2._run_cmd w
      (plan_command vp ip threads (PreciseSeek (FloatStr secs))) timeout tr.
Proof.
  intros Hv Hi Hw Hs Hp Hg. unfold FfmpegHelper2.get_thumb, FfmpegHelper2._which.
  rewrite Hv, Hi, Hw, effective_frames_eq. fold (effective_switch w eo).
  rewrite Hs, Hp. cbn -[plan_command FfmpegHelper2._run_cmd].
  apply negb_false_iff in Hg. rewrite Hg. reflexivity.
Qed.

Lemma thumb2_two_stage w vp ip frames threads o timeout eo tr secs :
  truthy vp = true -> truthy ip = true ->
  truthy_opt (shutil_which w "ffmpeg") = true ->
  effective_switch w eo = true ->
  _time_str_to_seconds (effective_frames frames) = Some secs ->
  two_stage_guard secs o = true ->
  let coarse := py_max 0 (secs - o) in
  let two := plan_command vp ip threads
               (TwoStage (FloatStr coarse) (FloatStr (secs - coarse))) in
  let fb := plan_command vp ip threads (PreciseSeek (FloatStr secs)) in
  let tr1 := after_run w tr two timeout in
  FfmpegHelper2.get_thumb w vp ip frames threads o timeout eo tr
  = if succeeded (process w tr two (Some timeout))
    then (Ok true, tr1)
    else (Ok (succeeded (process w tr1 fb (Some timeout))),
          after_run w tr1 fb timeout).
Proof.
  intros Hv Hi Hw Hs Hp Hg coarse two fb tr1.
  unfold FfmpegHelper2.get_thumb, FfmpegHelper2._which.
  rewrite Hv, Hi, Hw, effective_frames_eq. fold (effective_switch w eo).
  rewrite Hs, Hp. cbn -[plan_command FfmpegHelper2._run_cmd].
  apply negb_true_iff in Hg. rewrite Hg.
  unfold bind. fold coarse.
  change (FfmpegHelper2._run_cmd w _ timeout tr)
    with (FfmpegHelper2._run_cmd w two timeout tr).
  rewrite run_cmd_eq. fold tr1.
  destruct (succeeded (process w tr two (Some timeout)));
    cbn -[plan_command FfmpegHelper2._run_cmd].
  - reflexivity.
  - change (FfmpegHelper2._run_cmd w _ timeout tr1)
      with (FfmpegHelper2._run_cmd w fb timeout tr1).
    apply run_cmd_eq.
Qed.

(** With the switch on, [FfmpegHelper2.get_thumb] is [FfmpegHelper.get_thumb]. *)
Lemma thumb_free_is_thumb2 w vp ip frames threads o timeout eo tr :
  effective_switch w eo = true ->
  FfmpegHelper.get_thumb w vp ip frames threads o timeout tr
  = FfmpegHelper2.get_thumb w vp ip frames threads o timeout eo tr.
Proof.
  intros Hs. unfold FfmpegHelper.get_thumb, FfmpegHelper2.get_thumb.
  fold (effective_switch w eo). rewrite Hs.
  destruct (negb (truthy vp) || negb (truthy ip)); [reflexivity |].
  reflexivity.
Qed.

(** C1. In the optimized path of [get_thumb], when the two-stage plan is
    taken: if the two-stage command succeeds, the call returns [True] and
    that command is the only one run; if it fails (a non-zero exit, a timeout
    or a launch error, that is [succeeded] is [false]) the fallback, the
    single precise seek at the parsed seconds, is run after it, once, and
    what it returns is what the call returns. Both classes do the same. *)
Theorem thumb_fallback_once :
  forall (w : world) (vp ip : string) (frames : option string)
         (threads : Z) (o : float) (timeout : Z) (tr : trace) (secs : float)
         (eo : option bool),
    truthy vp = true -> truthy ip = true ->
    truthy_opt (shutil_which w "ffmpeg") = true ->
    effective_switch w eo = true ->
    _time_str_to_seconds (effective_frames frames) = Some secs ->
    two_stage_guard secs o = true ->
    let coarse := py_max 0 (secs - o) in
    let two := plan_command vp ip threads
                 (TwoStage (FloatStr coarse) (FloatStr (secs - coarse))) in
    let fallback := plan_command vp ip threads (PreciseSeek (FloatStr secs)) in
    let tr1 := after_run w tr two timeout in
    let tr2 := after_run w tr1 fallback timeout in
    FfmpegHelper.get_thumb w vp ip frames threads o timeout tr
      = FfmpegHelper2.get_thumb w vp ip frames threads o timeout eo tr
    /\ (succeeded (process w tr two (Some timeout)) = true ->
        FfmpegHelper2.get_thumb w vp ip frames threads o timeout eo tr
          = (Ok true, tr1)
        /\ spawned tr1 = spawned tr ++ [two])
    /\ (succeeded (process w tr two (Some timeout)) = false ->
        FfmpegHelper2.get_thumb w vp ip frames threads o timeout eo tr
          = FfmpegHelper2._run_cmd w fallback timeout tr1
        /\ FfmpegHelper2._run_cmd w fallback timeout tr1
          = (Ok (succeeded (process w tr1 fallback (Some timeout))), tr2)
        /\ spawned tr2 = spawned tr ++ [two; fallback]).
Proof.
  intros w vp ip frames threads o timeout tr secs eo Hv Hi Hw Hs Hp Hg
    coarse two fallback tr1 tr2.
  split; [apply thumb_free_is_thumb2; exact Hs |].
  rewrite (thumb2_two_stage w vp ip frames threads o timeout eo tr secs)
    by assumption.
  fold coarse two fallback tr1 tr2.
  split; intros Ho; rewrite Ho.
  - split; [reflexivity | apply spawned_after_run].
  - rewrite run_cmd_eq. fold tr2. repeat split.
    unfold tr2, tr1. rewrite !spawned_after_run, <- app_assoc. reflexivity.
Qed.

Lemma thumb_fallback_once_witness :
  let w := flaky_world in
  let two := plan_command "movie.mkv" "thumb.jpg" 1
               (TwoStage (FloatStr 603%float) (FloatStr 2%float)) in
  let fallback := plan_command "movie.mkv" "thumb.jpg" 1
                    (PreciseSeek (FloatStr 605%float)) in
  fst (FfmpegHelper2.get_thumb w "movie.mkv" "thumb.jpg" (Some "00:10:05")
         1 2%float 30 None []) = Ok true
  /\ spawned (snd (FfmpegHelper2.get_thumb w "movie.mkv" "thumb.jpg"
                     (Some "00:10:05") 1 2%float 30 None []))
     = [two; fallback].
Proof.
  intros w two fallback.
  destruct (thumb_fallback_once w "movie.mkv" "thumb.jpg" (Some "00:10:05")
              1 2%float 30 [] 605%float None) as [_ [_ H]];
    try (vm_compute; reflexivity).
  destruct H as [E1 [E2 E3]]; [vm_compute; reflexivity |].
  rewrite E1, E2. split; [vm_compute; reflexivity | exact E3].
Defined.

(** C6. [get_thumb] returns [False], and neither spawns a process nor calls
    the shell, when the video path or the image path is empty and when
    [ffmpeg] is not found on the search path. *)
Theorem thumb_refuses_without_spawning :
  forall (w : world) (vp ip : string) (frames : option string) (threads : Z)
         (o : float) (timeout : Z) (eo : option bool) (tr : trace),
    truthy vp = false \/ truthy ip = false
    \/ truthy_opt (shutil_which w "ffmpeg") = false ->
    (exists tr',
        FfmpegHelper2.get_thumb w vp ip frames threads o timeout eo tr
          = (Ok false, tr')
        /\ spawned tr' = spawned tr /\ shelled tr' = shelled tr)
    /\ (exists tr',
        FfmpegHelper.get_thumb w vp ip frames threads o timeout tr
          = (Ok false, tr')
        /\ spawned tr' = spawned tr /\ shelled tr' = shelled tr).
Proof.
  intros w vp ip frames threads o timeout eo tr H.
  assert (H2 : forall eo', exists tr',
             FfmpegHelper2.get_thumb w vp ip frames threads o timeout eo' tr
               = (Ok false, tr')
             /\ spawned tr' = spawned tr /\ shelled tr' = shelled tr).
  { intros eo'.
    destruct (truthy vp) eqn:Hv; [destruct (truthy ip) eqn:Hi |].
    - destruct H as [H | [H | H]]; try discriminate.
      exists (tr ++ [Print (NotFound "ffmpeg")]).
      rewrite thumb2_not_found by assumption.
      rewrite spawned_app, shelled_app. cbn. rewrite !app_nil_r. auto.
    - exists tr. rewrite thumb2_refused by auto. auto.
    - exists tr. rewrite thumb2_refused by auto. auto. }
  split; [apply H2 |].
  rewrite (thumb_free_is_thumb2 w vp ip frames threads o timeout (Some true))
    by reflexivity.
  apply H2.
Qed.

Lemma thumb_refuses_without_spawning_witness :
  (exists tr',
      FfmpegHelper2.get_thumb (fixed_world false None (exit_with 0) (inl JNull))
        "movie.mkv" "thumb.jpg" None 1 2%float 30 None [] = (Ok false, tr')
      /\ spawned tr' = spawned [] /\ shelled tr' = shelled [])
  /\ (exists tr',
      FfmpegHelper.get_thumb (fixed_world true None (exit_with 0) (inl JNull))
        "" "thumb.jpg" None 1 2%float 30 [] = (Ok false, tr')
      /\ spawned tr' = spawned [] /\ shelled tr' = shelled []).
Proof.
  split.
  - apply (thumb_refuses_without_spawning
             (fixed_world false None (exit_with 0) (inl JNull))
             "movie.mkv" "thumb.jpg" None 1 2%float 30 None []).
    right. right. reflexivity.
  - apply (thumb_refuses_without_spawning
             (fixed_world true None (exit_with 0) (inl JNull))
             "" "thumb.jpg" None 1 2%float 30 None []).
    left. reflexivity.
Defined.

(** C9. With the optimizations off, [FfmpegHelper2.get_thumb] does not
    depend on [threads], [preseek_offset] and [timeout]: two calls that differ
    in these only return the same and leave the same trace, and the command
    line handed to the shell is built from the two paths and the timestamp
    alone. *)
Theorem legacy_thumb_ignores_tuning :
  forall (w : world) (vp ip : string) (frames : option string)
         (eo : option bool) (tr : trace)
         (threads threads' : Z) (o o' : float) (timeout timeout' : Z),
    effective_switch w eo = false ->
    FfmpegHelper2.get_thumb w vp ip frames threads o timeout eo tr
      = FfmpegHelper2.get_thumb w vp ip frames threads' o' timeout' eo tr
    /\ (truthy vp = true -> truthy ip = true ->
        truthy_opt (shutil_which w "ffmpeg") = true ->
        FfmpegHelper2.get_thumb w vp ip frames threads o timeout eo tr
          = (Ok (truthy (shell w tr
                           (legacy_command vp (effective_frames frames) ip))),
             tr ++ [Shell (legacy_command vp (effective_frames frames) ip)])).
Proof.
  intros w vp ip frames eo tr threads threads' o o' timeout timeout' Hs.
  split.
  - destruct (truthy vp) eqn:Hv; [destruct (truthy ip) eqn:Hi |].
    + destruct (truthy_opt (shutil_which w "ffmpeg")) eqn:Hw.
      * rewrite !thumb2_legacy by assumption. reflexivity.
      * rewrite !thumb2_not_found by assumption. reflexivity.
    + rewrite !thumb2_refused by auto. reflexivity.
    + rewrite !thumb2_refused by auto. reflexivity.
  - intros Hv Hi Hw. apply thumb2_legacy; assumption.
Qed.

Lemma legacy_thumb_ignores_tuning_witness :
  FfmpegHelper2.get_thumb (fixed_world true (Some "0") (exit_with 0) (inl JNull))
    "movie.mkv" "thumb.jpg" (Some "00:10:05") 1 2%float 30 None []
  = FfmpegHelper2.get_thumb (fixed_world true (Some "0") (exit_with 0) (inl JNull))
      "movie.mkv" "thumb.jpg" (Some "00:10:05") 8 0%float 5 None [].
Proof.
  destruct (legacy_thumb_ignores_tuning
              (fixed_world true (Some "0") (exit_with 0) (inl JNull))
              "movie.mkv" "thumb.jpg" (Some "00:10:05") None [] 1 8
              2%float 0%float 30 5) as [H _]; [reflexivity | exact H].
Defined.

(** *** Metadata *)

Lemma metadata_same : FfmpegHelper.get_metadata = FfmpegHelper2.get_metadata.
Proof. reflexivity. Qed.

Lemma metadata_eq w vp timeout tr :
  fst (FfmpegHelper2.get_metadata w vp timeout tr)
  = Ok (if truthy vp && truthy_opt (shutil_which w "ffprobe") then
          match process w tr (probe_command vp) (Some timeout) with
          | Completed ret =>
              if (returncode ret =? 0)%Z then
                match json_decode w (utf8_ignore w (stdout ret)) with
                | inl v => v
                | inr _ => py_None
                end
              else py_None
          | Raises _ => py_None
          end
        else py_None).
Proof.
  unfold FfmpegHelper2.get_metadata, FfmpegHelper2._which.
  destruct (truthy vp); [| reflexivity].
  destruct (truthy_opt (shutil_which w "ffprobe")); [| reflexivity].
  cbn -[probe_command].
  unfold bind, try_except, subprocess_run, json_loads, print, emit, pure.
  fold (probe_command vp).
  destruct (process w tr (probe_command vp) (Some timeout)) as [ret | e].
  - destruct (returncode ret =? 0)%Z; [| reflexivity].
    destruct (json_decode w (utf8_ignore w (stdout ret))) as [v | e].
    + reflexivity.
    + destruct e; reflexivity.
  - destruct e; reflexivity.
Qed.

Ltac metadata_cases :=
  repeat split; intros;
  repeat match goal with
         | H : Completed _ = Completed _ |- _ => inversion H; clear H; subst
         end;
  try reflexivity; try discriminate; try contradiction; try congruence.

(** C7. [get_metadata] never raises. It returns [None] when the path is
    empty, when [ffprobe] is not found, when the child exits with a code
    other than 0, when running it raises (a timeout, or any other exception)
    and when its output does not decode; it returns the decoded JSON when the
    child exits with code 0 and its output decodes, and a result other than
    [None] comes from that case only. Both classes have the same function. *)
Theorem get_metadata_none_on_failure :
  forall (w : world) (vp : string) (timeout : Z) (tr : trace),
    FfmpegHelper.get_metadata w vp timeout tr
      = FfmpegHelper2.get_metadata w vp timeout tr
    /\ exists v : json,
        fst (FfmpegHelper2.get_metadata w vp timeout tr) = Ok v
        /\ (truthy vp = false -> v = py_None)
        /\ (truthy_opt (shutil_which w "ffprobe") = false -> v = py_None)
        /\ (forall ret,
              process w tr (probe_command vp) (Some timeout) = Completed ret ->
              returncode ret <> 0%Z -> v = py_None)
        /\ (forall e,
              process w tr (probe_command vp) (Some timeout) = Raises e ->
              v = py_None)
        /\ (forall ret e,
              process w tr (probe_command vp) (Some timeout) = Completed ret ->
              json_decode w (utf8_ignore w (stdout ret)) = inr e ->
              v = py_None)
        /\ (forall ret j,
              truthy vp = true ->
              truthy_opt (shutil_which w "ffprobe") = true ->
              process w tr (probe_command vp) (Some timeout) = Completed ret ->
              returncode ret = 0%Z ->
              json_decode w (utf8_ignore w (stdout ret)) = inl j ->
              v = j)
        /\ (v <> py_None ->
            exists ret,
              truthy vp = true
              /\ truthy_opt (shutil_which w "ffprobe") = true
              /\ process w tr (probe_command vp) (Some timeout) = Completed ret
              /\ returncode ret = 0%Z
              /\ json_decode w (utf8_ignore w (stdout ret)) = inl v).
Proof.
  intros w vp timeout tr. split; [reflexivity |].
  eexists. split; [apply metadata_eq |].
  destruct (truthy vp) eqn:Hv; cbn [andb]; [| metadata_cases].
  destruct (truthy_opt (shutil_which w "ffprobe")) eqn:Hw; [| metadata_cases].
  destruct (process w tr (probe_command vp) (Some timeout)) as [ret | e] eqn:Hp;
    [| metadata_cases].
  destruct (returncode ret =? 0)%Z eqn:Hrc;
    [apply Z.eqb_eq in Hrc | apply Z.eqb_neq in Hrc; metadata_cases].
  destruct (json_decode w (utf8_ignore w (stdout ret))) as [j | e] eqn:Hj;
    metadata_cases.
  exists ret. auto.
Qed.

(** *** Stream selection *)

(** C10. In [FfmpegHelper2.extract_wav] and [FfmpegHelper2.extract_subtitle]
    the branch without optimizations selects a stream, with [-map], only when
    the index is truthy, and the optimized branch whenever the index is not
    [None]. For the index [""] the first command has no [-map] and the second
    one has [-map 0:a:] (or [-map 0:s:]). *)
Theorem stream_selection_truthy_vs_not_none :
  forall (w : world) (vp out : string) (index : option string)
         (threads : Z) (timeout : Z) (eo : option bool) (tr : trace),
    truthy vp = true -> truthy out = true ->
    truthy_opt (shutil_which w "ffmpeg") = true ->
    (effective_switch w eo = false ->
       spawned (snd (FfmpegHelper2.extract_wav w vp out index threads timeout
                       eo tr))
         = spawned tr ++ [wav_legacy_command vp out (if_truthy index)]
       /\ spawned (snd (FfmpegHelper2.extract_subtitle w vp out index threads
                          timeout eo tr))
         = spawned tr ++ [subtitle_legacy_command vp out (if_truthy index)])
    /\ (effective_switch w eo = true ->
       spawned (snd (FfmpegHelper2.extract_wav w vp out index threads timeout
                       eo tr))
         = spawned tr ++ [wav_optimized_command vp out threads index]
       /\ spawned (snd (FfmpegHelper2.extract_subtitle w vp out index threads
                          timeout eo tr))
         = spawned tr ++ [subtitle_optimized_command vp out threads index])
    /\ (forall kind,
          map_tokens kind (if_truthy index) <> [] <-> truthy_opt index = true)
    /\ (forall kind, map_tokens kind index <> [] <-> index <> None)
    /\ if_truthy (Some "") = None
    /\ map_tokens "a" (if_truthy (Some "")) = []
    /\ map_tokens "a" (Some "") = [Str "-map"; Str "0:a:"]
    /\ map_tokens "s" (if_truthy (Some "")) = []
    /\ map_tokens "s" (Some "") = [Str "-map"; Str "0:s:"].
Proof.
  intros w vp out index threads timeout eo tr Hv Ho Hw.
  unfold FfmpegHelper2.extract_wav, FfmpegHelper2.extract_subtitle,
    FfmpegHelper2._which.
  rewrite Hv, Ho, Hw. cbn [negb orb]. fold (effective_switch w eo).
  split; [| split; [| split; [| split]]].
  - intros Hs. rewrite Hs. cbn [negb].
    unfold bind, subprocess_run, pure, if_truthy.
    split;
      (destruct index as [[| c i] |]; cbn [truthy_opt truthy];
       match goal with
       | |- context [process w tr ?c None] => destruct (process w tr c None)
       end; cbn [snd]; rewrite spawned_app; reflexivity).
  - intros Hs. rewrite Hs. cbn [negb].
    split;
      (destruct index as [i |]; rewrite run_cmd_eq; cbn [snd];
       rewrite spawned_after_run; reflexivity).
  - intros kind. unfold if_truthy.
    destruct index as [[| c i] |]; cbn; split; congruence.
  - intros kind. destruct index as [i |]; cbn; split; congruence.
  - repeat split.
Qed.

Lemma stream_selection_truthy_vs_not_none_witness :
  spawned (snd (FfmpegHelper2.extract_wav
                  (fixed_world true None (exit_with 0) (inl JNull))
                  "movie.mkv" "audio.wav" (Some "") 1 30 (Some false) []))
    = [wav_legacy_command "movie.mkv" "audio.wav" None]
  /\ spawned (snd (FfmpegHelper2.extract_wav
                     (fixed_world true None (exit_with 0) (inl JNull))
                     "movie.mkv" "audio.wav" (Some "") 1 30 (Some true) []))
    = [wav_optimized_command "movie.mkv" "audio.wav" 1 (Some "")].
Proof.
  pose proof (stream_selection_truthy_vs_not_none
                (fixed_world true None (exit_with 0) (inl JNull))
                "movie.mkv" "audio.wav" (Some "") 1 30 (Some false) []
                eq_refl eq_refl eq_refl) as [H1 _].
  pose proof (stream_selection_truthy_vs_not_none
                (fixed_world true None (exit_with 0) (inl JNull))
                "movie.mkv" "audio.wav" (Some "") 1 30 (Some true) []
                eq_refl eq_refl eq_refl) as [_ [H2 _]].
  split; [exact (proj1 (H1 eq_refl)) | exact (proj1 (H2 eq_refl))].
Defined.

(** *** The timestamp parser *)

Lemma split_nonempty sep s : split sep s <> [].
Proof.
  destruct s as [| c s]; cbn; [discriminate |].
  destruct (Ascii.eqb c sep); [discriminate |].
  destruct (split sep s); discriminate.
Qed.

Lemma join_cons (sep p : string) (rest : list string) :
  rest <> [] -> join sep (p :: rest) = (p ++ sep ++ join sep rest)%string.
Proof. destruct rest; [contradiction | reflexivity]. Qed.

Lemma join_split (sep : ascii) (s : string) :
  join (String sep "") (split sep s) = s.
Proof.
  induction s as [| c s IH]; [reflexivity |].
  pose proof (split_nonempty sep s) as Hne.
  cbn [split]. destruct (Ascii.eqb c sep) eqn:E.
  - apply Ascii.eqb_eq in E. subst c.
    rewrite join_cons by assumption. rewrite IH. reflexivity.
  - destruct (split sep s) as [| h t]; [contradiction |].
    destruct t as [| h' t'].
    + cbn [join] in *. now rewrite IH.
    + rewrite join_cons by discriminate.
      rewrite join_cons in IH by discriminate.
      cbn [append] in *. f_equal. exact IH.
Qed.

Lemma split_no_sep (sep : ascii) (s : string) :
  Forall (fun p => contains sep p = false) (split sep s).
Proof.
  induction s as [| c s IH]; [repeat constructor |].
  cbn [split]. destruct (Ascii.eqb c sep) eqn:E.
  - constructor; [reflexivity | exact IH].
  - destruct (split sep s) as [| h t]; [repeat constructor; cbn; now rewrite E |].
    inversion IH; subst. constructor; [cbn; now rewrite E | assumption].
Qed.

Lemma floats_of_parts_some (parts : list string) (xs : list float) :
  floats_of_parts parts = Some xs <->
  Forall2 (fun p x => py_float p = Some x) parts xs.
Proof.
  revert xs. induction parts as [| p parts IH]; intros xs; cbn.
  - split; [intros H; inversion H; constructor | intros H; inversion H; reflexivity].
  - destruct (py_float p) as [x |] eqn:Ep.
    + destruct (floats_of_parts parts) as [ys |] eqn:Er.
      * split.
        -- intros H. inversion H; subst. constructor; [exact Ep |].
           apply IH. reflexivity.
        -- intros H. inversion H; subst.
           match goal with H : Forall2 _ parts _ |- _ => apply IH in H; inversion H end.
           congruence.
      * split; [discriminate |].
        intros H. inversion H; subst.
        match goal with H : Forall2 _ parts _ |- _ => apply IH in H; discriminate end.
    + split; [discriminate |]. intros H. inversion H; subst. congruence.
Qed.

Lemma floats_of_parts_none (parts : list string) :
  floats_of_parts parts = None <-> Exists (fun p => py_float p = None) parts.
Proof.
  induction parts as [| p parts IH]; cbn.
  - split; [discriminate | intros H; inversion H].
  - destruct (py_float p) as [x |] eqn:Ep.
    + destruct (floats_of_parts parts) as [ys |] eqn:Er.
      * split; [discriminate |]. intros H. inversion H; subst; [congruence |].
        match goal with H : Exists _ parts |- _ => apply IH in H; discriminate end.
      * split; [| reflexivity]. intros _. apply Exists_cons_tl. now apply IH.
    + split; [| reflexivity]. intros _. now apply Exists_cons_hd.
Qed.

(** C5. The timestamp parser splits on [':'] (the segments hold no colon
    and joined by colons they give the input back), needs every segment to be
    accepted by [float], and folds the segments from the left with
    [total * 60 + segment] from [0.0]; it returns [None], and does not raise,
    exactly when [float] refuses a segment. ["01:02:03"] gives [3723.0],
    ["02:03"] gives [123.0], ["45"] gives [45.0]; the empty string and ["abc"]
    give [None]. *)
Theorem time_str_to_seconds_spec :
  (forall s : string,
      join ":" (split ":" s) = s
      /\ Forall (fun p => contains ":" p = false) (split ":" s))
  /\ (forall (s : string) (v : float),
        _time_str_to_seconds s = Some v <->
        exists segments : list float,
          Forall2 (fun p x => py_float p = Some x) (split ":" s) segments
          /\ v = fold_left fold_step segments 0%float)
  /\ (forall s : string,
        _time_str_to_seconds s = None <->
        Exists (fun p => py_float p = None) (split ":" s))
  /\ _time_str_to_seconds "01:02:03" = Some 3723%float
  /\ _time_str_to_seconds "02:03" = Some 123%float
  /\ _time_str_to_seconds "45" = Some 45%float
  /\ _time_str_to_seconds "" = None
  /\ _time_str_to_seconds "abc" = None.
Proof.
  split; [intros s; split; [apply join_split | apply split_no_sep] |].
  split.
  { intros s v. unfold _time_str_to_seconds.
    destruct (floats_of_parts (split ":" s)) as [xs |] eqn:E.
    - apply floats_of_parts_some in E. split.
      + intros H. inversion H. exists xs. split; [exact E | reflexivity].
      + intros [segs [H1 H2]]. apply floats_of_parts_some in H1, E.
        rewrite H1 in E. inversion E; subst. reflexivity.
    - split; [discriminate |]. intros [segs [H1 _]].
      apply floats_of_parts_some in H1. congruence. }
  split.
  { intros s. unfold _time_str_to_seconds.
    rewrite <- floats_of_parts_none.
    destruct (floats_of_parts (split ":" s)); split; congruence. }
  repeat split; vm_compute; reflexivity.
Qed.

(** ** Binary64 arithmetic, on integers *)

Section Binary64.
Local Open Scope Z_scope.

(** *** Digits and powers of two *)

Lemma fexp_eq (e : Z) : fexp prec emax e = Z.max (e - 53) (-1074).
Proof. reflexivity. Qed.

Lemma digits_pos (m : positive) : 0 < digits m.
Proof. unfold digits. lia. Qed.

Lemma digits_bounds (m : positive) :
  2 ^ (digits m - 1) <= Zpos m < 2 ^ digits m.
Proof.
  unfold digits. induction m as [m IH | m IH |]; cbn [digits2_pos].
  - rewrite Pos2Z.inj_succ, (Pos2Z.inj_xI m).
    replace (Z.succ (Zpos (digits2_pos m)) - 1)
      with (Z.succ (Zpos (digits2_pos m) - 1)) by lia.
    rewrite !Z.pow_succ_r by lia.
    revert IH. generalize (2 ^ (Zpos (digits2_pos m) - 1)).
    generalize (2 ^ Zpos (digits2_pos m)). intros; lia.
  - rewrite Pos2Z.inj_succ, (Pos2Z.inj_xO m).
    replace (Z.succ (Zpos (digits2_pos m)) - 1)
      with (Z.succ (Zpos (digits2_pos m) - 1)) by lia.
    rewrite !Z.pow_succ_r by lia.
    revert IH. generalize (2 ^ (Zpos (digits2_pos m) - 1)).
    generalize (2 ^ Zpos (digits2_pos m)). intros; lia.
  - cbn. lia.
Qed.

Lemma pow2_pos (k : Z) : 0 <= k -> 0 < 2 ^ k.
Proof. intros. apply Z.pow_pos_nonneg; lia. Qed.

Lemma pow2_lt (a b : Z) : 0 <= a < b -> 2 ^ a < 2 ^ b.
Proof. intros. apply Z.pow_lt_mono_r; lia. Qed.

Lemma pow2_le (a b : Z) : 0 <= a <= b -> 2 ^ a <= 2 ^ b.
Proof. intros. apply Z.pow_le_mono_r; lia. Qed.

Lemma digits_unique (m : positive) (d : Z) :
  2 ^ (d - 1) <= Zpos m < 2 ^ d -> digits m = d.
Proof.
  intros [Hl Hu]. pose proof (digits_bounds m) as [Bl Bu].
  pose proof (digits_pos m) as Hp.
  assert (Hd : 0 < d).
  { destruct (Z_lt_le_dec 0 d) as [|Hn]; [assumption |].
    destruct (Z.eq_dec d 0) as [-> | Hne]; [cbn in Hu; lia |].
    rewrite Z.pow_neg_r in Hu by lia. lia. }
  destruct (Z_lt_le_dec (digits m) d) as [Hlt | Hge].
  - assert (2 ^ digits m <= 2 ^ (d - 1)) by (apply pow2_le; lia). lia.
  - destruct (Z_lt_le_dec d (digits m)) as [Hlt | Hge'].
    + assert (2 ^ d <= 2 ^ (digits m - 1)) by (apply pow2_le; lia). lia.
    + lia.
Qed.

Lemma digits_shift (m m' : positive) (k : Z) :
  0 <= k -> Zpos m' = Zpos m * 2 ^ k -> digits m' = digits m + k.
Proof.
  intros Hk E. apply digits_unique. rewrite E.
  pose proof (digits_bounds m) as [Bl Bu]. pose proof (digits_pos m).
  replace (digits m + k - 1) with ((digits m - 1) + k) by lia.
  rewrite !Z.pow_add_r by lia.
  pose proof (pow2_pos k Hk). nia.
Qed.

Lemma digits_mono (m m' : positive) :
  Zpos m <= Zpos m' -> digits m <= digits m'.
Proof.
  intros H. pose proof (digits_bounds m) as [Bl Bu].
  pose proof (digits_bounds m') as [Bl' Bu']. pose proof (digits_pos m').
  destruct (Z_lt_le_dec (digits m') (digits m)) as [Hlt |]; [| lia].
  assert (2 ^ digits m' <= 2 ^ (digits m - 1)) by (apply pow2_le; lia). lia.
Qed.

(** *** Shifting left *)

Lemma iter_xO (m : positive) (d : positive) :
  Zpos (Pos.iter xO m d) = Zpos m * 2 ^ Zpos d.
Proof.
  induction d as [| d IH] using Pos.peano_ind.
  - cbn. lia.
  - rewrite Pos.iter_succ, Pos2Z.inj_succ, Z.pow_succ_r by lia.
    rewrite (Pos2Z.inj_xO (Pos.iter xO m d)), IH. lia.
Qed.

Lemma shl_align_spec (m : positive) (e e' : Z) :
  exists m' : positive,
    shl_align m e e' = (m', Z.min e e')
    /\ Zpos m' = Zpos m * 2 ^ (e - Z.min e e').
Proof.
  unfold shl_align. destruct (e' - e) as [| d | d] eqn:E.
  - exists m. replace (Z.min e e') with e by lia.
    rewrite Z.sub_diag. cbn. split; [reflexivity | lia].
  - exists m. replace (Z.min e e') with e by lia.
    rewrite Z.sub_diag. cbn. split; [reflexivity | lia].
  - exists (Pos.iter xO m d). replace (Z.min e e') with e' by lia.
    split; [reflexivity |]. rewrite iter_xO. f_equal. f_equal. lia.
Qed.

(** *** Shifting right *)

Lemma iter_pos_nat {A} (f : A -> A) (p : positive) (x : A) :
  iter_pos f p x = Nat.iter (Pos.to_nat p) f x.
Proof.
  revert x. induction p as [p IH | p IH |]; intros x; cbn [iter_pos].
  - rewrite !IH. rewrite Pos2Nat.inj_xI.
    replace (S (2 * Pos.to_nat p))%nat with (Pos.to_nat p + (Pos.to_nat p + 1))%nat by lia.
    rewrite !Nat.iter_add. reflexivity.
  - rewrite !IH. rewrite Pos2Nat.inj_xO.
    replace (2 * Pos.to_nat p)%nat with (Pos.to_nat p + Pos.to_nat p)%nat by lia.
    rewrite Nat.iter_add. reflexivity.
  - reflexivity.
Qed.

Lemma shr_1_m (r : shr_record) :
  0 <= shr_m r -> shr_m (shr_1 r) = shr_m r / 2.
Proof.
  destruct r as [m rb sb]. cbn [shr_m]. intros Hm.
  destruct m as [| p | p]; [reflexivity | | lia].
  destruct p as [p | p |]; cbn [shr_1 shr_m].
  - rewrite (Pos2Z.inj_xI p). apply Z.div_unique with 1; lia.
  - rewrite (Pos2Z.inj_xO p). apply Z.div_unique with 0; lia.
  - reflexivity.
Qed.

Lemma shr_iter_m (n : nat) (r : shr_record) :
  0 <= shr_m r ->
  shr_m (Nat.iter n shr_1 r) = shr_m r / 2 ^ Z.of_nat n.
Proof.
  intros Hm. induction n as [| n IH].
  - cbn. now rewrite Z.div_1_r.
  - rewrite Nat.iter_succ. rewrite shr_1_m.
    + rewrite IH, Nat2Z.inj_succ, Z.pow_succ_r by lia.
      rewrite Z.div_div by (try apply pow2_pos; lia). f_equal. lia.
    + rewrite IH. apply Z.div_pos; [assumption | apply pow2_pos; lia].
Qed.

Lemma shr_1_exact (m : Z) :
  0 <= m ->
  shr_1 {| shr_m := 2 * m; shr_r := false; shr_s := false |}
  = {| shr_m := m; shr_r := false; shr_s := false |}.
Proof. intros H. destruct m as [| p | p]; [reflexivity | reflexivity | lia]. Qed.

Lemma shr_iter_exact (n : nat) (m : Z) :
  0 <= m ->
  Nat.iter n shr_1 {| shr_m := m * 2 ^ Z.of_nat n; shr_r := false; shr_s := false |}
  = {| shr_m := m; shr_r := false; shr_s := false |}.
Proof.
  intros Hm. revert m Hm. induction n as [| n IH]; intros m Hm.
  - cbn. f_equal. lia.
  - rewrite Nat.iter_succ_r.
    rewrite Nat2Z.inj_succ, Z.pow_succ_r by lia.
    replace (m * (2 * 2 ^ Z.of_nat n)) with (2 * (m * 2 ^ Z.of_nat n)) by lia.
    rewrite shr_1_exact; [apply IH; assumption |].
    pose proof (pow2_pos (Z.of_nat n)). nia.
Qed.

(** *** Canonical numbers and exact rounding *)

Lemma bounded_iff (m : positive) (e : Z) :
  bounded prec emax m e = true <->
  -1074 <= e <= 971 /\ digits m <= 53 /\ (e = -1074 \/ digits m = 53).
Proof.
  unfold bounded, canonical_mantissa. fold (digits m).
  rewrite andb_true_iff, Z.eqb_eq, Z.leb_le, fexp_eq.
  change (emax - prec) with 971. lia.
Qed.

Lemma bounded_fexp (m : positive) (e : Z) :
  bounded prec emax m e = true -> fexp prec emax (digits m + e) = e.
Proof. rewrite bounded_iff, fexp_eq. lia. Qed.

Lemma shr_fexp_fixed (m : positive) (e : Z) :
  fexp prec emax (digits m + e) = e ->
  shr_fexp prec emax (Zpos m) e loc_Exact
  = ({| shr_m := Zpos m; shr_r := false; shr_s := false |}, e).
Proof.
  intros H. unfold shr_fexp. cbn [Zdigits2 shr_record_of_loc].
  fold (digits m). rewrite H, Z.sub_diag. reflexivity.
Qed.

Lemma binary_round_aux_tail (s : bool) (mx : Z) (ex : Z) (lx : location)
    (m : positive) (e : Z) :
  shr_fexp prec emax mx ex lx
  = ({| shr_m := Zpos m; shr_r := false; shr_s := false |}, e) ->
  fexp prec emax (digits m + e) = e ->
  binary_round_aux prec emax s mx ex lx
  = if e <=? 971 then S754_finite s m e else S754_infinity s.
Proof.
  intros H1 H2. unfold binary_round_aux. rewrite H1.
  cbn [shr_m loc_of_shr_record round_nearest_even].
  rewrite (shr_fexp_fixed m e H2). cbn [shr_m]. reflexivity.
Qed.

Lemma binary_round_aux_canonical (s : bool) (m : positive) (e : Z) :
  bounded prec emax m e = true ->
  binary_round_aux prec emax s (Zpos m) e loc_Exact = S754_finite s m e.
Proof.
  intros Hb. pose proof (bounded_fexp m e Hb) as Hf.
  rewrite (binary_round_aux_tail s (Zpos m) e loc_Exact m e)
    by (try apply shr_fexp_fixed; assumption).
  apply bounded_iff in Hb. destruct (Z.leb_spec e 971); [reflexivity | lia].
Qed.

Lemma same_value_digits n e m' e' :
  same_value n e m' e' -> digits n + e = digits m' + e'.
Proof.
  unfold same_value. intros H.
  assert (Hp : 0 < Zpos n * 2 ^ (e - Z.min e e')).
  { apply Z.mul_pos_pos; [lia | apply pow2_pos; lia]. }
  destruct (Zpos n * 2 ^ (e - Z.min e e')) as [| N | N] eqn:EN; try lia.
  assert (D1 : digits N = digits n + (e - Z.min e e'))
    by (apply digits_shift; [lia | assumption || now symmetry]).
  assert (D2 : digits N = digits m' + (e' - Z.min e e'))
    by (apply digits_shift; [lia | assumption || now symmetry]).
  lia.
Qed.

(** Rounding a value that is a binary64 number returns that number. *)
Lemma binary_round_exact (s : bool) (n : positive) (e : Z)
    (m' : positive) (e' : Z) :
  bounded prec emax m' e' = true ->
  same_value n e m' e' ->
  binary_round prec emax s n e = S754_finite s m' e'.
Proof.
  intros Hb Hv. pose proof (same_value_digits _ _ _ _ Hv) as Hd.
  pose proof (bounded_fexp m' e' Hb) as Hf.
  unfold binary_round. fold (digits n). rewrite Hd, Hf.
  destruct (shl_align_spec n e e') as [mz [Hs Hz]]. rewrite Hs.
  unfold same_value in Hv.
  destruct (Z_le_gt_dec e' e) as [Hle | Hgt].
  - replace (Z.min e e') with e' in * by lia.
    rewrite Z.sub_diag in Hv. cbn [Z.pow] in Hv.
    assert (mz = m') by lia. subst mz.
    apply binary_round_aux_canonical. assumption.
  - replace (Z.min e e') with e in * by lia.
    rewrite Z.sub_diag in Hv, Hz. cbn [Z.pow] in Hv, Hz.
    assert (mz = n) by lia. subst mz.
    rewrite (binary_round_aux_tail s (Zpos n) e loc_Exact m' e').
    + apply bounded_iff in Hb. destruct (Z.leb_spec e' 971); [reflexivity | lia].
    + unfold shr_fexp. cbn [Zdigits2 shr_record_of_loc]. fold (digits n).
      rewrite Hd, Hf. unfold shr.
      destruct (e' - e) as [| p | p] eqn:Ep; try lia.
      rewrite iter_pos_nat. f_equal; [| lia].
      replace (Zpos n) with (Zpos m' * 2 ^ Z.of_nat (Pos.to_nat p))
        by (rewrite positive_nat_Z; lia).
      apply shr_iter_exact. lia.
    + assumption.
Qed.

(** *** Rounding what does not fit *)

(** A value with at most 53 significant bits, above the least exponent, is a
    binary64 number: rounding it only changes the exponent. *)
Lemma binary_round_small (s : bool) (n : positive) (e : Z) :
  -1074 <= e <= 971 -> digits n <= 53 ->
  exists (m' : positive) (e' : Z),
    binary_round prec emax s n e = S754_finite s m' e'
    /\ bounded prec emax m' e' = true
    /\ e' <= e
    /\ Zpos m' = Zpos n * 2 ^ (e - e').
Proof.
  intros He Hd. pose proof (digits_pos n) as Hp.
  set (e' := Z.max (digits n + e - 53) (-1074)).
  assert (He' : -1074 <= e' <= e) by lia.
  assert (Hpos : 0 < Zpos n * 2 ^ (e - e')).
  { apply Z.mul_pos_pos; [lia | apply pow2_pos; lia]. }
  destruct (Zpos n * 2 ^ (e - e')) as [| m' | m'] eqn:Em; try lia.
  assert (Hdm : digits m' = digits n + (e - e'))
    by (apply digits_shift; [lia | now symmetry]).
  assert (Hb : bounded prec emax m' e' = true) by (apply bounded_iff; lia).
  exists m', e'. split; [| repeat split; auto; lia].
  apply binary_round_exact; [assumption |].
  unfold same_value. replace (Z.min e e') with e' by lia.
  rewrite Z.sub_diag. cbn [Z.pow]. lia.
Qed.

(** A value with more than 53 significant bits loses its low bits: the
    mantissa kept is the quotient [q], or [q + 1]. *)
Lemma binary_round_inexact (s : bool) (n : positive) (e : Z) :
  -1074 <= e -> 53 < digits n ->
  let k := digits n - 53 in
  let q := Zpos n / 2 ^ k in
  2 ^ 52 <= q < 2 ^ 53
  /\ exists m1 : positive,
      (Zpos m1 = q \/ Zpos m1 = q + 1)
      /\ binary_round prec emax s n e
         = if Zpos m1 <? 2 ^ 53
           then (if e + k <=? 971 then S754_finite s m1 (e + k)
                 else S754_infinity s)
           else (if e + k + 1 <=? 971
                 then S754_finite s (Z.to_pos (2 ^ 52)) (e + k + 1)
                 else S754_infinity s).
Proof.
  intros He Hd k q.
  pose proof (digits_bounds n) as [Bl Bu].
  assert (Hk : 0 < k) by (unfold k; lia).
  assert (Hq : 2 ^ 52 <= q < 2 ^ 53).
  { unfold q. pose proof (pow2_pos k ltac:(lia)) as P.
    replace (digits n - 1) with (52 + k) in Bl by (unfold k; lia).
    replace (digits n) with (53 + k) in Bu by (unfold k; lia).
    rewrite Z.pow_add_r in Bl, Bu by lia. split.
    - apply Z.div_le_lower_bound; lia.
    - apply Z.div_lt_upper_bound; lia. }
  split; [exact Hq |].
  unfold binary_round. fold (digits n). rewrite fexp_eq.
  replace (Z.max (digits n + e - 53) (-1074)) with (e + k) by (unfold k; lia).
  unfold shl_align. destruct (e + k - e) as [| pk | pk] eqn:Epk; try lia.
  unfold binary_round_aux, shr_fexp at 1.
  cbn [Zdigits2 shr_record_of_loc]. fold (digits n). rewrite fexp_eq.
  replace (Z.max (digits n + e - 53) (-1074) - e) with (Zpos pk)
    by (unfold k in *; lia).
  unfold shr. rewrite iter_pos_nat.
  set (R := Nat.iter (Pos.to_nat pk) shr_1
              {| shr_m := Zpos n; shr_r := false; shr_s := false |}).
  assert (HR : shr_m R = q).
  { unfold R. rewrite shr_iter_m by (cbn; lia). cbn [shr_m]. unfold q.
    rewrite positive_nat_Z. f_equal. f_equal. lia. }
  set (m1 := round_nearest_even (shr_m R) (loc_of_shr_record R)).
  assert (Hm1 : m1 = q \/ m1 = q + 1).
  { unfold m1. rewrite HR. unfold round_nearest_even.
    destruct (loc_of_shr_record R) as [| []]; auto.
    destruct (Z.even q); auto. }
  assert (Hm1pos : 0 < m1) by (change (2 ^ 52) with 4503599627370496 in Hq; lia).
  destruct m1 as [| pm1 | pm1] eqn:Em1; try lia.
  exists pm1. split; [exact Hm1 |].
  replace (e + Zpos pk) with (e + k) by lia.
  destruct (Z.ltb_spec (Zpos pm1) (2 ^ 53)) as [Hlt | Hge].
  - assert (D : digits pm1 = 53) by (apply digits_unique; cbn [Z.sub]; lia).
    rewrite (shr_fexp_fixed pm1 (e + k)) by (rewrite D, fexp_eq; lia).
    cbn [shr_m]. reflexivity.
  - assert (E53 : Zpos pm1 = 2 ^ 53) by lia.
    assert (Epm : pm1 = Z.to_pos (2 ^ 53)) by (rewrite <- E53; reflexivity).
    subst pm1. unfold shr_fexp. cbn [Zdigits2 shr_record_of_loc].
    change (Zpos (digits2_pos (Z.to_pos (2 ^ 53)))) with 54.
    rewrite fexp_eq.
    replace (Z.max (54 + (e + k) - 53) (-1074) - (e + k)) with 1 by lia.
    cbn [shr iter_pos]. change (shr_1 _) with
      {| shr_m := 2 ^ 52; shr_r := false; shr_s := false |}.
    cbn [shr_m]. change (2 ^ 52) with (Zpos (Z.to_pos (2 ^ 52))) at 1.
    cbv iota beta. reflexivity.
Qed.

(** *** Comparison *)

Lemma mag_pos (m : positive) (e : Z) : -1074 <= e -> 0 < Zpos m * 2 ^ (e + 1074).
Proof. intros. apply Z.mul_pos_pos; [lia | apply pow2_pos; lia]. Qed.

Lemma bounded_mantissa (m : positive) (e : Z) :
  bounded prec emax m e = true -> Zpos m < 2 ^ 53.
Proof.
  rewrite bounded_iff. intros [_ [Hd _]].
  pose proof (digits_bounds m) as [_ Bu]. pose proof (digits_pos m).
  assert (2 ^ digits m <= 2 ^ 53) by (apply pow2_le; lia). lia.
Qed.

Lemma bounded_normal (m : positive) (e : Z) :
  bounded prec emax m e = true -> -1074 < e -> 2 ^ 52 <= Zpos m.
Proof.
  rewrite bounded_iff. intros [_ [_ Hd]] He.
  assert (D : digits m = 53) by lia.
  pose proof (digits_bounds m) as [Bl _].
  rewrite D in Bl. exact Bl.
Qed.

Lemma canonical_lt (m1 : positive) (e1 : Z) (m2 : positive) (e2 : Z) :
  bounded prec emax m1 e1 = true -> bounded prec emax m2 e2 = true ->
  e1 < e2 ->
  Zpos m1 * 2 ^ (e1 + 1074) < Zpos m2 * 2 ^ (e2 + 1074).
Proof.
  intros B1 B2 Hlt.
  pose proof (bounded_mantissa _ _ B1) as M1.
  assert (He1 : -1074 <= e1) by (apply bounded_iff in B1; lia).
  pose proof (bounded_normal _ _ B2 ltac:(lia)) as M2.
  assert (E : 2 ^ (e2 + 1074) = 2 ^ (e1 + 1074) * 2 * 2 ^ (e2 - e1 - 1)).
  { replace (e2 + 1074) with ((e1 + 1074) + (1 + (e2 - e1 - 1))) by lia.
    rewrite (Z.pow_add_r 2 (e1 + 1074)) by lia.
    rewrite (Z.pow_add_r 2 1) by lia. change (2 ^ 1) with 2. ring. }
  rewrite E.
  pose proof (pow2_pos (e1 + 1074) ltac:(lia)) as P1.
  pose proof (pow2_pos (e2 - e1 - 1) ltac:(lia)) as P2.
  change (2 ^ 53) with (2 * 2 ^ 52) in M1.
  set (a := 2 ^ (e1 + 1074)) in *. set (b := 2 ^ (e2 - e1 - 1)) in *.
  set (c := 2 ^ 52) in *.
  assert (Zpos m1 * a < 2 * c * a) by nia.
  assert (c * (a * 2 * b) <= Zpos m2 * (a * 2 * b)) by nia.
  assert (2 * c * a <= c * (a * 2 * b)) by nia.
  lia.
Qed.

Lemma compare_finite_pos (m1 : positive) (e1 : Z) (m2 : positive) (e2 : Z) :
  bounded prec emax m1 e1 = true -> bounded prec emax m2 e2 = true ->
  match e1 ?= e2 with
  | Lt => Lt
  | Gt => Gt
  | Eq => Pos.compare_cont Eq m1 m2
  end = (Zpos m1 * 2 ^ (e1 + 1074) ?= Zpos m2 * 2 ^ (e2 + 1074)).
Proof.
  intros B1 B2. destruct (Z.compare_spec e1 e2) as [E | L | G].
  - subst e2. assert (-1074 <= e1) by (apply bounded_iff in B1; lia).
    pose proof (pow2_pos (e1 + 1074) ltac:(lia)).
    rewrite <- Zmult_compare_compat_r by lia. reflexivity.
  - symmetry. apply Z.compare_lt_iff. now apply canonical_lt.
  - symmetry. apply Z.compare_gt_iff. now apply canonical_lt.
Qed.

(** Comparison of finite numbers is comparison of their values. *)
Lemma SFcompare_val (x y : spec_float) :
  valid_binary x = true -> valid_binary y = true ->
  SFfinite x = true -> SFfinite y = true ->
  SFcompare x y = Some (SFval x ?= SFval y).
Proof.
  intros Vx Vy Fx Fy.
  destruct x as [sx | sx | | sx mx ex]; try discriminate;
  destruct y as [sy | sy | | sy my ey]; try discriminate;
  cbn [valid_binary] in *.
  - reflexivity.
  - assert (-1074 <= ey) by (apply bounded_iff in Vy; lia).
    pose proof (mag_pos my ey ltac:(lia)).
    cbn [SFcompare SFval]. destruct sy; f_equal; symmetry.
    + apply Z.compare_gt_iff. lia.
    + apply Z.compare_lt_iff. lia.
  - assert (-1074 <= ex) by (apply bounded_iff in Vx; lia).
    pose proof (mag_pos mx ex ltac:(lia)).
    cbn [SFcompare SFval]. destruct sx; f_equal; symmetry.
    + apply Z.compare_lt_iff. lia.
    + apply Z.compare_gt_iff. lia.
  - assert (-1074 <= ex) by (apply bounded_iff in Vx; lia).
    assert (-1074 <= ey) by (apply bounded_iff in Vy; lia).
    pose proof (mag_pos mx ex ltac:(lia)).
    pose proof (mag_pos my ey ltac:(lia)).
    cbn [SFcompare SFval]. f_equal. destruct sx, sy.
    + pose proof (compare_finite_pos mx ex my ey Vx Vy) as Hc.
      replace (-1 * (Zpos mx * 2 ^ (ex + 1074)))
        with (- (Zpos mx * 2 ^ (ex + 1074))) by lia.
      replace (-1 * (Zpos my * 2 ^ (ey + 1074)))
        with (- (Zpos my * 2 ^ (ey + 1074))) by lia.
      rewrite Z.compare_opp, (Z.compare_antisym (Zpos mx * 2 ^ (ex + 1074))).
      rewrite <- Hc. destruct (ex ?= ey); reflexivity.
    + symmetry. apply Z.compare_lt_iff. lia.
    + symmetry. apply Z.compare_gt_iff. lia.
    + rewrite (compare_finite_pos mx ex my ey) by assumption.
      now rewrite !Z.mul_1_l.
Qed.

(** *** Sums and differences before rounding *)

Lemma cond_Zopp_signed s v : cond_Zopp s v = signed s v.
Proof. reflexivity. Qed.

Lemma SFval_finite s m e :
  SFval (S754_finite s m e) = signed s (Zpos m * 2 ^ (e + 1074)).
Proof. destruct s; cbn [SFval signed]; lia. Qed.

Lemma pow2_join (a b : Z) : 0 <= a -> 0 <= b -> 2 ^ a * 2 ^ b = 2 ^ (a + b).
Proof. intros. now rewrite Z.pow_add_r. Qed.

(** Aligning two mantissas on the smaller exponent keeps their values. *)
Lemma aligned (m : positive) (e e' : Z) :
  -1074 <= Z.min e e' ->
  Zpos (fst (shl_align m e (Z.min e e'))) * 2 ^ (Z.min e e' + 1074)
  = Zpos m * 2 ^ (e + 1074).
Proof.
  intros H. destruct (shl_align_spec m e (Z.min e e')) as [mz [Hs Hz]].
  rewrite Hs. cbn [fst]. rewrite Hz.
  replace (Z.min e (Z.min e e')) with (Z.min e e') by lia.
  rewrite <- Z.mul_assoc, pow2_join by lia. f_equal. f_equal. lia.
Qed.

Lemma SFsub_finite (sx : bool) (mx : positive) (ex : Z)
    (sy : bool) (my : positive) (ey : Z) :
  -1074 <= ex -> -1074 <= ey ->
  exists n : Z,
    SF64sub (S754_finite sx mx ex) (S754_finite sy my ey)
    = binary_normalize prec emax n (Z.min ex ey) false
    /\ n * 2 ^ (Z.min ex ey + 1074)
       = SFval (S754_finite sx mx ex) - SFval (S754_finite sy my ey).
Proof.
  intros Hx Hy.
  exists (signed sx (Zpos (fst (shl_align mx ex (Z.min ex ey))))
          - signed sy (Zpos (fst (shl_align my ey (Z.min ex ey))))).
  split; [reflexivity |].
  rewrite !SFval_finite.
  pose proof (aligned mx ex ey ltac:(lia)) as Ax.
  pose proof (aligned my ey ex ltac:(lia)) as Ay.
  rewrite (Z.min_comm ey ex) in Ay.
  rewrite Z.mul_sub_distr_r. rewrite <- Ax, <- Ay.
  destruct sx, sy; cbn [signed]; ring.
Qed.

Lemma SFadd_finite (sx : bool) (mx : positive) (ex : Z)
    (sy : bool) (my : positive) (ey : Z) :
  -1074 <= ex -> -1074 <= ey ->
  exists n : Z,
    SF64add (S754_finite sx mx ex) (S754_finite sy my ey)
    = binary_normalize prec emax n (Z.min ex ey) false
    /\ n * 2 ^ (Z.min ex ey + 1074)
       = SFval (S754_finite sx mx ex) + SFval (S754_finite sy my ey).
Proof.
  intros Hx Hy.
  exists (signed sx (Zpos (fst (shl_align mx ex (Z.min ex ey))))
          + signed sy (Zpos (fst (shl_align my ey (Z.min ex ey))))).
  split; [reflexivity |].
  rewrite !SFval_finite.
  pose proof (aligned mx ex ey ltac:(lia)) as Ax.
  pose proof (aligned my ey ex ltac:(lia)) as Ay.
  rewrite (Z.min_comm ey ex) in Ay.
  rewrite Z.mul_add_distr_r. rewrite <- Ax, <- Ay.
  destruct sx, sy; cbn [signed]; ring.
Qed.

(** The sign of a rounded value is the sign given. *)
Lemma binary_round_aux_shape (s : bool) (mx ex : Z) (lx : location) :
  match binary_round_aux prec emax s mx ex lx with
  | S754_zero s' | S754_infinity s' | S754_finite s' _ _ => s' = s
  | S754_nan => True
  end.
Proof.
  unfold binary_round_aux.
  destruct (shr_fexp prec emax mx ex lx) as [mrs' e'].
  destruct (shr_fexp prec emax _ e' loc_Exact) as [mrs'' e''].
  destruct (shr_m mrs''); [reflexivity | | exact I].
  destruct (e'' <=? emax - prec); reflexivity.
Qed.

Lemma binary_round_shape (s : bool) (m : positive) (e : Z) :
  match binary_round prec emax s m e with
  | S754_zero s' | S754_infinity s' | S754_finite s' _ _ => s' = s
  | S754_nan => True
  end.
Proof.
  unfold binary_round. destruct (shl_align m e _) as [mz ez].
  apply binary_round_aux_shape.
Qed.

(** Rounding a positive value gives a positive number or infinity, never
    zero. *)
Lemma binary_round_nonzero (s : bool) (n : positive) (e : Z) :
  -1074 <= e <= 971 ->
  (exists m' e', binary_round prec emax s n e = S754_finite s m' e')
  \/ binary_round prec emax s n e = S754_infinity s.
Proof.
  intros He. destruct (Z_le_gt_dec (digits n) 53) as [Hd | Hd].
  - destruct (binary_round_small s n e He Hd) as [m' [e' [E _]]].
    left. eauto.
  - destruct (binary_round_inexact s n e ltac:(lia) ltac:(lia))
      as [_ [m1 [_ E]]].
    rewrite E.
    destruct (Zpos m1 <? 2 ^ 53);
      match goal with |- context [if ?c then _ else _] => destruct c end;
      eauto.
Qed.

Lemma normalize_nonpos (n e : Z) :
  n <= 0 ->
  SFltb (S754_zero false) (binary_normalize prec emax n e false) = false.
Proof.
  intros Hn. destruct n as [| p | p]; [reflexivity | lia |].
  cbn [binary_normalize]. pose proof (binary_round_shape true p e) as H.
  destruct (binary_round prec emax true p e); try subst; reflexivity.
Qed.

Lemma normalize_pos (n e : Z) :
  0 < n -> -1074 <= e <= 971 ->
  SFltb (S754_zero false) (binary_normalize prec emax n e false) = true.
Proof.
  intros Hn He. destruct n as [| p | p]; try lia.
  cbn [binary_normalize].
  destruct (binary_round_nonzero false p e He) as [[m' [e' E]] | E];
    rewrite E; reflexivity.
Qed.

Lemma valid_exponent (s : bool) (m : positive) (e : Z) :
  valid_binary (S754_finite s m e) = true -> -1074 <= e <= 971.
Proof. cbn [valid_binary]. rewrite bounded_iff. lia. Qed.

Lemma pow2_sign (n v k : Z) : 0 <= k -> n * 2 ^ k = v -> (0 < n <-> 0 < v) /\ (n <= 0 <-> v <= 0).
Proof. intros Hk E. pose proof (pow2_pos k Hk). nia. Qed.

(** [x <= y] makes [x - y] not positive. *)
Lemma SFsub_le (x y : spec_float) :
  valid_binary x = true -> valid_binary y = true ->
  SFleb x y = true ->
  SFltb (S754_zero false) (SF64sub x y) = false.
Proof.
  intros Vx Vy Hle.
  destruct x as [sx | sx | | sx mx ex]; destruct y as [sy | sy | | sy my ey];
    try discriminate;
    try (destruct sx; try discriminate; try destruct sy; try discriminate; reflexivity);
    try (destruct sy; try discriminate; reflexivity).
  pose proof (valid_exponent _ _ _ Vx). pose proof (valid_exponent _ _ _ Vy).
    unfold SFleb in Hle. rewrite SFcompare_val in Hle by auto.
    destruct (SFsub_finite sx mx ex sy my ey) as [n [E Hn]]; try lia.
    rewrite E. apply normalize_nonpos.
    apply (pow2_sign n _ (Z.min ex ey + 1074)) in Hn; [| lia].
    destruct (Z.compare_spec (SFval (S754_finite sx mx ex))
                (SFval (S754_finite sy my ey))); try discriminate; lia.
Qed.

(** [y < x] makes [x - y] positive. *)
Lemma SFsub_gt (x y : spec_float) :
  valid_binary x = true -> valid_binary y = true ->
  SFltb y x = true ->
  SFltb (S754_zero false) (SF64sub x y) = true.
Proof.
  intros Vx Vy Hlt.
  destruct x as [sx | sx | | sx mx ex]; destruct y as [sy | sy | | sy my ey];
    try discriminate;
    try (destruct sx; try discriminate; try destruct sy; try discriminate; reflexivity);
    try (destruct sy; try discriminate; reflexivity).
  pose proof (valid_exponent _ _ _ Vx). pose proof (valid_exponent _ _ _ Vy).
    unfold SFltb in Hlt. rewrite SFcompare_val in Hlt by auto.
    destruct (SFsub_finite sx mx ex sy my ey) as [n [E Hn]]; try lia.
    rewrite E. apply normalize_pos; [| lia].
    apply (pow2_sign n _ (Z.min ex ey + 1074)) in Hn; [| lia].
    destruct (Z.compare_spec (SFval (S754_finite sy my ey))
                (SFval (S754_finite sx mx ex))); try discriminate; lia.
Qed.

(** *** Rounding a value that is a number *)

Lemma pow2_cancel (a b k : Z) : 0 <= k -> a * 2 ^ k = b * 2 ^ k -> a = b.
Proof. intros Hk E. pose proof (pow2_pos k Hk). nia. Qed.

Lemma pow2_scale (e e' : Z) :
  -1074 <= e' <= e -> 2 ^ (e + 1074) = 2 ^ (e - e') * 2 ^ (e' + 1074).
Proof. intros H. rewrite pow2_join by lia. f_equal. lia. Qed.

(** A positive value that is a binary64 number rounds to that number. *)
Lemma normalize_exact (n e : Z) (m' : positive) (e' : Z) :
  0 < n -> -1074 <= e ->
  bounded prec emax m' e' = true ->
  n * 2 ^ (e + 1074) = Zpos m' * 2 ^ (e' + 1074) ->
  binary_normalize prec emax n e false = S754_finite false m' e'.
Proof.
  intros Hn He Hb Hv. destruct n as [| p | p]; try lia.
  cbn [binary_normalize]. apply binary_round_exact; [assumption |].
  assert (He' : -1074 <= e') by (apply bounded_iff in Hb; lia).
  unfold same_value.
  apply (pow2_cancel _ _ (Z.min e e' + 1074)); [lia |].
  rewrite <- !Z.mul_assoc, !pow2_join by lia.
  replace (e - Z.min e e' + (Z.min e e' + 1074)) with (e + 1074) by lia.
  replace (e' - Z.min e e' + (Z.min e e' + 1074)) with (e' + 1074) by lia.
  exact Hv.
Qed.

(** A positive value below [2^53] times its unit is a binary64 number. *)
Lemma normalize_small (n e : Z) :
  0 < n < 2 ^ 53 -> -1074 <= e <= 971 ->
  exists (m' : positive) (e' : Z),
    binary_normalize prec emax n e false = S754_finite false m' e'
    /\ bounded prec emax m' e' = true
    /\ e' <= e
    /\ Zpos m' * 2 ^ (e' + 1074) = n * 2 ^ (e + 1074).
Proof.
  intros Hn He. destruct n as [| p | p]; try lia.
  assert (Hd : digits p <= 53).
  { pose proof (digits_bounds p) as [Bl _]. pose proof (digits_pos p).
    destruct (Z_le_gt_dec (digits p) 53) as [|Hgt]; [assumption |].
    assert (2 ^ 53 <= 2 ^ (digits p - 1)) by (apply pow2_le; lia). lia. }
  destruct (binary_round_small false p e He Hd) as [m' [e' [E [Hb [Hle Hm]]]]].
  exists m', e'. repeat split; try assumption.
  assert (-1074 <= e') by (apply bounded_iff in Hb; lia).
  rewrite Hm, (pow2_scale e e') by lia. ring.
Qed.

(** Canonical representations are unique. *)
Lemma bounded_unique (m1 : positive) (e1 : Z) (m2 : positive) (e2 : Z) :
  bounded prec emax m1 e1 = true -> bounded prec emax m2 e2 = true ->
  Zpos m1 * 2 ^ (e1 + 1074) = Zpos m2 * 2 ^ (e2 + 1074) ->
  m1 = m2 /\ e1 = e2.
Proof.
  intros B1 B2 E.
  assert (H1 : -1074 <= e1) by (apply bounded_iff in B1; lia).
  pose proof (normalize_exact (Zpos m1) e1 m1 e1 ltac:(lia) H1 B1 eq_refl) as N1.
  pose proof (normalize_exact (Zpos m1) e1 m2 e2 ltac:(lia) H1 B2 E) as N2.
  rewrite N1 in N2. inversion N2. auto.
Qed.

(** *** The rounded difference *)

Lemma digits_large (p : positive) : 2 ^ 53 <= Zpos p -> 53 < digits p.
Proof.
  intros H. pose proof (digits_bounds p) as [_ Bu]. pose proof (digits_pos p).
  destruct (Z_lt_le_dec 53 (digits p)) as [| Hle]; [assumption |].
  assert (2 ^ digits p <= 2 ^ 53) by (apply pow2_le; lia). lia.
Qed.

Lemma mul_lt_cancel (a b w : Z) : 0 < w -> a * w < b * w -> a < b.
Proof. intros Hw H. apply (Z.mul_lt_mono_pos_r w); assumption. Qed.

Lemma mul_le_scale (a b w : Z) : 0 <= w -> a <= b -> a * w <= b * w.
Proof. intros. apply Z.mul_le_mono_nonneg_r; assumption. Qed.

Lemma mul_lt_scale (a b w : Z) : 0 < w -> a < b -> a * w < b * w.
Proof. intros. apply Z.mul_lt_mono_pos_r; assumption. Qed.

(** The quotient of a difference [X' * u - y] by [u], when [0 < y < 2^53]:
    it is below [X'], by at most [2^52]. *)
Lemma quotient_gap (X' u y q r c : Z) :
  2 <= u -> 0 < y < 2 * c -> 0 <= c ->
  X' * u - y = q * u + r -> 0 <= r < u ->
  q + 1 <= X' /\ X' - q <= c.
Proof.
  intros Hu Hy Hc E Hr. split.
  - assert (q * u < X' * u) by lia.
    assert (q < X') by (apply (mul_lt_cancel q X' u); lia). lia.
  - destruct (Z_le_gt_dec (X' - q) c) as [| Hgt]; [assumption | exfalso].
    assert (H1 : (c + 1) * u <= (X' - q) * u) by (apply mul_le_scale; lia).
    assert (H2 : c * 2 <= c * u) by (apply Z.mul_le_mono_nonneg_l; lia).
    lia.
Qed.

(** The rounded difference of two positive numbers [y < x]: it is at most
    [x], and either it is exact, or what it leaves of [x] fits in 53 bits
    of its own unit. *)
Lemma sub_round (mx : positive) (ex : Z) (my : positive) (ey : Z) :
  bounded prec emax mx ex = true -> bounded prec emax my ey = true ->
  Zpos my * 2 ^ (ey + 1074) < Zpos mx * 2 ^ (ex + 1074) ->
  exists (mc : positive) (ec : Z),
    SF64sub (S754_finite false mx ex) (S754_finite false my ey)
    = S754_finite false mc ec
    /\ bounded prec emax mc ec = true
    /\ ec <= ex
    /\ Zpos mc * 2 ^ (ec + 1074) <= Zpos mx * 2 ^ (ex + 1074)
    /\ ((ec <= ey
         /\ Zpos mc * 2 ^ (ec + 1074)
            = Zpos mx * 2 ^ (ex + 1074) - Zpos my * 2 ^ (ey + 1074))
        \/ Zpos mx * 2 ^ (ex + 1074) - Zpos mc * 2 ^ (ec + 1074)
           < 2 ^ 53 * 2 ^ (ec + 1074)).
Proof.
  intros Bx By Hlt.
  pose proof Bx as Bx'. pose proof By as By'.
  apply bounded_iff in Bx', By'.
  pose proof (bounded_mantissa _ _ Bx) as Mx.
  pose proof (bounded_mantissa _ _ By) as My.
  destruct (SFsub_finite false mx ex false my ey) as [n [E Hn]]; try lia.
  rewrite E. cbn [SFval] in Hn. rewrite !Z.mul_1_l in Hn.
  set (ez := Z.min ex ey) in *.
  assert (Hez : -1074 <= ez <= 971) by (unfold ez; lia).
  assert (Hezx : ez <= ex) by (unfold ez; lia).
  assert (Hezy : ez <= ey) by (unfold ez; lia).
  assert (Hmin : ez = ex \/ ez = ey) by (unfold ez; lia).
  clearbody ez.
  set (P := 2 ^ (ez + 1074)) in *.
  assert (HP : 0 < P) by (apply pow2_pos; lia).
  assert (Hy0 : 0 < Zpos my * 2 ^ (ey + 1074)) by (apply mag_pos; lia).
  assert (Hn0 : 0 < n).
  { apply (pow2_sign n _ (ez + 1074)) in Hn; [| lia]. lia. }
  destruct (Z_lt_le_dec n (2 ^ 53)) as [Hs | Hl].
  - (* exact *)
    destruct (normalize_small n ez ltac:(lia) ltac:(lia))
      as [m' [e' [E' [Hb [Hle Hv]]]]].
    exists m', e'. fold P in Hv.
    repeat split; try assumption; lia.
  - (* rounded *)
    destruct n as [| p | p]; try lia.
    pose proof (digits_large p Hl) as Hd.
    destruct (binary_round_inexact false p ez ltac:(lia) Hd)
      as [Hq [m1 [Hm1 Er]]].
    cbn [binary_normalize]. rewrite Er. clear Er E.
    set (k := digits p - 53) in *. set (q := Zpos p / 2 ^ k) in *.
    assert (Hk : 0 < k) by (unfold k; lia).
    (* x and y on the unit of the difference *)
    assert (HX : Zpos mx * 2 ^ (ex + 1074) = Zpos mx * 2 ^ (ex - ez) * P).
    { unfold P. rewrite (pow2_scale ex ez) by lia. ring. }
    assert (HY : Zpos my * 2 ^ (ey + 1074) = Zpos my * 2 ^ (ey - ez) * P).
    { unfold P. rewrite (pow2_scale ey ez) by lia. ring. }
    assert (Hpx : Zpos p < Zpos mx * 2 ^ (ex - ez)).
    { apply (mul_lt_cancel _ _ P HP). lia. }
    assert (Hkx : k <= ex - ez).
    { assert (0 < Zpos mx * 2 ^ (ex - ez))
        by (apply Z.mul_pos_pos; [lia | apply pow2_pos; lia]).
      destruct (Zpos mx * 2 ^ (ex - ez)) as [| X | X] eqn:EX; try lia.
      pose proof (digits_mono p X ltac:(lia)).
      pose proof (digits_shift mx X (ex - ez) ltac:(lia) (eq_sym EX)) as DX.
      unfold k. lia. }
    assert (Hezy' : ey = ez) by lia.
    subst ey. clear HY.
    set (u := 2 ^ k) in *.
    assert (Hu : 2 <= u).
    { unfold u. change 2 with (2 ^ 1) at 1. apply pow2_le. lia. }
    set (X' := Zpos mx * 2 ^ (ex - ez - k)).
    assert (HX' : Zpos mx * 2 ^ (ex - ez) = X' * u).
    { unfold X', u. rewrite <- Z.mul_assoc, pow2_join by lia.
      f_equal. f_equal. lia. }
    assert (Hp : Zpos p = X' * u - Zpos my).
    { apply (pow2_cancel _ _ (ez + 1074)); [lia |]. fold P.
      rewrite Hn, HX, HX'. fold P. ring. }
    assert (Hdiv : X' * u - Zpos my = q * u + Zpos p mod u).
    { rewrite <- Hp. unfold q. rewrite (Z.mul_comm _ u).
      apply Z.div_mod. lia. }
    assert (Hr : 0 <= Zpos p mod u < u) by (apply Z.mod_pos_bound; lia).
    destruct (quotient_gap X' u (Zpos my) q (Zpos p mod u) (2 ^ 52)
                Hu ltac:(change (2 * 2 ^ 52) with (2 ^ 53); lia)
                ltac:(lia) Hdiv Hr) as [HXq HXq'].
    set (W := u * P).
    assert (HW : 0 < W) by (apply Z.mul_pos_pos; lia).
    assert (Hu1 : 2 ^ (ez + k + 1074) = W).
    { unfold W, u, P. rewrite pow2_join by lia. f_equal. lia. }
    assert (Hu2 : 2 ^ (ez + k + 1 + 1074) = 2 * W).
    { rewrite <- Hu1. rewrite <- Z.pow_succ_r by lia. f_equal. lia. }
    assert (HXW : Zpos mx * 2 ^ (ex + 1074) = X' * W).
    { rewrite HX, HX'. unfold W. ring. }
    rewrite HXW. clear HX Hlt Hn HXW Hdiv Hr Hp Hpx.
    change (2 ^ 52) with 4503599627370496 in *.
    change (2 ^ 53) with 9007199254740992 in *.
    destruct (Z.ltb_spec (Zpos m1) 9007199254740992) as [Hlt1 | Hge1].
    + destruct (Z.leb_spec (ez + k) 971) as [_ | Hbad]; [| lia].
      exists m1, (ez + k).
      assert (Dm : digits m1 = 53)
        by (apply digits_unique; change (2 ^ (53 - 1)) with 4503599627370496;
            change (2 ^ 53) with 9007199254740992; lia).
      rewrite Hu1. split; [reflexivity |].
      split; [apply bounded_iff; lia |].
      split; [lia |].
      split; [apply mul_le_scale; lia |].
      right. rewrite <- Z.mul_sub_distr_r. apply mul_lt_scale; lia.
    + assert (Em1 : Zpos m1 = 9007199254740992) by lia.
      assert (Hex : ex - ez - k >= 1).
      { destruct (Z_le_gt_dec 1 (ex - ez - k)); [lia |].
        assert (E0 : ex - ez - k = 0) by lia.
        unfold X' in HXq. rewrite E0 in HXq.
        cbn [Z.pow] in HXq. lia. }
      destruct (Z.leb_spec (ez + k + 1) 971) as [_ | Hbad]; [| lia].
      exists (Z.to_pos (2 ^ 52)), (ez + k + 1).
      rewrite Hu2. split; [reflexivity |].
      split; [apply bounded_iff; change (digits (Z.to_pos (2 ^ 52))) with 53; lia |].
      split; [lia |].
      change (Zpos (Z.to_pos (2 ^ 52))) with 4503599627370496.
      replace (4503599627370496 * (2 * W)) with (9007199254740992 * W) by ring.
      split; [apply mul_le_scale; lia |].
      right.
      replace (9007199254740992 * (2 * W)) with (18014398509481984 * W) by ring.
      rewrite <- Z.mul_sub_distr_r. apply mul_lt_scale; lia.
Qed.

(** *** Adding the difference back *)

(** Adding back what a subtraction left: the sum of two positive numbers
    whose values add up to a binary64 number is that number. *)
Lemma add_exact (mc : positive) (ec : Z) (mf : positive) (ef : Z)
    (mx : positive) (ex : Z) :
  bounded prec emax mc ec = true -> bounded prec emax mf ef = true ->
  bounded prec emax mx ex = true ->
  Zpos mc * 2 ^ (ec + 1074) + Zpos mf * 2 ^ (ef + 1074)
  = Zpos mx * 2 ^ (ex + 1074) ->
  SF64add (S754_finite false mc ec) (S754_finite false mf ef)
  = S754_finite false mx ex.
Proof.
  intros Bc Bf Bx Hv.
  pose proof Bc as Bc'. pose proof Bf as Bf'. apply bounded_iff in Bc', Bf'.
  destruct (SFadd_finite false mc ec false mf ef) as [n [E Hn]]; try lia.
  rewrite E. cbn [SFval] in Hn. rewrite !Z.mul_1_l in Hn.
  pose proof (mag_pos mc ec ltac:(lia)). pose proof (mag_pos mf ef ltac:(lia)).
  assert (Hn0 : 0 < n).
  { apply (pow2_sign n _ (Z.min ec ef + 1074)) in Hn; [| lia]. lia. }
  apply normalize_exact; try assumption; lia.
Qed.

(** The two-stage split of a positive binary64 number [x] by a positive
    [y < x]: [c = x - y] rounded, [f = x - c]; then [f] is exact, not
    negative, and [c + f] is [x] again. *)
Lemma split_sum (mx : positive) (ex : Z) (my : positive) (ey : Z) :
  bounded prec emax mx ex = true -> bounded prec emax my ey = true ->
  Zpos my * 2 ^ (ey + 1074) < Zpos mx * 2 ^ (ex + 1074) ->
  let x := S754_finite false mx ex in
  let c := SF64sub x (S754_finite false my ey) in
  let f := SF64sub x c in
  valid_binary c = true /\ SFfinite c = true
  /\ valid_binary f = true /\ SFfinite f = true
  /\ 0 < SFval c <= SFval x
  /\ SFval c + SFval f = SFval x
  /\ SF64add c f = x.
Proof.
  intros Bx By Hlt. cbv zeta.
  destruct (sub_round mx ex my ey Bx By Hlt)
    as [mc [ec [Ec [Bc [Hec [Hle Hcase]]]]]].
  pose proof Bx as Bx'. pose proof Bc as Bc'. pose proof By as By'.
  apply bounded_iff in Bx', Bc', By'.
  pose proof (mag_pos mc ec ltac:(lia)) as Hc0.
  pose proof (mag_pos my ey ltac:(lia)) as Hy0.
  rewrite Ec.
  destruct (SFsub_finite false mx ex false mc ec) as [n [E Hn]]; try lia.
  rewrite E. cbn [SFval] in Hn |- *. rewrite !Z.mul_1_l in Hn |- *.
  replace (Z.min ex ec) with ec in * by lia.
  destruct (Z.eq_dec (Zpos mc * 2 ^ (ec + 1074)) (Zpos mx * 2 ^ (ex + 1074)))
    as [Heq | Hne].
  - (* the difference rounded up to x itself *)
    destruct (bounded_unique mc ec mx ex Bc Bx Heq) as [-> ->].
    assert (n = 0) by (apply (pow2_cancel _ _ (ex + 1074)); lia).
    subst n. cbn [binary_normalize valid_binary SFfinite SFval].
    repeat split; auto; lia.
  - assert (Hn0 : 0 < n).
    { apply (pow2_sign n _ (ec + 1074)) in Hn; [| lia]. lia. }
    assert (Hf : exists (mf : positive) (ef : Z),
               binary_normalize prec emax n ec false = S754_finite false mf ef
               /\ bounded prec emax mf ef = true
               /\ Zpos mf * 2 ^ (ef + 1074) = n * 2 ^ (ec + 1074)).
    { destruct Hcase as [[Hecy Hexact] | Hgap].
      - exists my, ey. split; [| split; [assumption | lia]].
        apply normalize_exact; try assumption; lia.
      - assert (n < 2 ^ 53).
        { apply (mul_lt_cancel _ _ (2 ^ (ec + 1074))); [apply pow2_pos|]; lia. }
        destruct (normalize_small n ec ltac:(lia) ltac:(lia))
          as [mf [ef [E' [Bf [_ Hv]]]]].
        exists mf, ef. auto. }
    destruct Hf as [mf [ef [Ef [Bf Hv]]]]. rewrite Ef.
    cbn [valid_binary SFfinite SFval]. rewrite !Z.mul_1_l.
    repeat split; auto; try lia.
    apply add_exact; auto. lia.
Qed.

End Binary64.

(** *** Primitive floats, through their specification *)

Lemma zero_spec : Prim2SF 0 = S754_zero false.
Proof. reflexivity. Qed.

Lemma infinity_spec : Prim2SF infinity = S754_infinity false.
Proof. reflexivity. Qed.

Lemma leb_zero_zero : (0 <=? 0)%float = true.
Proof. reflexivity. Qed.

(** [t <= o] makes [t - o] not positive. *)
Lemma sub_not_pos (t o : float) :
  (t <=? o)%float = true -> (0 <? t - o)%float = false.
Proof.
  rewrite leb_spec, ltb_spec, sub_spec, zero_spec.
  apply SFsub_le; apply Prim2SF_valid.
Qed.

(** [o < t] makes [t - o] positive. *)
Lemma sub_pos (t o : float) :
  (o <? t)%float = true -> (0 <? t - o)%float = true.
Proof.
  rewrite !ltb_spec, sub_spec, zero_spec.
  apply SFsub_gt; apply Prim2SF_valid.
Qed.

Lemma pos_not_le (x : float) :
  (0 <? x)%float = true -> (x <=? 0)%float = false.
Proof.
  rewrite ltb_spec, leb_spec, zero_spec.
  destruct (Prim2SF x) as [[] | [] | | [] m e]; cbn; congruence.
Qed.

(** A positive number below infinity is a finite one, with a sign bit off. *)
Lemma finite_pos_shape (x : spec_float) :
  valid_binary x = true ->
  SFltb (S754_zero false) x = true -> SFltb x (S754_infinity false) = true ->
  exists (m : positive) (e : Z),
    x = S754_finite false m e /\ bounded prec emax m e = true.
Proof.
  intros V Hp Hf.
  destruct x as [[] | [] | | [] m e]; try discriminate.
  exists m, e. split; [reflexivity | exact V].
Qed.

Lemma SFltb_val (x y : spec_float) :
  valid_binary x = true -> valid_binary y = true ->
  SFfinite x = true -> SFfinite y = true ->
  SFltb x y = true <-> (SFval x < SFval y)%Z.
Proof.
  intros Vx Vy Fx Fy. unfold SFltb. rewrite SFcompare_val by assumption.
  destruct (Z.compare_spec (SFval x) (SFval y)); split;
    intros; try discriminate; try reflexivity; lia.
Qed.

Lemma SFleb_val (x y : spec_float) :
  valid_binary x = true -> valid_binary y = true ->
  SFfinite x = true -> SFfinite y = true ->
  SFleb x y = true <-> (SFval x <= SFval y)%Z.
Proof.
  intros Vx Vy Fx Fy. unfold SFleb. rewrite SFcompare_val by assumption.
  destruct (Z.compare_spec (SFval x) (SFval y)); split;
    intros; try discriminate; try reflexivity; lia.
Qed.

(** A finite [t] and an [o] with [0 < o < t] are two positive finite
    numbers. *)
Lemma operands_shape (t o : float) :
  (t <? infinity)%float = true ->
  (0 <? o)%float = true -> (o <? t)%float = true ->
  exists (mx : positive) (ex : Z) (my : positive) (ey : Z),
    Prim2SF t = S754_finite false mx ex /\ bounded prec emax mx ex = true
    /\ Prim2SF o = S754_finite false my ey /\ bounded prec emax my ey = true
    /\ (Zpos my * 2 ^ (ey + 1074) < Zpos mx * 2 ^ (ex + 1074))%Z.
Proof.
  intros Hfin Ho Hot.
  rewrite !ltb_spec, ?zero_spec, ?infinity_spec in *.
  pose proof (Prim2SF_valid t) as Vt. pose proof (Prim2SF_valid o) as Vo.
  assert (So : exists (m : positive) (e : Z),
             Prim2SF o = S754_finite false m e /\ bounded prec emax m e = true).
  { apply finite_pos_shape; [assumption | assumption |].
    destruct (Prim2SF o) as [[] | [] | | [] m e];
      try discriminate; try reflexivity.
    destruct (Prim2SF t) as [[] | [] | | [] m' e']; discriminate. }
  destruct So as [my [ey [Ey By]]]. rewrite Ey in *.
  assert (St : exists (m : positive) (e : Z),
             Prim2SF t = S754_finite false m e /\ bounded prec emax m e = true).
  { apply finite_pos_shape; [assumption | | assumption].
    destruct (Prim2SF t) as [[] | [] | | [] m e];
      try discriminate; reflexivity. }
  destruct St as [mx [ex [Ex Bx]]]. rewrite Ex in *.
  apply SFltb_val in Hot; try assumption; try reflexivity.
  cbn [SFval] in Hot. rewrite !Z.mul_1_l in Hot.
  exists mx, ex, my, ey. auto.
Qed.

(** The two-stage split in binary64. For a finite [t] and [0 < o < t], with
    [c = t - o] and [f = t - c] as the code computes them: [c] is positive
    and at most [t], [f] is not negative, and [c + f] is [t] again. *)
Lemma split_float (t o : float) :
  (t <? infinity)%float = true ->
  (0 <? o)%float = true -> (o <? t)%float = true ->
  let c := (t - o)%float in
  let f := (t - c)%float in
  (c + f)%float = t
  /\ (0 <? c)%float = true /\ (c <=? t)%float = true
  /\ (0 <=? f)%float = true /\ (f <? infinity)%float = true.
Proof.
  intros Hfin Ho Hot. cbv zeta.
  destruct (operands_shape t o Hfin Ho Hot)
    as [mx [ex [my [ey [Ex [Bx [Ey [By Hlt]]]]]]]].
  destruct (split_sum mx ex my ey Bx By Hlt)
    as [Vc [Fc [Vf [Ff [[Hc0 Hct] [Hsum Hadd]]]]]].
  rewrite !ltb_spec, !leb_spec, ?zero_spec, ?infinity_spec.
  rewrite !sub_spec, Ex, Ey.
  set (c := SF64sub (S754_finite false mx ex) (S754_finite false my ey)) in *.
  set (f := SF64sub (S754_finite false mx ex) c) in *.
  assert (Hf0 : (0 <= SFval f)%Z) by lia.
  split.
  { apply Prim2SF_inj. rewrite add_spec, !sub_spec, Ex, Ey. exact Hadd. }
  split.
  { apply SFltb_val; try assumption; reflexivity. }
  split.
  { apply SFleb_val; try assumption; reflexivity. }
  split.
  { apply SFleb_val; try assumption; reflexivity. }
  destruct f as [[] | [] | | [] m e]; try discriminate; reflexivity.
Qed.

(** The fine seek is the offset exactly when the difference [t - o] is
    exact. *)
Lemma split_exact (t o : float) :
  (t <? infinity)%float = true ->
  (0 <? o)%float = true -> (o <? t)%float = true ->
  (t - (t - o))%float = o <->
  SFval (Prim2SF (t - o)) = (SFval (Prim2SF t) - SFval (Prim2SF o))%Z.
Proof.
  intros Hfin Ho Hot.
  destruct (operands_shape t o Hfin Ho Hot)
    as [mx [ex [my [ey [Ex [Bx [Ey [By Hlt]]]]]]]].
  destruct (split_sum mx ex my ey Bx By Hlt)
    as [Vc [Fc [Vf [Ff [[Hc0 Hct] [Hsum _]]]]]].
  assert (Hy : (-1074 <= ey)%Z) by (apply bounded_iff in By; lia).
  pose proof (mag_pos my ey Hy) as Hy0.
  rewrite sub_spec, Ex, Ey.
  set (c := SF64sub (S754_finite false mx ex) (S754_finite false my ey)) in *.
  set (f := SF64sub (S754_finite false mx ex) c) in *.
  assert (Ef : Prim2SF (t - (t - o)) = f).
  { rewrite !sub_spec, Ex, Ey. reflexivity. }
  split.
  - intros E. rewrite E, Ey in Ef. rewrite <- Ef in Hsum.
    apply Z.add_move_r. exact Hsum.
  - intros E. apply Prim2SF_inj. rewrite Ef, Ey.
    assert (Hv : SFval f = (Zpos my * 2 ^ (ey + 1074))%Z).
    { cbn [SFval] in E, Hsum. lia. }
    destruct f as [s | s | | s m e]; try discriminate; cbn [SFval] in Hv.
    + lia.
    + assert (He : (-1074 <= e)%Z) by (apply bounded_iff in Vf; lia).
      pose proof (mag_pos m e He).
      destruct s; [lia |]. rewrite Z.mul_1_l in Hv.
      destruct (bounded_unique m e my ey Vf By Hv) as [-> ->]. reflexivity.
Qed.

(** *** The guard of the two-stage branch *)

Lemma guard_off_le (t o : float) :
  (t <=? o)%float = true -> two_stage_guard t o = false.
Proof.
  intros H. unfold two_stage_guard, py_max.
  rewrite (sub_not_pos t o H), leb_zero_zero. reflexivity.
Qed.

Lemma guard_off_offset (t o : float) :
  (o <=? 0)%float = true -> two_stage_guard t o = false.
Proof.
  intros H. unfold two_stage_guard. rewrite H, orb_true_r. reflexivity.
Qed.

Lemma guard_on (t o : float) :
  (0 <? o)%float = true -> (o <? t)%float = true ->
  two_stage_guard t o = true /\ py_max 0 (t - o) = (t - o)%float.
Proof.
  intros Ho Hot. pose proof (sub_pos t o Hot) as Hd.
  unfold two_stage_guard, py_max. rewrite Hd.
  rewrite (pos_not_le _ Hd), (pos_not_le _ Ho). split; reflexivity.
Qed.

(** What the two-stage branch knows when it is taken, for a finite [t] that
    is not negative: [0 < o < t]. *)
Lemma guard_inv (t o : float) :
  (0 <=? t)%float = true -> (t <? infinity)%float = true ->
  two_stage_guard t o = true ->
  (0 <? o)%float = true /\ (o <? t)%float = true.
Proof.
  intros Ht Hfin Hg. unfold two_stage_guard, py_max in Hg.
  apply negb_true_iff, orb_false_iff in Hg. destruct Hg as [Hpre Hoff].
  destruct (0 <? t - o)%float eqn:Hd;
    [| rewrite leb_zero_zero in Hpre; discriminate].
  assert (Hle : (t <=? o)%float = false).
  { destruct (t <=? o)%float eqn:E; [| reflexivity].
    rewrite (sub_not_pos t o E) in Hd. discriminate. }
  clear Hpre.
  rewrite !ltb_spec, ?leb_spec, ?zero_spec, ?infinity_spec, ?sub_spec in *.
  pose proof (Prim2SF_valid t) as Vt. pose proof (Prim2SF_valid o) as Vo.
  destruct (Prim2SF t) as [[] | [] | | [] mx ex] eqn:Et; try discriminate;
    destruct (Prim2SF o) as [[] | [] | | [] my ey] eqn:Eo; try discriminate.
  split; [reflexivity |].
  apply SFltb_val; try assumption; try reflexivity.
  destruct (Z_lt_le_dec (SFval (S754_finite false my ey))
              (SFval (S754_finite false mx ex))) as [| Hc]; [assumption |].
  apply SFleb_val in Hc; try assumption; try reflexivity.
  rewrite Hc in Hle. discriminate.
Qed.

(** *** The plans of the optimized thumbnail *)

Lemma thumb2_single_spawned w vp ip frames threads o timeout eo tr secs :
  truthy vp = true -> truthy ip = true ->
  truthy_opt (shutil_which w "ffmpeg") = true ->
  effective_switch w eo = true ->
  _time_str_to_seconds (effective_frames frames) = Some secs ->
  two_stage_guard secs o = false ->
  spawned (snd (FfmpegHelper2.get_thumb w vp ip frames threads o timeout eo tr))
  = spawned tr ++ [plan_command vp ip threads (PreciseSeek (FloatStr secs))]
  /\ shelled (snd (FfmpegHelper2.get_thumb w vp ip frames threads o timeout eo tr))
     = shelled tr.
Proof.
  intros Hv Hi Hw Hs Hp Hg.
  rewrite (thumb2_single w vp ip frames threads o timeout eo tr secs)
    by assumption.
  rewrite run_cmd_eq. cbn [snd].
  split; [apply spawned_after_run | apply shelled_after_run].
Qed.

Lemma thumb2_two_stage_spawned w vp ip frames threads o timeout eo tr secs :
  truthy vp = true -> truthy ip = true ->
  truthy_opt (shutil_which w "ffmpeg") = true ->
  effective_switch w eo = true ->
  _time_str_to_seconds (effective_frames frames) = Some secs ->
  two_stage_guard secs o = true ->
  let coarse := py_max 0 (secs - o) in
  let two := plan_command vp ip threads
               (TwoStage (FloatStr coarse) (FloatStr (secs - coarse))) in
  let fb := plan_command vp ip threads (PreciseSeek (FloatStr secs)) in
  exists rest,
    spawned (snd (FfmpegHelper2.get_thumb w vp ip frames threads o timeout eo tr))
    = spawned tr ++ two :: rest
    /\ (rest = [] \/ rest = [fb]).
Proof.
  intros Hv Hi Hw Hs Hp Hg coarse two fb.
  rewrite (thumb2_two_stage w vp ip frames threads o timeout eo tr secs)
    by assumption.
  fold coarse. fold two. fold fb.
  destruct (succeeded (process w tr two (Some timeout))); cbn [snd].
  - exists []. split; [apply spawned_after_run | left; reflexivity].
  - exists [fb]. split; [| right; reflexivity].
    rewrite !spawned_after_run, <- app_assoc. reflexivity.
Qed.

Lemma plans_differ vp ip threads seek coarse fine :
  plan_command vp ip threads (PreciseSeek seek)
  <> plan_command vp ip threads (TwoStage coarse fine).
Proof. cbn. intros H. inversion H. Qed.

(** C3. For a parsed timestamp [t] and an offset [o]: when [t <= o] or
    [o <= 0], the optimized path (of both classes) runs one command, the
    single precise seek, [-ss] after [-i], at [t]; when the switch is off,
    [FfmpegHelper2.get_thumb] spawns nothing and hands the shell one command
    line, with one [-ss] after [-i], at the timestamp itself. In no case is
    the command a two-stage one. *)
Theorem degenerate_plan_is_single_seek :
  forall (w : world) (vp ip : string) (frames : option string) (threads : Z)
         (o : float) (timeout : Z) (eo : option bool) (tr : trace) (t : float),
    truthy vp = true -> truthy ip = true ->
    truthy_opt (shutil_which w "ffmpeg") = true ->
    _time_str_to_seconds (effective_frames frames) = Some t ->
    (t <=? o)%float = true \/ (o <=? 0)%float = true
    \/ effective_switch w eo = false ->
    let single := plan_command vp ip threads (PreciseSeek (FloatStr t)) in
    let legacy := legacy_command vp (effective_frames frames) ip in
    let out2 := FfmpegHelper2.get_thumb w vp ip frames threads o timeout eo tr in
    let out := FfmpegHelper.get_thumb w vp ip frames threads o timeout tr in
    (effective_switch w eo = true ->
       out2 = FfmpegHelper2._run_cmd w single timeout tr
       /\ spawned (snd out2) = spawned tr ++ [single]
       /\ shelled (snd out2) = shelled tr)
    /\ (effective_switch w eo = false ->
       snd out2 = tr ++ [Shell legacy]
       /\ spawned (snd out2) = spawned tr
       /\ shelled (snd out2) = shelled tr ++ [legacy])
    /\ ((t <=? o)%float = true \/ (o <=? 0)%float = true ->
       out = FfmpegHelper._run_cmd w single timeout tr
       /\ spawned (snd out) = spawned tr ++ [single]
       /\ shelled (snd out) = shelled tr)
    /\ (forall coarse fine : arg,
          ~ In (plan_command vp ip threads (TwoStage coarse fine))
               [single]).
Proof.
  intros w vp ip frames threads o timeout eo tr t Hv Hi Hw Hp Hcase
    single legacy out2 out.
  assert (Hg : (t <=? o)%float = true \/ (o <=? 0)%float = true ->
               two_stage_guard t o = false).
  { intros [H | H]; [apply guard_off_le | apply guard_off_offset]; exact H. }
  assert (Hopt : forall eo', effective_switch w eo' = true ->
            (t <=? o)%float = true \/ (o <=? 0)%float = true ->
            FfmpegHelper2.get_thumb w vp ip frames threads o timeout eo' tr
            = FfmpegHelper2._run_cmd w single timeout tr
            /\ spawned (snd (FfmpegHelper2.get_thumb w vp ip frames threads o
                               timeout eo' tr)) = spawned tr ++ [single]
            /\ shelled (snd (FfmpegHelper2.get_thumb w vp ip frames threads o
                               timeout eo' tr)) = shelled tr).
  { intros eo' Hs H. split.
    - apply thumb2_single; auto.
    - apply thumb2_single_spawned; auto. }
  split; [| split; [| split]].
  - intros Hs. apply Hopt; [exact Hs |].
    destruct Hcase as [H | [H | H]]; [auto | auto | congruence].
  - intros Hs. unfold out2.
    rewrite (thumb2_legacy w vp ip frames threads o timeout eo tr)
      by assumption.
    cbn [snd]. fold legacy. rewrite spawned_app, shelled_app. cbn.
    rewrite app_nil_r. auto.
  - intros H. unfold out.
    rewrite (thumb_free_is_thumb2 w vp ip frames threads o timeout (Some true))
      by reflexivity.
    rewrite run_cmd_same. apply Hopt; [reflexivity | exact H].
  - intros coarse fine [H | []]. exact (plans_differ _ _ _ _ _ _ H).
Qed.

Lemma degenerate_plan_is_single_seek_witness :
  spawned (snd (FfmpegHelper2.get_thumb
                  (fixed_world true None (exit_with 0) (inl JNull))
                  "movie.mkv" "thumb.jpg" (Some "00:00:01") 1 2%float 30
                  None []))
  = [plan_command "movie.mkv" "thumb.jpg" 1 (PreciseSeek (FloatStr 1%float))].
Proof.
  pose proof (degenerate_plan_is_single_seek
                (fixed_world true None (exit_with 0) (inl JNull))
                "movie.mkv" "thumb.jpg" (Some "00:00:01") 1 2%float 30 None []
                1%float eq_refl eq_refl eq_refl
                ltac:(vm_compute; reflexivity) (or_introl eq_refl)) as H.
  cbv zeta in H. destruct H as [H _].
  destruct (H eq_refl) as [_ [H' _]]. exact H'.
Defined.

(** C2, as amended. For a parsed timestamp [t] below infinity and an offset
    [o] with [0 < o < t], [get_thumb] (of both classes, the switch on) first
    runs the two-stage command whose coarse seek, before [-i], is the
    binary64 difference [t - o] and whose fine seek, after [-i], is
    [t - coarse]; the binary64 sum [coarse + fine] is [t] exactly, the coarse
    seek is positive and the fine seek is not negative. The fine seek is [o]
    exactly when the difference [t - o] needs no rounding ([SFval] is the
    value of a number in units of [2^-1074]). *)
Theorem two_stage_split :
  forall (w : world) (vp ip : string) (frames : option string) (threads : Z)
         (o : float) (timeout : Z) (eo : option bool) (tr : trace) (t : float),
    truthy vp = true -> truthy ip = true ->
    truthy_opt (shutil_which w "ffmpeg") = true ->
    effective_switch w eo = true ->
    _time_str_to_seconds (effective_frames frames) = Some t ->
    (t <? infinity)%float = true ->
    (0 <? o)%float = true -> (o <? t)%float = true ->
    let coarse := (t - o)%float in
    let fine := (t - coarse)%float in
    let two := plan_command vp ip threads
                 (TwoStage (FloatStr coarse) (FloatStr fine)) in
    two_stage_guard t o = true
    /\ (exists rest,
          spawned (snd (FfmpegHelper2.get_thumb w vp ip frames threads o
                          timeout eo tr)) = spawned tr ++ two :: rest)
    /\ (exists rest,
          spawned (snd (FfmpegHelper.get_thumb w vp ip frames threads o
                          timeout tr)) = spawned tr ++ two :: rest)
    /\ (coarse + fine)%float = t
    /\ (0 <? coarse)%float = true
    /\ (0 <=? fine)%float = true
    /\ (fine = o <->
        SFval (Prim2SF coarse)
        = (SFval (Prim2SF t) - SFval (Prim2SF o))%Z).
Proof.
  intros w vp ip frames threads o timeout eo tr t Hv Hi Hw Hs Hp Hfin Ho Hot
    coarse fine two.
  pose proof (split_exact t o Hfin Ho Hot) as Hexact.
  destruct (guard_on t o Ho Hot) as [Hg Hmax].
  destruct (split_float t o Hfin Ho Hot) as [Hsum [Hc [_ [Hf _]]]].
  assert (H2 : exists rest,
            spawned (snd (FfmpegHelper2.get_thumb w vp ip frames threads o
                            timeout eo tr)) = spawned tr ++ two :: rest).
  { destruct (thumb2_two_stage_spawned w vp ip frames threads o timeout eo tr t
                Hv Hi Hw Hs Hp Hg) as [rest [E _]].
    rewrite Hmax in E. exists rest. exact E. }
  split; [exact Hg |]. split; [exact H2 |]. split.
  { rewrite (thumb_free_is_thumb2 w vp ip frames threads o timeout eo)
      by exact Hs.
    exact H2. }
  split; [exact Hsum |]. split; [exact Hc |].
  split; [exact Hf | exact Hexact].
Qed.

Lemma two_stage_split_witness :
  (603 + 2)%float = 605%float
  /\ exists rest,
       spawned (snd (FfmpegHelper.get_thumb
                       (fixed_world true None (exit_with 0) (inl JNull))
                       "movie.mkv" "thumb.jpg" (Some "00:10:05") 1 2%float 30
                       []))
       = plan_command "movie.mkv" "thumb.jpg" 1
           (TwoStage (FloatStr 603%float) (FloatStr 2%float)) :: rest.
Proof.
  pose proof (two_stage_split
                (fixed_world true None (exit_with 0) (inl JNull))
                "movie.mkv" "thumb.jpg" (Some "00:10:05") 1 2%float 30 None []
                605%float eq_refl eq_refl eq_refl eq_refl
                ltac:(vm_compute; reflexivity) eq_refl eq_refl eq_refl) as H.
  cbv zeta in H. destruct H as [_ [_ [H [Hsum _]]]].
  split; [exact Hsum | exact H].
Defined.

(** The fine seek of the two-stage plan is not the offset: at ["1"] with the
    offset [0.1] it is [0.09999999999999998]; and at ["inf"] the coarse seek
    is infinite and the fine seek is not a number. *)
Lemma fine_seek_differs_from_offset :
  (_time_str_to_seconds "1" = Some 1%float
   /\ (0 <? 0.1)%float = true /\ (0.1 <? 1)%float = true
   /\ spawned (snd (FfmpegHelper2.get_thumb
                      (fixed_world true None (exit_with 0) (inl JNull))
                      "movie.mkv" "thumb.jpg" (Some "1") 1 0.1%float 30
                      None []))
      = [plan_command "movie.mkv" "thumb.jpg" 1
           (TwoStage (FloatStr 0.9%float)
                     (FloatStr 0.09999999999999998%float))]
   /\ (0.09999999999999998 =? 0.1)%float = false
   /\ (0.09999999999999998 <? 0.1)%float = true)
  /\ (_time_str_to_seconds "inf" = Some infinity
      /\ (0 <? 2)%float = true /\ (2 <? infinity)%float = true
      /\ spawned (snd (FfmpegHelper2.get_thumb
                         (fixed_world true None (exit_with 0) (inl JNull))
                         "movie.mkv" "thumb.jpg" (Some "inf") 1 2%float 30
                         None []))
         = [plan_command "movie.mkv" "thumb.jpg" 1
              (TwoStage (FloatStr infinity) (FloatStr nan))]
      /\ (nan =? 2)%float = false
      /\ (infinity + nan =? infinity)%float = false).
Proof. vm_compute. repeat split. Qed.

Lemma nonneg_plans_single (t : float) :
  (0 <=? t)%float = true ->
  forall p, In p [PreciseSeek (FloatStr t)] ->
            Forall nonneg_seek (plan_seeks p).
Proof.
  intros Ht p [<- | []]. cbn. repeat constructor. exact Ht.
Qed.

(** C4, as amended. For a timestamp that the parser accepts with a value [t]
    that is finite and not negative, and for every offset, every command that
    the optimized path of [get_thumb] spawns (of both classes) is the command
    of a plan, two-stage or single, whose seek arguments are all numbers that
    are not negative. *)
Theorem seeks_not_negative :
  forall (w : world) (vp ip : string) (frames : option string) (threads : Z)
         (o : float) (timeout : Z) (eo : option bool) (tr : trace) (t : float),
    effective_switch w eo = true ->
    _time_str_to_seconds (effective_frames frames) = Some t ->
    (0 <=? t)%float = true -> (t <? infinity)%float = true ->
    (exists plans,
        spawned (snd (FfmpegHelper2.get_thumb w vp ip frames threads o
                        timeout eo tr))
        = spawned tr ++ map (plan_command vp ip threads) plans
        /\ forall p, In p plans -> Forall nonneg_seek (plan_seeks p))
    /\ (exists plans,
        spawned (snd (FfmpegHelper.get_thumb w vp ip frames threads o
                        timeout tr))
        = spawned tr ++ map (plan_command vp ip threads) plans
        /\ forall p, In p plans -> Forall nonneg_seek (plan_seeks p)).
Proof.
  intros w vp ip frames threads o timeout eo tr t Hs Hp Ht Hfin.
  rewrite (thumb_free_is_thumb2 w vp ip frames threads o timeout eo)
    by exact Hs.
  assert (H : exists plans,
        spawned (snd (FfmpegHelper2.get_thumb w vp ip frames threads o
                        timeout eo tr))
        = spawned tr ++ map (plan_command vp ip threads) plans
        /\ forall p, In p plans -> Forall nonneg_seek (plan_seeks p));
    [| split; exact H].
  destruct (truthy vp) eqn:Hv; [destruct (truthy ip) eqn:Hi |].
  - destruct (truthy_opt (shutil_which w "ffmpeg")) eqn:Hw.
    + destruct (two_stage_guard t o) eqn:Hg.
      * destruct (guard_inv t o Ht Hfin Hg) as [Ho Hot].
        destruct (guard_on t o Ho Hot) as [_ Hmax].
        destruct (split_float t o Hfin Ho Hot) as [_ [Hc [_ [Hf _]]]].
        destruct (thumb2_two_stage_spawned w vp ip frames threads o timeout eo
                    tr t Hv Hi Hw Hs Hp Hg) as [rest [E Hrest]].
        rewrite Hmax in E.
        assert (Hc' : (0 <=? t - o)%float = true).
        { rewrite leb_spec. rewrite ltb_spec in Hc. unfold SFleb, SFltb in *.
          destruct (SFcompare (Prim2SF 0) (Prim2SF (t - o))) as [[] |];
            congruence. }
        destruct Hrest as [-> | ->].
        -- exists [TwoStage (FloatStr (t - o)) (FloatStr (t - (t - o)))].
           split; [exact E |].
           intros p [<- | []]. cbn. repeat constructor; assumption.
        -- exists [TwoStage (FloatStr (t - o)) (FloatStr (t - (t - o)));
                   PreciseSeek (FloatStr t)].
           split; [exact E |].
           intros p [<- | [<- | []]]; cbn; repeat constructor; assumption.
      * exists [PreciseSeek (FloatStr t)]. split.
        -- apply thumb2_single_spawned; assumption.
        -- apply nonneg_plans_single. exact Ht.
    + exists []. rewrite thumb2_not_found by assumption. cbn [snd map].
      rewrite spawned_app. cbn. split; [reflexivity | intros p []].
  - exists []. rewrite thumb2_refused by auto. cbn [snd map].
    rewrite app_nil_r. split; [reflexivity | intros p []].
  - exists []. rewrite thumb2_refused by auto. cbn [snd map].
    rewrite app_nil_r. split; [reflexivity | intros p []].
Qed.

Lemma seeks_not_negative_witness :
  exists plans,
    spawned (snd (FfmpegHelper2.get_thumb flaky_world
                    "movie.mkv" "thumb.jpg" (Some "00:10:05") 1 2%float 30
                    None []))
    = spawned [] ++ map (plan_command "movie.mkv" "thumb.jpg" 1) plans
    /\ forall p, In p plans -> Forall nonneg_seek (plan_seeks p).
Proof.
  pose proof (seeks_not_negative flaky_world
                "movie.mkv" "thumb.jpg" (Some "00:10:05") 1 2%float 30 None []
                605%float eq_refl ltac:(vm_compute; reflexivity)
                eq_refl eq_refl) as H.
  destruct H as [H _]. exact H.
Defined.

(** A timestamp the parser accepts and a negative seek: ["-5"] parses to
    [-5.0], which the single precise seek then carries; and at ["inf"] the
    fine seek of the two-stage plan is not a number. *)
Lemma negative_seek_produced :
  (_time_str_to_seconds "-5" = Some (-5)%float
   /\ spawned (snd (FfmpegHelper2.get_thumb
                      (fixed_world true None (exit_with 0) (inl JNull))
                      "movie.mkv" "thumb.jpg" (Some "-5") 1 2%float 30
                      None []))
      = [plan_command "movie.mkv" "thumb.jpg" 1
           (PreciseSeek (FloatStr (-5)%float))]
   /\ (-5 <? 0)%float = true
   /\ ~ nonneg_seek (FloatStr (-5)%float))
  /\ (_time_str_to_seconds "inf" = Some infinity
      /\ spawned (snd (FfmpegHelper2.get_thumb
                         (fixed_world true None (exit_with 0) (inl JNull))
                         "movie.mkv" "thumb.jpg" (Some "inf") 1 2%float 30
                         None []))
         = [plan_command "movie.mkv" "thumb.jpg" 1
              (TwoStage (FloatStr infinity) (FloatStr nan))]
      /\ ~ nonneg_seek (FloatStr nan)).
Proof.
  repeat split; try (vm_compute; reflexivity);
    intros H; vm_compute in H; discriminate.
Qed.

(** * More properties *)

(** *** More on traces *)

Lemma printed_app (a b : trace) : printed (a ++ b) = printed a ++ printed b.
Proof.
  induction a as [| ev a IH]; cbn; [reflexivity |].
  destruct ev; cbn; rewrite IH; reflexivity.
Qed.

Lemma run_options_app (a b : trace) :
  run_options (a ++ b) = run_options a ++ run_options b.
Proof.
  induction a as [| ev a IH]; cbn; [reflexivity |].
  destruct ev; cbn; rewrite IH; reflexivity.
Qed.

Lemma run_options_prints (ds : list diagnostic) :
  run_options (map Print ds) = [].
Proof. induction ds; cbn; auto. Qed.

Lemma printed_prints (ds : list diagnostic) : printed (map Print ds) = ds.
Proof. induction ds; cbn; congruence. Qed.

Lemma run_options_after_run w tr command timeout :
  run_options (after_run w tr command timeout)
  = run_options tr ++ [(Some timeout, true)].
Proof.
  unfold after_run. rewrite run_options_app. cbn.
  now rewrite run_options_prints.
Qed.

Lemma printed_after_run w tr command timeout :
  printed (after_run w tr command timeout)
  = printed tr ++ diagnosis w command (process w tr command (Some timeout)).
Proof.
  unfold after_run. rewrite printed_app. cbn. now rewrite printed_prints.
Qed.

(** *** The extractions *)

Lemma wav_free_is_wav2 w vp out index threads timeout eo tr :
  effective_switch w eo = true ->
  FfmpegHelper.extract_wav w vp out index threads timeout tr
  = FfmpegHelper2.extract_wav w vp out index threads timeout eo tr.
Proof.
  intros Hs. unfold FfmpegHelper.extract_wav, FfmpegHelper2.extract_wav.
  fold (effective_switch w eo). rewrite Hs.
  destruct (negb (truthy vp) || negb (truthy out)); reflexivity.
Qed.

Lemma subtitle_free_is_subtitle2 w vp out index threads timeout eo tr :
  effective_switch w eo = true ->
  FfmpegHelper.extract_subtitle w vp out index threads timeout tr
  = FfmpegHelper2.extract_subtitle w vp out index threads timeout eo tr.
Proof.
  intros Hs.
  unfold FfmpegHelper.extract_subtitle, FfmpegHelper2.extract_subtitle.
  fold (effective_switch w eo). rewrite Hs.
  destruct (negb (truthy vp) || negb (truthy out)); reflexivity.
Qed.

Lemma wav2_refused w vp out index threads timeout eo tr :
  truthy vp = false \/ truthy out = false
  \/ truthy_opt (shutil_which w "ffmpeg") = false ->
  refused (FfmpegHelper2.extract_wav w vp out index threads timeout eo tr) tr.
Proof.
  intros H. unfold refused, FfmpegHelper2.extract_wav, FfmpegHelper2._which.
  destruct (truthy vp); [destruct (truthy out) |]; cbn [negb orb];
    try solve [exists tr; auto].
  destruct (truthy_opt (shutil_which w "ffmpeg")).
  - destruct H as [H | [H | H]]; discriminate.
  - exists (tr ++ [Print (NotFound "ffmpeg")]). cbn.
    rewrite spawned_app, shelled_app. cbn. rewrite !app_nil_r. auto.
Qed.

Lemma subtitle2_refused w vp out index threads timeout eo tr :
  truthy vp = false \/ truthy out = false
  \/ truthy_opt (shutil_which w "ffmpeg") = false ->
  refused (FfmpegHelper2.extract_subtitle w vp out index threads timeout eo tr)
    tr.
Proof.
  intros H.
  unfold refused, FfmpegHelper2.extract_subtitle, FfmpegHelper2._which.
  destruct (truthy vp); [destruct (truthy out) |]; cbn [negb orb];
    try solve [exists tr; auto].
  destruct (truthy_opt (shutil_which w "ffmpeg")).
  - destruct H as [H | [H | H]]; discriminate.
  - exists (tr ++ [Print (NotFound "ffmpeg")]). cbn.
    rewrite spawned_app, shelled_app. cbn. rewrite !app_nil_r. auto.
Qed.

(** X1. [extract_wav] and [extract_subtitle], of both classes, return [False]
    and start nothing when the video path or the output path is empty, and
    when [ffmpeg] is not found on the search path. *)
Theorem extract_refuses_without_spawning :
  forall (w : world) (vp out : string) (index : option string)
         (threads timeout : Z) (eo : option bool) (tr : trace),
    truthy vp = false \/ truthy out = false
    \/ truthy_opt (shutil_which w "ffmpeg") = false ->
    refused (FfmpegHelper2.extract_wav w vp out index threads timeout eo tr) tr
    /\ refused (FfmpegHelper2.extract_subtitle w vp out index threads timeout
                  eo tr) tr
    /\ refused (FfmpegHelper.extract_wav w vp out index threads timeout tr) tr
    /\ refused (FfmpegHelper.extract_subtitle w vp out index threads timeout
                  tr) tr.
Proof.
  intros w vp out index threads timeout eo tr H.
  split; [apply wav2_refused; exact H |].
  split; [apply subtitle2_refused; exact H |].
  split.
  - rewrite (wav_free_is_wav2 w vp out index threads timeout (Some true))
      by reflexivity.
    apply wav2_refused; exact H.
  - rewrite (subtitle_free_is_subtitle2 w vp out index threads timeout
               (Some true)) by reflexivity.
    apply subtitle2_refused; exact H.
Qed.

Lemma extract_refuses_without_spawning_witness :
  refused (FfmpegHelper.extract_wav
             (fixed_world false None (exit_with 0) (inl JNull))
             "movie.mkv" "audio.wav" None 1 30 []) []
  /\ refused (FfmpegHelper2.extract_subtitle
                (fixed_world true None (exit_with 0) (inl JNull))
                "movie.mkv" "" (Some "0") 1 30 None []) [].
Proof.
  split.
  - exact (proj1 (proj2 (proj2
      (extract_refuses_without_spawning
         (fixed_world false None (exit_with 0) (inl JNull))
         "movie.mkv" "audio.wav" None 1 30 None []
         (or_intror (or_intror eq_refl)))))).
  - exact (proj1 (proj2
      (extract_refuses_without_spawning
         (fixed_world true None (exit_with 0) (inl JNull))
         "movie.mkv" "" (Some "0") 1 30 None []
         (or_intror (or_introl eq_refl))))).
Defined.

Lemma wav2_optimized w vp out index threads timeout eo tr :
  truthy vp = true -> truthy out = true ->
  truthy_opt (shutil_which w "ffmpeg") = true ->
  effective_switch w eo = true ->
  FfmpegHelper2.extract_wav w vp out index threads timeout eo tr
  = FfmpegHelper2._run_cmd w (wav_optimized_command vp out threads index)
      timeout tr.
Proof.
  intros Hv Ho Hw Hs. unfold FfmpegHelper2.extract_wav, FfmpegHelper2._which.
  rewrite Hv, Ho, Hw. cbn [negb orb]. fold (effective_switch w eo).
  rewrite Hs. cbn [negb]. destruct index; reflexivity.
Qed.

Lemma subtitle2_optimized w vp out index threads timeout eo tr :
  truthy vp = true -> truthy out = true ->
  truthy_opt (shutil_which w "ffmpeg") = true ->
  effective_switch w eo = true ->
  FfmpegHelper2.extract_subtitle w vp out index threads timeout eo tr
  = FfmpegHelper2._run_cmd w (subtitle_optimized_command vp out threads index)
      timeout tr.
Proof.
  intros Hv Ho Hw Hs.
  unfold FfmpegHelper2.extract_subtitle, FfmpegHelper2._which.
  rewrite Hv, Ho, Hw. cbn [negb orb]. fold (effective_switch w eo).
  rewrite Hs. cbn [negb]. destruct index; reflexivity.
Qed.

(** X2. With the optimizations on, [extract_wav] and [extract_subtitle] (of
    both classes) run one child, through the process runner: they never
    raise, they return [True] exactly when the child succeeded, and the child
    is started with the caller's timeout and with its output captured. *)
Theorem extract_optimized_runs_once :
  forall (w : world) (vp out : string) (index : option string)
         (threads timeout : Z) (eo : option bool) (tr : trace),
    truthy vp = true -> truthy out = true ->
    truthy_opt (shutil_which w "ffmpeg") = true ->
    effective_switch w eo = true ->
    let wav := wav_optimized_command vp out threads index in
    let sub := subtitle_optimized_command vp out threads index in
    FfmpegHelper2.extract_wav w vp out index threads timeout eo tr
      = (Ok (succeeded (process w tr wav (Some timeout))),
         after_run w tr wav timeout)
    /\ FfmpegHelper.extract_wav w vp out index threads timeout tr
      = (Ok (succeeded (process w tr wav (Some timeout))),
         after_run w tr wav timeout)
    /\ FfmpegHelper2.extract_subtitle w vp out index threads timeout eo tr
      = (Ok (succeeded (process w tr sub (Some timeout))),
         after_run w tr sub timeout)
    /\ FfmpegHelper.extract_subtitle w vp out index threads timeout tr
      = (Ok (succeeded (process w tr sub (Some timeout))),
         after_run w tr sub timeout)
    /\ (forall command,
          spawned (after_run w tr command timeout) = spawned tr ++ [command]
          /\ run_options (after_run w tr command timeout)
             = run_options tr ++ [(Some timeout, true)]
          /\ shelled (after_run w tr command timeout) = shelled tr).
Proof.
  intros w vp out index threads timeout eo tr Hv Ho Hw Hs wav sub.
  split; [| split; [| split; [| split]]].
  - rewrite wav2_optimized by assumption. apply run_cmd_eq.
  - rewrite (wav_free_is_wav2 w vp out index threads timeout eo) by exact Hs.
    rewrite wav2_optimized by assumption. apply run_cmd_eq.
  - rewrite subtitle2_optimized by assumption. apply run_cmd_eq.
  - rewrite (subtitle_free_is_subtitle2 w vp out index threads timeout eo)
      by exact Hs.
    rewrite subtitle2_optimized by assumption. apply run_cmd_eq.
  - intros command. split; [apply spawned_after_run |].
    split; [apply run_options_after_run | apply shelled_after_run].
Qed.

Lemma extract_optimized_runs_once_witness :
  FfmpegHelper.extract_wav (fixed_world true None (exit_with 1) (inl JNull))
    "movie.mkv" "audio.wav" (Some "1") 4 30 []
  = (Ok false,
     [Run (wav_optimized_command "movie.mkv" "audio.wav" 4 (Some "1"))
          (Some 30%Z) true;
      Print (CmdFailed
               (wav_optimized_command "movie.mkv" "audio.wav" 4 (Some "1")));
      Print (CmdStderr "")]).
Proof.
  exact (proj1 (proj2
    (extract_optimized_runs_once
       (fixed_world true None (exit_with 1) (inl JNull))
       "movie.mkv" "audio.wav" (Some "1") 4 30 None []
       eq_refl eq_refl eq_refl eq_refl))).
Defined.

(** X3. With the optimizations off, [FfmpegHelper2.extract_wav] and
    [FfmpegHelper2.extract_subtitle] call [subprocess.run] bare: without a
    timeout, without capturing the output and outside any [try]. They return
    whether the exit code is 0, print nothing, and an exception of
    [subprocess.run] reaches the caller. *)
Theorem extract_legacy_unguarded :
  forall (w : world) (vp out : string) (index : option string)
         (threads timeout : Z) (eo : option bool) (tr : trace),
    truthy vp = true -> truthy out = true ->
    truthy_opt (shutil_which w "ffmpeg") = true ->
    effective_switch w eo = false ->
    let wav := wav_legacy_command vp out (if_truthy index) in
    let sub := subtitle_legacy_command vp out (if_truthy index) in
    FfmpegHelper2.extract_wav w vp out index threads timeout eo tr
      = (unguarded (process w tr wav None), tr ++ [Run wav None false])
    /\ FfmpegHelper2.extract_subtitle w vp out index threads timeout eo tr
      = (unguarded (process w tr sub None), tr ++ [Run sub None false])
    /\ (forall e, process w tr wav None = Raises e ->
          fst (FfmpegHelper2.extract_wav w vp out index threads timeout eo tr)
          = Raised e)
    /\ (forall e, process w tr sub None = Raises e ->
          fst (FfmpegHelper2.extract_subtitle w vp out index threads timeout
                 eo tr) = Raised e).
Proof.
  intros w vp out index threads timeout eo tr Hv Ho Hw Hs wav sub.
  assert (Hwav : FfmpegHelper2.extract_wav w vp out index threads timeout eo tr
                 = (unguarded (process w tr wav None),
                    tr ++ [Run wav None false])).
  { unfold FfmpegHelper2.extract_wav, FfmpegHelper2._which.
    rewrite Hv, Ho, Hw. cbn [negb orb]. fold (effective_switch w eo).
    rewrite Hs. cbn [negb]. unfold bind, subprocess_run, pure, unguarded.
    subst wav. unfold if_truthy, wav_legacy_command, map_tokens.
    destruct index as [[| c i] |]; cbn [truthy_opt truthy app append];
      match goal with
      | |- context [process w tr ?c None] => destruct (process w tr c None)
      end; reflexivity. }
  assert (Hsub : FfmpegHelper2.extract_subtitle w vp out index threads timeout
                   eo tr
                 = (unguarded (process w tr sub None),
                    tr ++ [Run sub None false])).
  { unfold FfmpegHelper2.extract_subtitle, FfmpegHelper2._which.
    rewrite Hv, Ho, Hw. cbn [negb orb]. fold (effective_switch w eo).
    rewrite Hs. cbn [negb]. unfold bind, subprocess_run, pure, unguarded.
    subst sub. unfold if_truthy, subtitle_legacy_command, map_tokens.
    destruct index as [[| c i] |]; cbn [truthy_opt truthy app append];
      match goal with
      | |- context [process w tr ?c None] => destruct (process w tr c None)
      end; reflexivity. }
  split; [exact Hwav |]. split; [exact Hsub |].
  split; intros e He; [rewrite Hwav | rewrite Hsub]; rewrite He; reflexivity.
Qed.

Lemma extract_legacy_unguarded_witness :
  FfmpegHelper2.extract_wav
    (fixed_world true (Some "0") (Raises TimeoutExpired) (inl JNull))
    "movie.mkv" "audio.wav" (Some "") 4 30 None []
  = (Raised TimeoutExpired,
     [Run (wav_legacy_command "movie.mkv" "audio.wav" None) None false]).
Proof.
  exact (proj1
    (extract_legacy_unguarded
       (fixed_world true (Some "0") (Raises TimeoutExpired) (inl JNull))
       "movie.mkv" "audio.wav" (Some "") 4 30 None []
       eq_refl eq_refl eq_refl eq_refl)).
Defined.

(** *** The thumbnail, in every case *)

(** X4. A timestamp that the parser refuses is handed to [ffmpeg] as it is:
    the optimized [get_thumb] (of both classes) runs one command, the single
    seek after the input at the timestamp text, returns whether it
    succeeded, and runs no fallback when it fails. *)
Theorem thumb_unparsed_single_attempt :
  forall (w : world) (vp ip : string) (frames : option string) (threads : Z)
         (o : float) (timeout : Z) (eo : option bool) (tr : trace),
    truthy vp = true -> truthy ip = true ->
    truthy_opt (shutil_which w "ffmpeg") = true ->
    effective_switch w eo = true ->
    _time_str_to_seconds (effective_frames frames) = None ->
    let raw := plan_command vp ip threads
                 (PreciseSeek (Str (effective_frames frames))) in
    FfmpegHelper2.get_thumb w vp ip frames threads o timeout eo tr
      = (Ok (succeeded (process w tr raw (Some timeout))),
         after_run w tr raw timeout)
    /\ FfmpegHelper.get_thumb w vp ip frames threads o timeout tr
      = (Ok (succeeded (process w tr raw (Some timeout))),
         after_run w tr raw timeout)
    /\ spawned (after_run w tr raw timeout) = spawned tr ++ [raw].
Proof.
  intros w vp ip frames threads o timeout eo tr Hv Hi Hw Hs Hp raw.
  assert (H : FfmpegHelper2.get_thumb w vp ip frames threads o timeout eo tr
              = (Ok (succeeded (process w tr raw (Some timeout))),
                 after_run w tr raw timeout)).
  { rewrite thumb2_unparsed by assumption. apply run_cmd_eq. }
  split; [exact H |]. split; [| apply spawned_after_run].
  rewrite (thumb_free_is_thumb2 w vp ip frames threads o timeout eo)
    by exact Hs.
  exact H.
Qed.

Lemma thumb_unparsed_single_attempt_witness :
  FfmpegHelper.get_thumb (fixed_world true None (exit_with 1) (inl JNull))
    "movie.mkv" "thumb.jpg" (Some "1h") 1 2%float 30 []
  = (Ok false,
     [Run (plan_command "movie.mkv" "thumb.jpg" 1 (PreciseSeek (Str "1h")))
          (Some 30%Z) true;
      Print (CmdFailed
               (plan_command "movie.mkv" "thumb.jpg" 1
                  (PreciseSeek (Str "1h"))));
      Print (CmdStderr "")]).
Proof.
  exact (proj1 (proj2
    (thumb_unparsed_single_attempt
       (fixed_world true None (exit_with 1) (inl JNull))
       "movie.mkv" "thumb.jpg" (Some "1h") 1 2%float 30 None []
       eq_refl eq_refl eq_refl eq_refl eq_refl))).
Defined.

Ltac close_outcome :=
  cbn [List.length repeat app]; rewrite ?app_nil_r, <- ?app_assoc;
  cbn [List.length repeat app];
  repeat split; intros; auto; try lia; try discriminate; try congruence.

Lemma thumb2_outcome w vp ip frames threads o timeout eo tr :
  exists (b : bool) (tr' : trace) (cmds : list (list arg)),
    FfmpegHelper2.get_thumb w vp ip frames threads o timeout eo tr = (Ok b, tr')
    /\ spawned tr' = spawned tr ++ cmds
    /\ (List.length cmds <= 2)%nat
    /\ run_options tr'
       = run_options tr ++ repeat (Some timeout, true) (List.length cmds)
    /\ (effective_switch w eo = true -> shelled tr' = shelled tr)
    /\ (effective_switch w eo = false -> cmds = []).
Proof.
  destruct (truthy vp) eqn:Hv; [destruct (truthy ip) eqn:Hi |];
    try (exists false, tr, []; rewrite thumb2_refused by auto;
         split; [reflexivity | close_outcome]).
  destruct (truthy_opt (shutil_which w "ffmpeg")) eqn:Hw.
  2:{ exists false, (tr ++ [Print (NotFound "ffmpeg")]), [].
      rewrite thumb2_not_found by assumption. split; [reflexivity |].
      rewrite spawned_app, run_options_app, shelled_app.
      cbn [spawned run_options shelled]. close_outcome. }
  destruct (effective_switch w eo) eqn:Hs.
  2:{ eexists _, _, []. rewrite thumb2_legacy by assumption.
      split; [reflexivity |].
      rewrite spawned_app, run_options_app.
      cbn [spawned run_options]. close_outcome. }
  destruct (_time_str_to_seconds (effective_frames frames)) as [t |] eqn:Hp.
  2:{ eexists _, _, [_]. rewrite thumb2_unparsed by assumption.
      rewrite run_cmd_eq. split; [reflexivity |].
      rewrite spawned_after_run, run_options_after_run, shelled_after_run.
      close_outcome. }
  destruct (two_stage_guard t o) eqn:Hg.
  2:{ eexists _, _, [_].
      rewrite (thumb2_single w vp ip frames threads o timeout eo tr t)
        by assumption.
      rewrite run_cmd_eq. split; [reflexivity |].
      rewrite spawned_after_run, run_options_after_run, shelled_after_run.
      close_outcome. }
  rewrite (thumb2_two_stage w vp ip frames threads o timeout eo tr t)
    by assumption.
  cbv zeta.
  match goal with
  | |- context [if succeeded ?x then _ else _] => destruct (succeeded x)
  end.
  - eexists _, _, [_]. split; [reflexivity |].
    rewrite spawned_after_run, run_options_after_run, shelled_after_run.
    close_outcome.
  - eexists _, _, [_; _]. split; [reflexivity |].
    rewrite !spawned_after_run, !run_options_after_run, !shelled_after_run.
    close_outcome.
Qed.


(** *** The switch *)

Lemma switch_off_iff (w : world) (eo : option bool) :
  effective_switch w eo = false <->
  eo = Some false
  \/ (eo = None /\ os_getenv w "FFMPEG_OPTIMIZATIONS" = Some "0").
Proof.
  unfold effective_switch, FfmpegHelper2._env_opt_enabled,
    FfmpegHelper2.ENV_FLAG_NAME, FfmpegHelper2.DEFAULT_ENV_FLAG.
  destruct eo as [[] |].
  - split; [discriminate | intros [H | [H _]]; discriminate].
  - split; [auto | reflexivity].
  - destruct (os_getenv w "FFMPEG_OPTIMIZATIONS") as [v |].
    + rewrite negb_false_iff, String.eqb_eq. split.
      * intros ->. auto.
      * intros [H | [_ H]]; [discriminate | congruence].
    + split; [discriminate | intros [H | [_ H]]; discriminate].
Qed.

(** X6. The argument [enable_optimizations] comes before the environment:
    [FfmpegHelper2.get_thumb] takes the legacy path, one shell command and no
    child, exactly when the argument is [False], or is [None] while
    [FFMPEG_OPTIMIZATIONS] is set to ["0"]; in every other case (the
    argument [True], the variable unset or set to anything else) it does not
    call the shell. *)
Theorem switch_argument_before_environment :
  forall (w : world) (vp ip : string) (frames : option string) (threads : Z)
         (o : float) (timeout : Z) (eo : option bool) (tr : trace),
    truthy vp = true -> truthy ip = true ->
    truthy_opt (shutil_which w "ffmpeg") = true ->
    let off := eo = Some false
               \/ (eo = None
                   /\ os_getenv w "FFMPEG_OPTIMIZATIONS" = Some "0") in
    let out := FfmpegHelper2.get_thumb w vp ip frames threads o timeout eo tr in
    (off ->
       snd out = tr ++ [Shell (legacy_command vp (effective_frames frames) ip)])
    /\ (~ off -> shelled (snd out) = shelled tr)
    /\ (off <-> shelled (snd out) <> shelled tr).
Proof.
  intros w vp ip frames threads o timeout eo tr Hv Hi Hw off out.
  assert (Hon : ~ off -> shelled (snd out) = shelled tr).
  { intros Hn.
    assert (Hs : effective_switch w eo = true).
    { destruct (effective_switch w eo) eqn:E; [reflexivity |].
      apply switch_off_iff in E. contradiction. }
    destruct (thumb2_outcome w vp ip frames threads o timeout eo tr)
      as [b [tr' [cmds [E [_ [_ [_ [H _]]]]]]]].
    unfold out. rewrite E. cbn [snd]. auto. }
  assert (Hoff : off ->
            snd out
            = tr ++ [Shell (legacy_command vp (effective_frames frames) ip)]).
  { intros H. apply switch_off_iff in H. unfold out.
    rewrite thumb2_legacy by assumption. reflexivity. }
  split; [exact Hoff |]. split; [exact Hon |]. split.
  - intros H. rewrite (Hoff H), shelled_app. cbn.
    intros E. apply (f_equal (@List.length string)) in E.
    rewrite length_app in E. cbn in E. lia.
  - intros H. destruct (effective_switch w eo) eqn:E.
    + exfalso. apply H. apply Hon. intros Hc.
      apply switch_off_iff in Hc. congruence.
    + apply switch_off_iff. exact E.
Qed.

Lemma switch_argument_before_environment_witness :
  shelled (snd (FfmpegHelper2.get_thumb
                  (fixed_world true (Some "0") (exit_with 0) (inl JNull))
                  "movie.mkv" "thumb.jpg" None 1 2%float 30 (Some true) []))
  = shelled []
  /\ snd (FfmpegHelper2.get_thumb
            (fixed_world true (Some "0") (exit_with 0) (inl JNull))
            "movie.mkv" "thumb.jpg" None 1 2%float 30 None [])
     = [] ++ [Shell (legacy_command "movie.mkv" "00:03:01" "thumb.jpg")].
Proof.
  split.
  - apply (proj1 (proj2
      (switch_argument_before_environment
         (fixed_world true (Some "0") (exit_with 0) (inl JNull))
         "movie.mkv" "thumb.jpg" None 1 2%float 30 (Some true) []
         eq_refl eq_refl eq_refl))).
    intros [H | [H _]]; discriminate.
  - apply (proj1
      (switch_argument_before_environment
         (fixed_world true (Some "0") (exit_with 0) (inl JNull))
         "movie.mkv" "thumb.jpg" None 1 2%float 30 None []
         eq_refl eq_refl eq_refl)).
    right. split; reflexivity.
Defined.

(** X7. A timestamp that is absent or empty stands for ["00:03:01"]: with
    [None], with the empty string and with ["00:03:01"], [get_thumb] (of
    both classes) does the same, whatever the other arguments. *)
Theorem thumb_default_timestamp :
  forall (w : world) (vp ip : string) (threads : Z) (o : float) (timeout : Z)
         (eo : option bool) (tr : trace) (frames : option string),
    truthy_opt frames = false ->
    FfmpegHelper2.get_thumb w vp ip frames threads o timeout eo tr
      = FfmpegHelper2.get_thumb w vp ip (Some "00:03:01") threads o timeout eo tr
    /\ FfmpegHelper.get_thumb w vp ip frames threads o timeout tr
      = FfmpegHelper.get_thumb w vp ip (Some "00:03:01") threads o timeout tr.
Proof.
  intros w vp ip threads o timeout eo tr frames H.
  unfold FfmpegHelper2.get_thumb, FfmpegHelper.get_thumb.
  rewrite H. split; reflexivity.
Qed.

Lemma thumb_default_timestamp_witness :
  FfmpegHelper.get_thumb flaky_world "movie.mkv" "thumb.jpg" (Some "") 1
    2%float 30 []
  = FfmpegHelper.get_thumb flaky_world "movie.mkv" "thumb.jpg"
      (Some "00:03:01") 1 2%float 30 [].
Proof.
  exact (proj2 (thumb_default_timestamp flaky_world "movie.mkv" "thumb.jpg" 1
                  2%float 30 None [] (Some "") eq_refl)).
Defined.

(** X8. The class [FfmpegHelper] is [FfmpegHelper2] with the optimizations
    on: every operation of the first does what the same operation of the
    second does when its switch is on. *)
Theorem free_helper_is_optimized_helper :
  forall (w : world) (eo : option bool),
    effective_switch w eo = true ->
    forall (p q : string) (index : option string) (threads : Z) (o : float)
           (timeout : Z) (tr : trace) (command : list arg),
      FfmpegHelper.get_thumb w p q index threads o timeout tr
        = FfmpegHelper2.get_thumb w p q index threads o timeout eo tr
      /\ FfmpegHelper.extract_wav w p q index threads timeout tr
        = FfmpegHelper2.extract_wav w p q index threads timeout eo tr
      /\ FfmpegHelper.extract_subtitle w p q index threads timeout tr
        = FfmpegHelper2.extract_subtitle w p q index threads timeout eo tr
      /\ FfmpegHelper.get_metadata w p timeout tr
        = FfmpegHelper2.get_metadata w p timeout tr
      /\ FfmpegHelper._run_cmd w command timeout tr
        = FfmpegHelper2._run_cmd w command timeout tr.
Proof.
  intros w eo Hs p q index threads o timeout tr command.
  split; [apply thumb_free_is_thumb2; exact Hs |].
  split; [apply wav_free_is_wav2; exact Hs |].
  split; [apply subtitle_free_is_subtitle2; exact Hs |].
  split; [rewrite metadata_same | rewrite run_cmd_same]; reflexivity.
Qed.

Lemma free_helper_is_optimized_helper_witness :
  FfmpegHelper.extract_subtitle flaky_world "movie.mkv" "movie.srt" (Some "0")
    1 30 []
  = FfmpegHelper2.extract_subtitle flaky_world "movie.mkv" "movie.srt"
      (Some "0") 1 30 None [].
Proof.
  exact (proj1 (proj2 (proj2
    (free_helper_is_optimized_helper flaky_world None eq_refl
       "movie.mkv" "movie.srt" (Some "0") 1 2%float 30 [] [])))).
Defined.

(** *** When the two-stage plan is taken *)

(** Two numbers that are not ordered either way: one is not a number, and
    so is their difference. *)
Lemma sub_unordered (t o : float) :
  (o <? t)%float = false -> (t <=? o)%float = false ->
  (0 <? t - o)%float = false.
Proof.
  rewrite !ltb_spec, leb_spec, sub_spec, zero_spec.
  generalize (Prim2SF_valid t) (Prim2SF_valid o).
  generalize (Prim2SF t) (Prim2SF o). intros x y Vx Vy Hlt Hle.
  destruct (SFfinite x) eqn:Fx; [destruct (SFfinite y) eqn:Fy |].
  - exfalso.
    assert (H1 : ~ (SFval y < SFval x)%Z).
    { intros H. apply SFltb_val in H; try assumption. congruence. }
    assert (H2 : ~ (SFval x <= SFval y)%Z).
    { intros H. apply SFleb_val in H; try assumption. congruence. }
    lia.
  - destruct x as [[] | [] | | [] mt et]; destruct y as [[] | [] | | [] mo eo];
      try discriminate; reflexivity.
  - destruct x as [[] | [] | | [] mt et]; destruct y as [[] | [] | | [] mo eo];
      try discriminate; reflexivity.
Qed.

(** An offset that is neither positive nor at most zero is not a number. *)
Lemma sub_nan_offset (t o : float) :
  (0 <? o)%float = false -> (o <=? 0)%float = false ->
  (0 <? t - o)%float = false.
Proof.
  rewrite !ltb_spec, leb_spec, sub_spec, zero_spec.
  intros Hlt Hle.
  destruct (Prim2SF o) as [[] | [] | | [] mo eo]; try discriminate.
  destruct (Prim2SF t) as [[] | [] | | [] mt et]; reflexivity.
Qed.

Lemma guard_off_sub (t o : float) :
  (0 <? t - o)%float = false -> two_stage_guard t o = false.
Proof.
  intros H. unfold two_stage_guard, py_max. rewrite H, leb_zero_zero.
  reflexivity.
Qed.

Lemma guard_iff (t o : float) :
  two_stage_guard t o = ((0 <? o)%float && (o <? t)%float).
Proof.
  destruct (0 <? o)%float eqn:Ho; destruct (o <? t)%float eqn:Hot; cbn [andb].
  - apply guard_on; assumption.
  - destruct (t <=? o)%float eqn:Hle.
    + apply guard_off_le. exact Hle.
    + apply guard_off_sub. apply sub_unordered; assumption.
  - destruct (o <=? 0)%float eqn:Hle.
    + apply guard_off_offset. exact Hle.
    + apply guard_off_sub. apply sub_nan_offset; assumption.
  - destruct (o <=? 0)%float eqn:Hle.
    + apply guard_off_offset. exact Hle.
    + apply guard_off_sub. apply sub_nan_offset; assumption.
Qed.

(** X9. For a parsed timestamp [t] and any offset [o], a number or not, the
    optimized [get_thumb] (of both classes) starts with the two-stage command
    exactly when [0 < o < t]; in every other case, an offset that is zero,
    negative, infinite or not a number among them, it runs the single
    precise seek at [t] and nothing else. *)
Theorem two_stage_exactly_when_offset_fits :
  forall (w : world) (vp ip : string) (frames : option string) (threads : Z)
         (o : float) (timeout : Z) (eo : option bool) (tr : trace) (t : float),
    truthy vp = true -> truthy ip = true ->
    truthy_opt (shutil_which w "ffmpeg") = true ->
    effective_switch w eo = true ->
    _time_str_to_seconds (effective_frames frames) = Some t ->
    let fits := ((0 <? o)%float && (o <? t)%float) in
    let single := plan_command vp ip threads (PreciseSeek (FloatStr t)) in
    let two := plan_command vp ip threads
                 (TwoStage (FloatStr (t - o)) (FloatStr (t - (t - o)))) in
    let out2 := FfmpegHelper2.get_thumb w vp ip frames threads o timeout eo tr in
    let out := FfmpegHelper.get_thumb w vp ip frames threads o timeout tr in
    out = out2
    /\ (fits = true ->
        exists rest, spawned (snd out2) = spawned tr ++ two :: rest)
    /\ (fits = false -> spawned (snd out2) = spawned tr ++ [single])
    /\ two <> single.
Proof.
  intros w vp ip frames threads o timeout eo tr t Hv Hi Hw Hs Hp
    fits single two out2 out.
  pose proof (guard_iff t o) as Hg. fold fits in Hg.
  split; [apply thumb_free_is_thumb2; exact Hs |].
  split; [| split].
  - intros Hf. rewrite Hf in Hg.
    apply andb_true_iff in Hf. destruct Hf as [Ho Hot].
    destruct (guard_on t o Ho Hot) as [_ Hmax].
    destruct (thumb2_two_stage_spawned w vp ip frames threads o timeout eo tr t
                Hv Hi Hw Hs Hp Hg) as [rest [E _]].
    rewrite Hmax in E. exists rest. exact E.
  - intros Hf. rewrite Hf in Hg.
    apply thumb2_single_spawned; assumption.
  - intros E. symmetry in E. exact (plans_differ _ _ _ _ _ _ E).
Qed.

Lemma two_stage_exactly_when_offset_fits_witness :
  spawned (snd (FfmpegHelper2.get_thumb
                  (fixed_world true None (exit_with 0) (inl JNull))
                  "movie.mkv" "thumb.jpg" (Some "00:10:05") 1 nan 30 None []))
  = spawned [] ++ [plan_command "movie.mkv" "thumb.jpg" 1
                     (PreciseSeek (FloatStr 605%float))].
Proof.
  exact (proj1 (proj2 (proj2
    (two_stage_exactly_when_offset_fits
       (fixed_world true None (exit_with 0) (inl JNull))
       "movie.mkv" "thumb.jpg" (Some "00:10:05") 1 nan 30 None [] 605%float
       eq_refl eq_refl eq_refl eq_refl ltac:(vm_compute; reflexivity))))
    eq_refl).
Defined.

(** *** What [get_metadata] leaves in the trace *)

Ltac trace_facts :=
  repeat split; intros;
  repeat match goal with
         | H : Completed _ = Completed _ |- _ => inversion H; clear H; subst
         | H : Raises _ = Raises _ |- _ => inversion H; clear H; subst
         | H : inl _ = inl _ |- _ => inversion H; clear H; subst
         | H : inr _ = inr _ |- _ => inversion H; clear H; subst
         end;
  try discriminate; try contradiction; try congruence;
  rewrite ?spawned_app, ?shelled_app, ?printed_app, ?run_options_app;
  cbn [spawned shelled printed run_options app];
  rewrite ?app_nil_r, <- ?app_assoc; try reflexivity; try congruence.

(** X10. [get_metadata] (the same in both classes) starts nothing for an
    empty path or a missing [ffprobe]; otherwise it starts one child, the
    probe, with the caller's timeout and its output captured, and never
    calls the shell. A non-zero exit prints nothing; a timeout prints the
    timeout line, and any other exception, the decoder's among them, prints
    the exception line. *)
Theorem metadata_trace :
  forall (w : world) (vp : string) (timeout : Z) (tr : trace),
    let out := FfmpegHelper2.get_metadata w vp timeout tr in
    let probe := probe_command vp in
    let o := process w tr probe (Some timeout) in
    FfmpegHelper.get_metadata w vp timeout tr = out
    /\ (truthy vp = false -> out = (Ok py_None, tr))
    /\ (truthy vp = true -> truthy_opt (shutil_which w "ffprobe") = false ->
        out = (Ok py_None, tr ++ [Print (NotFound "ffprobe")]))
    /\ (truthy vp = true -> truthy_opt (shutil_which w "ffprobe") = true ->
        spawned (snd out) = spawned tr ++ [probe]
        /\ run_options (snd out) = run_options tr ++ [(Some timeout, true)]
        /\ shelled (snd out) = shelled tr
        /\ (forall ret, o = Completed ret -> returncode ret <> 0%Z ->
              printed (snd out) = printed tr)
        /\ (forall ret j, o = Completed ret -> returncode ret = 0%Z ->
              json_decode w (utf8_ignore w (stdout ret)) = inl j ->
              printed (snd out) = printed tr)
        /\ (forall ret e, o = Completed ret -> returncode ret = 0%Z ->
              json_decode w (utf8_ignore w (stdout ret)) = inr e ->
              e <> TimeoutExpired ->
              printed (snd out) = printed tr ++ [ProbeException e])
        /\ (o = Raises TimeoutExpired ->
              printed (snd out) = printed tr ++ [ProbeTimeout])
        /\ (forall e, o = Raises e -> e <> TimeoutExpired ->
              printed (snd out) = printed tr ++ [ProbeException e])).
Proof.
  intros w vp timeout tr out probe o. subst out o probe.
  split; [rewrite metadata_same; reflexivity |].
  unfold FfmpegHelper2.get_metadata, FfmpegHelper2._which.
  split; [intros Hv; rewrite Hv; reflexivity |].
  split; [intros Hv Hw; rewrite Hv, Hw; reflexivity |].
  intros Hv Hw. rewrite Hv, Hw. cbn -[probe_command].
  unfold bind, try_except, subprocess_run, json_loads, print, emit, pure.
  fold (probe_command vp).
  destruct (process w tr (probe_command vp) (Some timeout)) as [ret | e].
  - destruct (returncode ret =? 0)%Z eqn:Hrc;
      [apply Z.eqb_eq in Hrc | apply Z.eqb_neq in Hrc].
    + destruct (json_decode w (utf8_ignore w (stdout ret))) as [j | e] eqn:Hj.
      * cbn [snd]. trace_facts.
      * destruct e; cbn [snd]; trace_facts.
    + cbn [snd]. trace_facts.
  - destruct e; cbn [snd]; trace_facts.
Qed.

(** *** The timestamp parser, segment by segment *)

Lemma split_app (sep : ascii) (a b : string) :
  split sep (a ++ String sep b) = split sep a ++ split sep b.
Proof.
  induction a as [| c a IH]; cbn [append split].
  - rewrite Ascii.eqb_refl. reflexivity.
  - destruct (Ascii.eqb c sep); [rewrite IH; reflexivity |].
    rewrite IH. pose proof (split_nonempty sep a).
    destruct (split sep a) as [| h t]; [contradiction | reflexivity].
Qed.

Lemma split_single (sep : ascii) (s : string) :
  contains sep s = false -> split sep s = [s].
Proof.
  induction s as [| c s IH]; [reflexivity |].
  cbn [contains split]. intros H. apply orb_false_iff in H.
  destruct H as [Hc Hs]. rewrite Hc, (IH Hs). reflexivity.
Qed.

Lemma floats_of_parts_app (l1 l2 : list string) :
  floats_of_parts (l1 ++ l2)
  = match floats_of_parts l1, floats_of_parts l2 with
    | Some xs, Some ys => Some (xs ++ ys)
    | _, _ => None
    end.
Proof.
  induction l1 as [| p l1 IH]; cbn [app floats_of_parts].
  - destruct (floats_of_parts l2); reflexivity.
  - destruct (py_float p); [| reflexivity]. rewrite IH.
    destruct (floats_of_parts l1); [| reflexivity].
    destruct (floats_of_parts l2); reflexivity.
Qed.

Lemma empty_part_refused (parts : list string) :
  In EmptyString parts -> floats_of_parts parts = None.
Proof.
  intros H. apply floats_of_parts_none. apply Exists_exists.
  exists EmptyString. split; [exact H | reflexivity].
Qed.

(** X11. A timestamp with an empty segment is refused: one that ends with a
    colon, one that starts with a colon, one with two colons in a row. *)
Theorem empty_segment_unparseable :
  forall a b : string,
    _time_str_to_seconds (a ++ ":") = None
    /\ _time_str_to_seconds (":" ++ b) = None
    /\ _time_str_to_seconds (a ++ "::" ++ b) = None
    /\ (forall s, In EmptyString (split ":" s) ->
                  _time_str_to_seconds s = None).
Proof.
  intros a b.
  assert (H : forall s, In EmptyString (split ":" s) ->
                        _time_str_to_seconds s = None).
  { intros s Hin. unfold _time_str_to_seconds.
    rewrite (empty_part_refused _ Hin). reflexivity. }
  split; [| split; [| split; [| exact H]]]; apply H.
  - rewrite split_app. apply in_or_app. right. left. reflexivity.
  - left. reflexivity.
  - change (a ++ "::" ++ b)%string with (a ++ String ":" (":" ++ b))%string.
    rewrite split_app. apply in_or_app. right. left. reflexivity.
Qed.

Lemma parse_append (s seg : string) :
  contains ":" seg = false ->
  _time_str_to_seconds (s ++ ":" ++ seg)
  = match _time_str_to_seconds s, py_float seg with
    | Some x, Some y => Some (x * 60 + y)%float
    | _, _ => None
    end.
Proof.
  intros Hseg. unfold _time_str_to_seconds.
  change (s ++ ":" ++ seg)%string with (s ++ String ":" seg)%string.
  rewrite split_app, (split_single _ _ Hseg), floats_of_parts_app.
  cbn [floats_of_parts].
  destruct (floats_of_parts (split ":" s)) as [xs |]; [| reflexivity].
  destruct (py_float seg) as [y |]; [| reflexivity].
  rewrite fold_left_app. reflexivity.
Qed.

(** X12. One more segment: for a segment [seg] with no colon in it,
    [s + ":" + seg] parses to [x * 60 + y] when [s] parses to [x] and
    [float(seg)] is [y], and it is refused when [s] is refused or [float]
    refuses [seg]. *)
Theorem append_segment :
  forall s seg : string,
    contains ":" seg = false ->
    _time_str_to_seconds (s ++ ":" ++ seg)
    = match _time_str_to_seconds s, py_float seg with
      | Some x, Some y => Some (x * 60 + y)%float
      | _, _ => None
      end
    /\ (forall x y, _time_str_to_seconds s = Some x -> py_float seg = Some y ->
          _time_str_to_seconds (s ++ ":" ++ seg) = Some (fold_step x y))
    /\ (_time_str_to_seconds s = None ->
        _time_str_to_seconds (s ++ ":" ++ seg) = None)
    /\ (py_float seg = None ->
        _time_str_to_seconds (s ++ ":" ++ seg) = None).
Proof.
  intros s seg Hseg. pose proof (parse_append s seg Hseg) as E.
  split; [exact E |]. rewrite E. split; [| split].
  - intros x y Hx Hy. rewrite Hx, Hy. reflexivity.
  - intros Hx. rewrite Hx. reflexivity.
  - intros Hy. rewrite Hy. destruct (_time_str_to_seconds s); reflexivity.
Qed.

Lemma append_segment_witness :
  _time_str_to_seconds ("01:02" ++ ":" ++ "03.5") = Some 3723.5%float.
Proof.
  rewrite (proj1 (append_segment "01:02" "03.5" eq_refl)).
  vm_compute. reflexivity.
Defined.

(** *** Blanks around a timestamp *)

Lemma space_is_no_colon (c : ascii) :
  Py_ISSPACE c = true -> Ascii.eqb c ":" = false.
Proof.
  intros H. destruct (Ascii.eqb c ":") eqn:E; [| reflexivity].
  apply Ascii.eqb_eq in E. subst c. discriminate.
Qed.

Lemma rstrip_snoc (c : ascii) (x : string) :
  Py_ISSPACE c = true -> rstrip (x ++ String c EmptyString) = rstrip x.
Proof.
  intros H. induction x as [| d x IH]; cbn [append rstrip].
  - rewrite H. reflexivity.
  - rewrite IH. reflexivity.
Qed.

Lemma strip_snoc (c : ascii) (x : string) :
  Py_ISSPACE c = true -> strip (x ++ String c EmptyString) = strip x.
Proof.
  intros H. unfold strip. induction x as [| d x IH]; cbn [append lstrip].
  - rewrite H. reflexivity.
  - destruct (Py_ISSPACE d); [exact IH |].
    apply (rstrip_snoc c (String d x) H).
Qed.

Lemma py_float_lead (c : ascii) (s : string) :
  Py_ISSPACE c = true -> py_float (String c s) = py_float s.
Proof.
  intros H. unfold py_float, strip. cbn [lstrip]. rewrite H. reflexivity.
Qed.

Lemma py_float_trail (c : ascii) (s : string) :
  Py_ISSPACE c = true -> py_float (s ++ String c EmptyString) = py_float s.
Proof. intros H. unfold py_float. rewrite strip_snoc by exact H. reflexivity. Qed.

Lemma split_snoc (sep c : ascii) (s : string) :
  Ascii.eqb c sep = false ->
  exists (init : list string) (last : string),
    split sep s = init ++ [last]
    /\ split sep (s ++ String c EmptyString)
       = init ++ [(last ++ String c EmptyString)%string].
Proof.
  intros Hc. induction s as [| d s IH]; cbn [append split].
  - rewrite Hc. exists [], EmptyString. split; reflexivity.
  - destruct IH as [init [last [E1 E2]]]. rewrite E1, E2.
    destruct (Ascii.eqb d sep).
    + exists (EmptyString :: init), last. split; reflexivity.
    + destruct init as [| h t].
      * exists [], (String d last). split; reflexivity.
      * exists (String d h :: t), last. split; reflexivity.
Qed.

(** X13. Blanks around a timestamp do not count: a blank character (a space,
    a tab, a line feed, ...) in front of a timestamp or behind it changes
    nothing of what the parser returns. *)
Theorem surrounding_blank_ignored :
  forall (c : ascii) (s : string),
    Py_ISSPACE c = true ->
    _time_str_to_seconds (String c s) = _time_str_to_seconds s
    /\ _time_str_to_seconds (s ++ String c EmptyString)
       = _time_str_to_seconds s.
Proof.
  intros c s Hc. pose proof (space_is_no_colon c Hc) as Hn.
  unfold _time_str_to_seconds. split.
  - cbn [split]. rewrite Hn. pose proof (split_nonempty ":" s).
    destruct (split ":" s) as [| h t]; [contradiction |].
    cbn [floats_of_parts]. rewrite py_float_lead by exact Hc. reflexivity.
  - destruct (split_snoc ":" c s Hn) as [init [last [E1 E2]]].
    rewrite E1, E2, !floats_of_parts_app. cbn [floats_of_parts].
    rewrite py_float_trail by exact Hc. reflexivity.
Qed.

Lemma surrounding_blank_ignored_witness :
  _time_str_to_seconds ("00:10:05" ++ String (ascii_of_nat 10) EmptyString)
  = _time_str_to_seconds "00:10:05".
Proof.
  exact (proj2 (surrounding_blank_ignored (ascii_of_nat 10) "00:10:05"
                  eq_refl)).
Defined.

(** *** One segment *)

Lemma add_zero_left (x : float) :
  x <> neg_zero -> (0 + x)%float = x.
Proof.
  intros Hx. apply Prim2SF_inj. rewrite add_spec, zero_spec.
  destruct (Prim2SF x) as [[] | [] | | s m e] eqn:E; try reflexivity.
  exfalso. apply Hx. rewrite <- (SF2Prim_Prim2SF x), E. reflexivity.
Qed.

Lemma parse_single (s : string) (x : float) :
  contains ":" s = false -> py_float s = Some x ->
  _time_str_to_seconds s = Some (0 + x)%float.
Proof.
  intros Hs Hx. unfold _time_str_to_seconds.
  rewrite (split_single _ _ Hs). cbn [floats_of_parts]. rewrite Hx.
  reflexivity.
Qed.

(** X14. A timestamp with no colon is read as [float] reads it: the parser
    returns [float(s)] itself, but for the negative zero, which comes back
    as [0.0]. *)
Theorem single_segment_value :
  forall (s : string) (x : float),
    contains ":" s = false -> py_float s = Some x ->
    (x <> neg_zero -> _time_str_to_seconds s = Some x)
    /\ (x = neg_zero -> _time_str_to_seconds s = Some 0%float).
Proof.
  intros s x Hs Hx. rewrite (parse_single s x Hs Hx). split.
  - intros Hn. rewrite (add_zero_left x Hn). reflexivity.
  - intros ->. reflexivity.
Qed.

Lemma single_segment_value_witness :
  _time_str_to_seconds "45.5" = Some 45.5%float
  /\ _time_str_to_seconds "-0" = Some 0%float.
Proof.
  split.
  - apply (proj1 (single_segment_value "45.5" 45.5%float eq_refl
                    ltac:(vm_compute; reflexivity))).
    intros H. apply (f_equal Prim2SF) in H. vm_compute in H. discriminate.
  - apply (proj2 (single_segment_value "-0" neg_zero eq_refl
                    ltac:(vm_compute; reflexivity))).
    reflexivity.
Defined.

(** ** Whole numbers in binary64 *)

Section WholeNumbers.
Local Open Scope Z_scope.

(** Rounding a mantissa that is a binary64 mantissa followed by zeros. *)
Lemma binary_round_aux_exact (s : bool) (n : positive) (e : Z)
    (m' : positive) (e' : Z) :
  bounded prec emax m' e' = true -> e <= e' ->
  Zpos n = Zpos m' * 2 ^ (e' - e) ->
  binary_round_aux prec emax s (Zpos n) e loc_Exact = S754_finite s m' e'.
Proof.
  intros Hb Hle Hv. pose proof (bounded_fexp m' e' Hb) as Hf.
  assert (Hd : digits n + e = digits m' + e').
  { assert (D : digits n = digits m' + (e' - e))
      by (apply digits_shift; [lia | exact Hv]).
    lia. }
  rewrite (binary_round_aux_tail s (Zpos n) e loc_Exact m' e').
  - apply bounded_iff in Hb. destruct (Z.leb_spec e' 971); [reflexivity | lia].
  - unfold shr_fexp. cbn [Zdigits2 shr_record_of_loc]. fold (digits n).
    rewrite Hd, Hf. unfold shr.
    destruct (e' - e) as [| p | p] eqn:Ep; try lia.
    + rewrite Z.mul_1_r in Hv. rewrite Hv. f_equal. lia.
    + rewrite iter_pos_nat. f_equal; [| lia].
      replace (Zpos n) with (Zpos m' * 2 ^ Z.of_nat (Pos.to_nat p))
        by (rewrite positive_nat_Z; lia).
      apply shr_iter_exact. lia.
  - exact Hf.
Qed.

Lemma Z2F_zero : Z2F 0 = 0%float.
Proof. reflexivity. Qed.

(** A whole number from 1 to [2^53 - 1] is a binary64 number, a normal
    one. *)
Lemma Z2F_shape (n : Z) :
  0 < n < 2 ^ 53 ->
  exists (m : positive) (e : Z),
    Prim2SF (Z2F n) = S754_finite false m e
    /\ bounded prec emax m e = true
    /\ Zpos m * 2 ^ (e + 1074) = n * 2 ^ 1074
    /\ digits m = 53 /\ e <= 0.
Proof.
  intros Hn.
  destruct (normalize_small n 0 Hn ltac:(lia)) as [m [e [E [Hb [He Hv]]]]].
  exists m, e. unfold Z2F. rewrite E.
  rewrite Prim2SF_SF2Prim by exact Hb.
  repeat split; try assumption.
  pose proof Hb as Hb'. apply bounded_iff in Hb'.
  destruct Hb' as [_ [Hd [Hsub | Hnorm]]]; [| exact Hnorm].
  exfalso. subst e. change (-1074 + 1074) with 0 in Hv.
  change (0 + 1074) with 1074 in Hv. rewrite Z.pow_0_r, Z.mul_1_r in Hv.
  pose proof (digits_bounds m) as [_ Bu].
  assert (2 ^ digits m <= 2 ^ 53) by (apply pow2_le; pose proof (digits_pos m); lia).
  assert (2 ^ 53 < 2 ^ 1074) by (apply pow2_lt; lia).
  assert (1 * 2 ^ 1074 <= n * 2 ^ 1074)
    by (apply Z.mul_le_mono_nonneg_r; lia).
  lia.
Qed.

Lemma Z2F_not_neg_zero (n : Z) : 0 <= n < 2 ^ 53 -> Z2F n <> neg_zero.
Proof.
  intros Hn E. apply (f_equal Prim2SF) in E.
  destruct (Z.eq_dec n 0) as [-> | Hne]; [discriminate |].
  destruct (Z2F_shape n ltac:(lia)) as [m [e [Es _]]].
  rewrite Es in E. discriminate.
Qed.

Lemma Z2F_mul (a b : Z) :
  0 <= a < 2 ^ 53 -> 0 <= b < 2 ^ 53 -> a * b < 2 ^ 53 ->
  (Z2F a * Z2F b)%float = Z2F (a * b).
Proof.
  intros Ha Hb Hab. apply Prim2SF_inj. rewrite mul_spec.
  destruct (Z.eq_dec a 0) as [-> | Ha0].
  { rewrite Z.mul_0_l, Z2F_zero, zero_spec.
    destruct (Z.eq_dec b 0) as [-> | Hb0]; [reflexivity |].
    destruct (Z2F_shape b ltac:(lia)) as [mb [eb [Eb _]]].
    rewrite Eb. reflexivity. }
  destruct (Z2F_shape a ltac:(lia)) as [ma [ea [Ea [Ba [Va [Da _]]]]]].
  destruct (Z.eq_dec b 0) as [-> | Hb0].
  { rewrite Z.mul_0_r, Z2F_zero, zero_spec, Ea. reflexivity. }
  destruct (Z2F_shape b ltac:(lia)) as [mb [eb [Eb [Bb [Vb [Db _]]]]]].
  assert (Hab0 : 0 < a * b) by (apply Z.mul_pos_pos; lia).
  destruct (Z2F_shape (a * b) ltac:(lia)) as [mc [ec [Ec [Bc [Vc [Dc _]]]]]].
  rewrite Ea, Eb, Ec. unfold SF64mul, SFmul. cbn [xorb].
  pose proof Ba as Ba'. pose proof Bb as Bb'. pose proof Bc as Bc'.
  apply bounded_iff in Ba', Bb', Bc'.
  pose proof (digits_bounds ma) as [La _]. rewrite Da in La.
  pose proof (digits_bounds mb) as [Lb _]. rewrite Db in Lb.
  pose proof (digits_bounds mc) as [_ Uc]. rewrite Dc in Uc.
  change (2 ^ (53 - 1)) with 4503599627370496 in La, Lb.
  change (2 ^ 53) with 9007199254740992 in Uc.
  assert (Hprod : 4503599627370496 * 4503599627370496 <= Zpos ma * Zpos mb)
    by (apply Z.mul_le_mono_nonneg; lia).
  (* the values, on a common unit *)
  assert (E : Zpos ma * Zpos mb * 2 ^ (ea + eb + 2148)
              = Zpos mc * 2 ^ (ec + 2148)).
  { replace (ea + eb + 2148) with ((ea + 1074) + (eb + 1074)) by lia.
    replace (ec + 2148) with ((ec + 1074) + 1074) by lia.
    rewrite <- (pow2_join (ea + 1074) (eb + 1074)) by lia.
    rewrite <- (pow2_join (ec + 1074) 1074) by lia.
    transitivity ((Zpos ma * 2 ^ (ea + 1074)) * (Zpos mb * 2 ^ (eb + 1074)));
      [ring |].
    rewrite Va, Vb.
    transitivity (a * b * 2 ^ 1074 * 2 ^ 1074); [ring |].
    rewrite <- Vc. ring. }
  destruct (Z_le_gt_dec (ea + eb) ec) as [Hle | Hgt].
  - apply binary_round_aux_exact; [exact Bc | exact Hle |].
    rewrite Pos2Z.inj_mul.
    apply (pow2_cancel _ _ (ea + eb + 2148)); [lia |].
    rewrite <- (Z.mul_assoc (Zpos mc)).
    rewrite (pow2_join (ec - (ea + eb)) (ea + eb + 2148)) by lia.
    replace (ec - (ea + eb) + (ea + eb + 2148)) with (ec + 2148) by lia.
    exact E.
  - exfalso.
    replace (ea + eb + 2148) with ((ea + eb - ec) + (ec + 2148)) in E by lia.
    rewrite <- (pow2_join (ea + eb - ec) (ec + 2148)) in E by lia.
    rewrite Z.mul_assoc in E.
    apply pow2_cancel in E; [| lia].
    assert (2 ^ 1 <= 2 ^ (ea + eb - ec)) by (apply pow2_le; lia).
    change (2 ^ 1) with 2 in *.
    assert (Zpos ma * Zpos mb * 2 <= Zpos ma * Zpos mb * 2 ^ (ea + eb - ec))
      by (apply Z.mul_le_mono_nonneg_l; lia).
    lia.
Qed.

Lemma Z2F_add (a b : Z) :
  0 <= a -> 0 <= b -> a + b < 2 ^ 53 ->
  (Z2F a + Z2F b)%float = Z2F (a + b).
Proof.
  intros Ha Hb Hab.
  destruct (Z.eq_dec a 0) as [-> | Ha0].
  { rewrite Z2F_zero, Z.add_0_l. apply add_zero_left.
    apply Z2F_not_neg_zero. lia. }
  destruct (Z2F_shape a ltac:(lia)) as [ma [ea [Ea [Ba [Va _]]]]].
  apply Prim2SF_inj. rewrite add_spec, Ea.
  destruct (Z.eq_dec b 0) as [-> | Hb0].
  { rewrite Z.add_0_r, Z2F_zero, zero_spec, Ea. reflexivity. }
  destruct (Z2F_shape b ltac:(lia)) as [mb [eb [Eb [Bb [Vb _]]]]].
  destruct (Z2F_shape (a + b) ltac:(lia)) as [mc [ec [Ec [Bc [Vc _]]]]].
  rewrite Eb, Ec. apply add_exact; try assumption.
  rewrite Va, Vb, Vc. ring.
Qed.

(** A whole number below [2^53] is in binary64 what it is: a finite number,
    not negative, of that value. *)
Lemma Z2F_value (n : Z) :
  0 <= n < 2 ^ 53 ->
  (0 <=? Z2F n)%float = true /\ (Z2F n <? infinity)%float = true
  /\ SFval (Prim2SF (Z2F n)) = n * 2 ^ 1074.
Proof.
  intros Hn. rewrite leb_spec, ltb_spec, zero_spec, infinity_spec.
  destruct (Z.eq_dec n 0) as [-> | Hne]; [repeat split |].
  destruct (Z2F_shape n ltac:(lia)) as [m [e [E [_ [V _]]]]].
  rewrite E. cbn [SFval]. rewrite Z.mul_1_l. repeat split. exact V.
Qed.
End WholeNumbers.

(** *** Whole segments: [HH:MM:SS] *)

(** The ten digits, and what the parser asks of a character about them. *)
Lemma digit_cases (c : ascii) :
  Py_ISDIGIT c = true ->
  Py_ISSPACE c = false /\ Ascii.eqb c ":" = false /\ Ascii.eqb c "_" = false
  /\ (forall s, read_sign (String c s) = (false, String c s))
  /\ (forall (A : Type) (x y : A),
        match Some c with Some "_"%char => x | _ => y end = y).
Proof.
  intros H.
  destruct c as [[] [] [] [] [] [] [] []]; try discriminate H;
    repeat split; reflexivity.
Qed.

Lemma rstrip_digits (s : string) : only_digits s = true -> rstrip s = s.
Proof.
  induction s as [| c s IH]; [reflexivity |].
  cbn [only_digits rstrip]. intros H. apply andb_true_iff in H.
  destruct H as [Hc Hs]. rewrite (IH Hs).
  destruct s; [| reflexivity].
  destruct (digit_cases c Hc) as [-> _]. reflexivity.
Qed.

Lemma strip_digits (s : string) : only_digits s = true -> strip s = s.
Proof.
  intros H. unfold strip. destruct s as [| c s]; [reflexivity |].
  cbn [lstrip]. pose proof H as H'. cbn [only_digits] in H'.
  apply andb_true_iff in H'. destruct H' as [Hc _].
  destruct (digit_cases c Hc) as [-> _]. apply rstrip_digits. exact H.
Qed.

Lemma drop_underscores_digits (d : ascii) (s : string) :
  Py_ISDIGIT d = true -> only_digits s = true ->
  drop_underscores (Some d) s = Some s.
Proof.
  revert d. induction s as [| c s IH]; intros d Hd Hs.
  - cbn [drop_underscores].
    destruct (digit_cases d Hd) as [_ [_ [_ [_ Hm]]]]. apply Hm.
  - cbn [only_digits] in Hs. apply andb_true_iff in Hs.
    destruct Hs as [Hc Hs]. cbn [drop_underscores].
    destruct (digit_cases c Hc) as [_ [_ [-> _]]].
    destruct (digit_cases d Hd) as [_ [_ [_ [_ Hm]]]]. rewrite Hm.
    rewrite (IH c Hc Hs). reflexivity.
Qed.

Lemma read_digits_all (s : string) (acc : N) (cnt : nat) :
  only_digits s = true ->
  exists n, read_digits acc cnt s = (n, (cnt + String.length s)%nat, EmptyString).
Proof.
  revert acc cnt. induction s as [| c s IH]; intros acc cnt H.
  - exists acc. cbn. rewrite Nat.add_0_r. reflexivity.
  - cbn [only_digits] in H. apply andb_true_iff in H. destruct H as [Hc Hs].
    cbn [read_digits String.length]. rewrite Hc.
    destruct (IH (acc * 10 + digit_val c)%N (S cnt) Hs) as [n E].
    exists n. rewrite E. f_equal. f_equal. lia.
Qed.

Lemma py_float_unsigned (s : string) :
  unsigned_integer s = true -> py_float s = Some (Z2F (integer_value s)).
Proof.
  unfold unsigned_integer. intros H. apply andb_true_iff in H.
  destruct H as [Hne Hd]. unfold py_float. rewrite (strip_digits s Hd).
  destruct s as [| c s]; [discriminate |].
  pose proof Hd as Hd'. cbn [only_digits] in Hd'.
  apply andb_true_iff in Hd'. destruct Hd' as [Hc Hs].
  destruct (digit_cases c Hc) as [_ [_ [Hu [Hsign _]]]].
  cbn [drop_underscores]. rewrite Hu, (drop_underscores_digits c s Hc Hs).
  cbn [option_map]. rewrite Hsign.
  unfold parse_decimal, integer_value.
  destruct (read_digits_all (String c s) 0 0 Hd) as [n E]. rewrite E.
  cbn [fst String.length Nat.add read_exponent Z.of_nat Z.sub Z.opp Z.add].
  unfold Z2F. destruct n; reflexivity.
Qed.

Lemma digits_no_colon (s : string) :
  only_digits s = true -> contains ":" s = false.
Proof.
  induction s as [| c s IH]; [reflexivity |].
  cbn [only_digits contains]. intros H. apply andb_true_iff in H.
  destruct H as [Hc Hs]. destruct (digit_cases c Hc) as [_ [-> _]].
  exact (IH Hs).
Qed.

Lemma integer_value_nonneg (s : string) : (0 <= integer_value s)%Z.
Proof. unfold integer_value. lia. Qed.

Lemma sixty_is_whole : 60%float = Z2F 60.
Proof. reflexivity. Qed.

Lemma append_string_assoc (a b c : string) :
  ((a ++ b) ++ c = a ++ (b ++ c))%string.
Proof. induction a as [| x a IH]; cbn; [reflexivity | now rewrite IH]. Qed.

(** One more whole segment, on whole seconds. *)
Lemma append_whole_segment (s seg : string) (n : Z) :
  (0 <= n)%Z -> unsigned_integer seg = true ->
  (n * 60 + integer_value seg < 2 ^ 53)%Z ->
  _time_str_to_seconds s = Some (Z2F n) ->
  _time_str_to_seconds (s ++ ":" ++ seg)
  = Some (Z2F (n * 60 + integer_value seg)).
Proof.
  intros Hn Hseg Hb Hs.
  pose proof (integer_value_nonneg seg) as Hv.
  pose proof Hseg as Hd. unfold unsigned_integer in Hd.
  apply andb_true_iff in Hd. destruct Hd as [_ Hd].
  rewrite (parse_append s seg (digits_no_colon seg Hd)).
  rewrite Hs, (py_float_unsigned seg Hseg). f_equal.
  rewrite sixty_is_whole, Z2F_mul, Z2F_add; try reflexivity;
    change (2 ^ 53)%Z with 9007199254740992%Z in *; lia.
Qed.

(** X15. A timestamp of whole segments means what [HH:MM:SS] says: for
    unsigned integers [h], [m] and [s] whose seconds, [(h * 60 + m) * 60 + s],
    stay below [2^53], the parser returns that number of seconds exactly,
    a finite number that is not negative; and likewise for [MM:SS] and
    [SS]. *)
Theorem whole_segments_exact :
  forall h m s : string,
    unsigned_integer h = true -> unsigned_integer m = true ->
    unsigned_integer s = true ->
    let seconds :=
      ((integer_value h * 60 + integer_value m) * 60 + integer_value s)%Z in
    (seconds < 2 ^ 53)%Z ->
    _time_str_to_seconds (h ++ ":" ++ m ++ ":" ++ s) = Some (Z2F seconds)
    /\ _time_str_to_seconds (h ++ ":" ++ m)
       = Some (Z2F (integer_value h * 60 + integer_value m))
    /\ _time_str_to_seconds h = Some (Z2F (integer_value h))
    /\ (0 <=? Z2F seconds)%float = true
    /\ (Z2F seconds <? infinity)%float = true
    /\ SFval (Prim2SF (Z2F seconds)) = (seconds * 2 ^ 1074)%Z.
Proof.
  intros h m s Hh Hm Hs seconds Hb.
  pose proof (integer_value_nonneg h) as Vh.
  pose proof (integer_value_nonneg m) as Vm.
  pose proof (integer_value_nonneg s) as Vs.
  change (2 ^ 53)%Z with 9007199254740992%Z in Hb.
  assert (Bh : (0 <= integer_value h < 2 ^ 53)%Z)
    by (change (2 ^ 53)%Z with 9007199254740992%Z; subst seconds; lia).
  assert (E1 : _time_str_to_seconds h = Some (Z2F (integer_value h))).
  { pose proof Hh as Hd. unfold unsigned_integer in Hd.
    apply andb_true_iff in Hd. destruct Hd as [_ Hd].
    rewrite (parse_single h _ (digits_no_colon h Hd)
               (py_float_unsigned h Hh)).
    rewrite add_zero_left; [reflexivity |].
    apply Z2F_not_neg_zero. exact Bh. }
  assert (E2 : _time_str_to_seconds (h ++ ":" ++ m)
               = Some (Z2F (integer_value h * 60 + integer_value m))).
  { apply append_whole_segment; try assumption;
      change (2 ^ 53)%Z with 9007199254740992%Z; subst seconds; lia. }
  assert (E3 : _time_str_to_seconds ((h ++ ":" ++ m) ++ ":" ++ s)
               = Some (Z2F seconds)).
  { apply append_whole_segment; try assumption;
      change (2 ^ 53)%Z with 9007199254740992%Z; subst seconds; lia. }
  split.
  { rewrite <- E3, (append_string_assoc h (":" ++ m) (":" ++ s)).
    reflexivity. }
  split; [exact E2 |]. split; [exact E1 |].
  apply Z2F_value. change (2 ^ 53)%Z with 9007199254740992%Z.
  subst seconds. lia.
Qed.

Lemma whole_segments_exact_witness :
  _time_str_to_seconds "00:10:05" = Some 605%float.
Proof.
  exact (proj1 (whole_segments_exact "00" "10" "05" eq_refl eq_refl eq_refl
                  eq_refl)).
Defined.

(** *** The split of whole seconds *)

Section WholeSplit.
Local Open Scope Z_scope.

Lemma Z2F_finite (n : Z) :
  0 <= n < 2 ^ 53 -> SFfinite (Prim2SF (Z2F n)) = true.
Proof.
  intros Hn. destruct (Z.eq_dec n 0) as [-> | Hne]; [reflexivity |].
  destruct (Z2F_shape n ltac:(lia)) as [m [e [E _]]]. rewrite E. reflexivity.
Qed.

Lemma Z2F_lt (a b : Z) :
  0 <= a -> a < b -> b < 2 ^ 53 -> (Z2F a <? Z2F b)%float = true.
Proof.
  intros Ha Hab Hb. rewrite ltb_spec.
  apply SFltb_val; try apply Prim2SF_valid; try (apply Z2F_finite; lia).
  destruct (Z2F_value a ltac:(lia)) as [_ [_ ->]].
  destruct (Z2F_value b ltac:(lia)) as [_ [_ ->]].
  apply Z.mul_lt_mono_pos_r; [apply pow2_pos; lia | exact Hab].
Qed.

(** The difference of two whole numbers below [2^53] needs no rounding. *)
Lemma Z2F_sub (a b : Z) :
  0 < b -> b < a -> a < 2 ^ 53 -> (Z2F a - Z2F b)%float = Z2F (a - b).
Proof.
  intros Hb Hab Ha. apply Prim2SF_inj. rewrite sub_spec.
  destruct (Z2F_shape a ltac:(lia)) as [ma [ea [Ea [Ba [Va _]]]]].
  destruct (Z2F_shape b ltac:(lia)) as [mb [eb [Eb [Bb [Vb _]]]]].
  destruct (Z2F_shape (a - b) ltac:(lia)) as [mc [ec [Ec [Bc [Vc _]]]]].
  rewrite Ea, Eb, Ec.
  pose proof Ba as Ba'. pose proof Bb as Bb'. apply bounded_iff in Ba', Bb'.
  destruct (SFsub_finite false ma ea false mb eb) as [n [E Hn]]; try lia.
  rewrite E. cbn [SFval] in Hn. rewrite !Z.mul_1_l, Va, Vb in Hn.
  assert (Hd : n * 2 ^ (Z.min ea eb + 1074) = Zpos mc * 2 ^ (ec + 1074)).
  { rewrite Hn, Vc. ring. }
  assert (Hn0 : 0 < n).
  { pose proof (mag_pos mc ec ltac:(apply bounded_iff in Bc; lia)).
    apply (pow2_sign n _ (Z.min ea eb + 1074)) in Hd; [| lia]. lia. }
  apply normalize_exact; try assumption; lia.
Qed.
End WholeSplit.

(** X16. On whole seconds the split is exact: for a timestamp that parses
    to the whole number [n] and an offset that is the whole number [k], with
    [0 < k < n < 2^53], [get_thumb] (of both classes, the switch on) starts
    with the two-stage command whose coarse seek is [n - k] and whose fine
    seek is [k], the offset itself. *)
Theorem whole_split_exact :
  forall (w : world) (vp ip : string) (frames : option string) (threads : Z)
         (timeout : Z) (eo : option bool) (tr : trace) (n k : Z),
    truthy vp = true -> truthy ip = true ->
    truthy_opt (shutil_which w "ffmpeg") = true ->
    effective_switch w eo = true ->
    _time_str_to_seconds (effective_frames frames) = Some (Z2F n) ->
    (0 < k)%Z -> (k < n)%Z -> (n < 2 ^ 53)%Z ->
    let two := plan_command vp ip threads
                 (TwoStage (FloatStr (Z2F (n - k))) (FloatStr (Z2F k))) in
    (exists rest,
        spawned (snd (FfmpegHelper2.get_thumb w vp ip frames threads (Z2F k)
                        timeout eo tr)) = spawned tr ++ two :: rest)
    /\ (exists rest,
        spawned (snd (FfmpegHelper.get_thumb w vp ip frames threads (Z2F k)
                        timeout tr)) = spawned tr ++ two :: rest)
    /\ (Z2F n - Z2F k)%float = Z2F (n - k)
    /\ (Z2F n - Z2F (n - k))%float = Z2F k
    /\ (Z2F (n - k) + Z2F k)%float = Z2F n.
Proof.
  intros w vp ip frames threads timeout eo tr n k Hv Hi Hw Hs Hp Hk Hkn Hn two.
  assert (E1 : (Z2F n - Z2F k)%float = Z2F (n - k))
    by (apply Z2F_sub; assumption).
  assert (E2 : (Z2F n - Z2F (n - k))%float = Z2F k).
  { rewrite Z2F_sub by lia. f_equal. lia. }
  assert (Ho : (0 <? Z2F k)%float = true).
  { rewrite <- Z2F_zero. apply Z2F_lt; lia. }
  assert (Hot : (Z2F k <? Z2F n)%float = true) by (apply Z2F_lt; lia).
  destruct (guard_on (Z2F n) (Z2F k) Ho Hot) as [Hg Hmax].
  assert (H2 : exists rest,
            spawned (snd (FfmpegHelper2.get_thumb w vp ip frames threads
                            (Z2F k) timeout eo tr))
            = spawned tr ++ two :: rest).
  { destruct (thumb2_two_stage_spawned w vp ip frames threads (Z2F k) timeout
                eo tr (Z2F n) Hv Hi Hw Hs Hp Hg) as [rest [E _]].
    rewrite Hmax, E1, E2 in E. exists rest. exact E. }
  split; [exact H2 |]. split.
  { rewrite (thumb_free_is_thumb2 w vp ip frames threads (Z2F k) timeout eo)
      by exact Hs.
    exact H2. }
  split; [exact E1 |]. split; [exact E2 |].
  replace n with ((n - k) + k)%Z at 2 by lia.
  apply Z2F_add; lia.
Qed.

Lemma whole_split_exact_witness :
  exists rest,
    spawned (snd (FfmpegHelper.get_thumb
                    (fixed_world true None (exit_with 0) (inl JNull))
                    "movie.mkv" "thumb.jpg" (Some "00:10:05") 1 2%float 30 []))
    = spawned [] ++ plan_command "movie.mkv" "thumb.jpg" 1
                     (TwoStage (FloatStr 603%float) (FloatStr 2%float))
                   :: rest.
Proof.
  exact (proj1 (proj2
    (whole_split_exact (fixed_world true None (exit_with 0) (inl JNull))
       "movie.mkv" "thumb.jpg" (Some "00:10:05") 1 30 None [] 605 2
       eq_refl eq_refl eq_refl eq_refl ltac:(vm_compute; reflexivity)
       eq_refl eq_refl eq_refl))).
Defined.
